(** * FLOAT translation backend: session/protocol layer

    A shallow embedding of [backend/models.py], [backend/translation_processor.py]
    and [backend/main.py], followed by the properties of the specification
    that were checked against it.

    Conventions of the embedding.
    - Python [int] is [Z]; Python [float] is modelled by exact rationals [Q]
      (rounding of binary floating point is outside the model).
    - A Python dict used as a table is a stdpp [gmap].
    - A computation that may raise returns a [Result]; the exceptions are the
      classes the code raises or catches.
    - [datetime] values are microseconds since the epoch ([Z]); a [timedelta]
      is a difference of two of them.
    - A Python [str] is the [string] of its code points, all of them below
      256; an inbound JSON object is taken apart into typed fields
      ([InboundMessage]), and JSON on which the validation raises is kept as
      the exception it raises.
    - The coroutines of main.py are run one handler at a time, and a send is
      one step.  The one suspension with its interleaving written out is the
      [await] of [translate_audio] in [process_audio_chunk]
      ([process_audio_chunk_awaiting]). *)

From Stdlib Require Import ZArith QArith Qabs Qminmax Qround Lia.
From Stdlib Require Import Strings.String Strings.Ascii Strings.Byte.
From stdpp Require Import base option list gmap strings pretty.

Local Open Scope Z_scope.
Local Open Scope string_scope.

(** ** Python exceptions and results *)

Module Py.

(** The exception classes that occur in the three files.  [ProcessorError]
    and [ModelLoadError] are the repository's own ([ModelLoadError] is a
    subclass of [ProcessorError]); the others are built-in or library
    classes. *)
Inductive exn : Type :=
| ProcessorError (msg : string)
| ModelLoadError (msg : string)
| TypeError (msg : string)
| NameError (msg : string)
| ValueError (msg : string)
| AttributeError (msg : string)
| ZeroDivisionError (msg : string)
| ClientError (msg : string)       (* aiohttp transport failure *)
| TimeoutError (msg : string).     (* asyncio / aiohttp timeout *)

(** [str(e)] *)
Definition str (e : exn) : string :=
  match e with
  | ProcessorError m | ModelLoadError m | TypeError m | NameError m
  | ValueError m | AttributeError m | ZeroDivisionError m
  | ClientError m | TimeoutError m => m
  end.

(** [isinstance(e, ProcessorError)], what [except ProcessorError] tests. *)
Definition is_ProcessorError (e : exn) : bool :=
  match e with
  | ProcessorError _ | ModelLoadError _ => true
  | _ => false
  end.

Inductive Result (A : Type) : Type :=
| Ok (a : A)
| Raise (e : exn).
Arguments Ok {A} a.
Arguments Raise {A} e.

Definition bind {A B} (r : Result A) (k : A -> Result B) : Result B :=
  match r with
  | Ok a => k a
  | Raise e => Raise e
  end.

(** [try: body except Exception as e: handler(e)] *)
Definition try_except {A} (body : Result A) (handler : exn -> Result A) : Result A :=
  match body with
  | Ok a => Ok a
  | Raise e => handler e
  end.

(** True division [a / b] of two ints. *)
Definition truediv (a b : Z) : Result Q :=
  if Z.eqb b 0 then Raise (ZeroDivisionError "division by zero")
  else Ok (inject_Z a / inject_Z b)%Q.

End Py.

Import Py.

Declare Scope py_scope.
Delimit Scope py_scope with py.
Notation "x <- c ;; k" := (bind c (fun x => k))
  (at level 100, c at next level, right associativity) : py_scope.
Notation "c ;;; k" := (bind c (fun _ => k))
  (at level 100, right associativity) : py_scope.

(** ** models.py *)

Module Models.

(** [class ErrorCode(str, Enum)] *)
Inductive ErrorCode : Type :=
| INVALID_MESSAGE_FORMAT
| JSON_PARSE_ERROR
| PROCESSING_ERROR
| TRANSLATION_ERROR
| MODEL_LOAD_ERROR
| UNSUPPORTED_LANGUAGE
| RATE_LIMIT_EXCEEDED
| CONNECTION_ERROR
| UNEXPECTED_ERROR.

(** [class TranslationResult(BaseModel)] *)
Record TranslationResult : Type := {
  text : string;
  is_final : bool;
  confidence : Q;
  source_language : string;
  target_language : string;
  processing_time_ms : Q
}.

(** [class SessionInfo(BaseModel)] *)
Record SessionInfo : Type := {
  si_session_id : string;
  si_language_pair : string;
  si_created_at : Z;
  si_last_activity : Z;
  si_message_count : Z;
  si_chunks_processed : Z;
  si_last_acknowledged_seq : Z
}.

(** [class ServerError(BaseModel)] *)
Record ServerError : Type := {
  error_code : ErrorCode;
  error_message : string;
  se_session_id : string;
  retry_after : option Z
}.

(** [class ConnectionStats(BaseModel)] *)
Record ConnectionStats : Type := {
  total_connections : Z;
  active_connections : Z;
  total_translations : Z;
  successful_translations : Z;
  failed_translations : Z;
  avg_processing_time : Q;
  backpressure_events : Z
}.

Definition ConnectionStats_default : ConnectionStats :=
  {| total_connections := 0; active_connections := 0; total_translations := 0;
     successful_translations := 0; failed_translations := 0;
     avg_processing_time := 0%Q; backpressure_events := 0 |}.

(** [ConnectionStats.get_success_rate] *)
Definition get_success_rate (self : ConnectionStats) : Result Q :=
  if Z.eqb (total_translations self) 0 then Ok 0%Q
  else (r <- truediv (successful_translations self) (total_translations self) ;;
        Ok (r * 100)%Q)%py.

End Models.

(** ** translation_processor.py *)

Module TranslationProcessor.

Import Models.

Definition bytes : Type := list byte.

(** *** numpy conversions between 16-bit PCM bytes and sample arrays *)

(** One little-endian [int16] from its two bytes. *)
Definition int16_of_bytes (lo hi : byte) : Z :=
  let u := Z.of_N (Byte.to_N lo) + 256 * Z.of_N (Byte.to_N hi) in
  if Z.ltb u 32768 then u else u - 65536.

(** [np.frombuffer(b, dtype=np.int16)]: raises [ValueError] when the length
    is not a multiple of the element size. *)
Fixpoint frombuffer_int16 (b : bytes) : Result (list Z) :=
  match b with
  | [] => Ok []
  | [_] => Raise (ValueError "buffer size must be a multiple of element size")
  | lo :: hi :: rest =>
      (tl <- frombuffer_int16 rest ;; Ok (int16_of_bytes lo hi :: tl))%py
  end.

(** [.astype(np.float32) / 32768.0] *)
Definition to_float (z : Z) : Q := (inject_Z z / 32768)%Q.

(** [.astype(np.int16)] of one float: truncation toward zero, then the
    16-bit two's complement wrap-around. *)
Definition astype_int16 (q : Q) : Z :=
  let t := Z.quot (Qnum q) (Z.pos (Qden q)) in
  let u := t mod 65536 in
  if Z.ltb u 32768 then u else u - 65536.

Definition byte_of_Z (z : Z) : byte :=
  match Byte.of_N (Z.to_N (z mod 256)) with
  | Some b => b
  | None => Byte.x00
  end.

(** [.tobytes()] of an [int16] array. *)
Definition tobytes (l : list Z) : bytes :=
  flat_map (fun z => let u := z mod 65536 in [byte_of_Z u; byte_of_Z (u / 256)]) l.

(** [np.max(np.abs(audio))]: raises [ValueError] on an empty array. *)
Definition np_max_abs (audio : list Q) : Result Q :=
  match audio with
  | [] => Raise (ValueError "zero-size array to reduction operation maximum which has no identity")
  | x :: rest => Ok (fold_left (fun m y => Qmax m (Qabs y)) rest (Qabs x))
  end.

Definition Qgtb (a b : Q) : bool := negb (Qle_bool a b).

(** *** The processor object *)

(** The routines of the libraries the processor calls ([base64],
    [scipy.signal], [np.sqrt]); each filter may raise. *)
Record Lib : Type := {
  b64decode : string -> Result bytes;
  b64encode : bytes -> string;
  highpass_filtfilt : list Q -> Result (list Q);   (* butter(1, 80/nyquist, 'high') + filtfilt *)
  bandpass_filtfilt : list Q -> Result (list Q);   (* butter(2, [low, high], 'band') + filtfilt *)
  np_sqrt : Q -> Q
}.

(** The attributes of [SeamlessM4TProcessor] that its methods read or write. *)
Record SeamlessM4TProcessor : Type := {
  api_key : option string;
  is_loaded : bool;
  enable_noise_suppression : bool;
  enable_agc : bool;
  enable_bandpass_filter : bool;
  total_processed : Z;
  processing_times : list Q
}.

(** [SeamlessM4TProcessor.__init__] *)
Definition init : SeamlessM4TProcessor :=
  {| api_key := None; is_loaded := false;
     enable_noise_suppression := true; enable_agc := true;
     enable_bandpass_filter := true;
     total_processed := 0; processing_times := [] |}.

Definition agc_target_level : Q := 7 # 10.
Definition agc_max_gain : Q := 3.

(** [self.language_mapping] *)
Definition language_mapping : gmap string string :=
  list_to_map
    [("en", "eng"); ("hi", "hin"); ("bn", "ben"); ("te", "tel"); ("ta", "tam");
     ("mr", "mar"); ("gu", "guj"); ("kn", "kan"); ("ml", "mal"); ("pa", "pan");
     ("ur", "urd"); ("as", "asm"); ("or", "ori"); ("sd", "snd");
     ("zh", "zho"); ("ar", "ara"); ("fr", "fra"); ("de", "deu"); ("es", "spa");
     ("pt", "por"); ("ru", "rus"); ("ja", "jpn"); ("ko", "kor")].

(** [code in self.language_mapping] *)
Definition in_language_mapping (code : string) : bool :=
  bool_decide (is_Some (language_mapping !! code)).

(** [_is_language_supported] *)
Definition _is_language_supported (source_language target_language : string) : bool :=
  let source_supported := in_language_mapping source_language in
  let target_supported := in_language_mapping target_language in
  if negb source_supported || negb target_supported then false else true.

(** *** The engine and the clock seen by one processor *)

(** What one [session.post] to the engine does. *)
Inductive Response : Type :=
| Failed (e : exn)                         (* the request raises: transport error or timeout *)
| NotOk (status : Z) (error_text : string) (* [response.ok] is false *)
| Json (audio_chunks : option string).     (* a JSON object, with or without "audio_chunks" *)

Record Attempt : Type := {
  latency : Z;              (* microseconds the request takes *)
  response : Response
}.

Record World : Type := {
  engine : nat -> Attempt;  (* outcome of the n-th request sent to the engine *)
  net_calls : nat;          (* requests sent so far *)
  sleeps : list Q;          (* arguments of [asyncio.sleep], most recent first *)
  now : Z                   (* the clock, microseconds *)
}.

Definition asyncio_sleep (seconds : Q) (w : World) : World :=
  {| engine := engine w; net_calls := net_calls w;
     sleeps := seconds :: sleeps w;
     now := now w + Qfloor (seconds * 1000000) |}.

(** [session.post(...)]: consumes the next outcome of the engine. *)
Definition session_post (w : World) : Response * World :=
  let a := engine w (net_calls w) in
  (response a,
   {| engine := engine w; net_calls := S (net_calls w);
      sleeps := sleeps w; now := now w + latency a |}).

(** *** Audio conditioning *)

(** [audio[start:end_]] *)
Definition slice {A} (l : list A) (start end_ : nat) : list A :=
  take (end_ - start) (drop start l).

Definition Qsum (l : list Q) : Q := fold_right Qplus 0%Q l.

(** [_apply_agc] *)
Definition _apply_agc (lib : Lib) (audio : list Q) : list Q :=
  let window_size := 1024%nat in
  imap (fun i x =>
          let start := (i - window_size / 2)%nat in
          let end_ := Nat.min (length audio) (i + window_size / 2) in
          let window := slice audio start end_ in
          let rms := np_sqrt lib (Qsum (map (fun y => y * y)%Q window)
                                  / inject_Z (Z.of_nat (length window)))%Q in
          let gain := if Qgtb rms 0 then (agc_target_level / rms)%Q else 1%Q in
          let limited_gain := Qmin gain agc_max_gain in
          (x * limited_gain)%Q)
       audio.

(** [_normalize_audio] *)
Definition _normalize_audio (audio : list Q) : Result (list Q) :=
  (max_amplitude <- np_max_abs audio ;;
   if Qeq_bool max_amplitude 0 then Ok audio
   else
     let target_amplitude := (8 # 10)%Q in
     let scale := (target_amplitude / max_amplitude)%Q in
     Ok (map (fun x => x * scale)%Q audio))%py.

(** The body of the [try] block of [_preprocess_audio]. *)
Definition preprocess_pipeline (lib : Lib) (self : SeamlessM4TProcessor)
    (audio_bytes : bytes) : Result bytes :=
  (ints <- frombuffer_int16 audio_bytes ;;
   let audio_array := map to_float ints in
   a1 <- (if enable_noise_suppression self
          then highpass_filtfilt lib audio_array else Ok audio_array) ;;
   a2 <- (if enable_agc self then Ok (_apply_agc lib a1) else Ok a1) ;;
   a3 <- (if enable_bandpass_filter self
          then bandpass_filtfilt lib a2 else Ok a2) ;;
   a4 <- _normalize_audio a3 ;;
   Ok (tobytes (map (fun x => astype_int16 (x * 32767)%Q) a4)))%py.

(** [_preprocess_audio] *)
Definition _preprocess_audio (lib : Lib) (self : SeamlessM4TProcessor)
    (audio_bytes : bytes) : Result bytes :=
  try_except (preprocess_pipeline lib self audio_bytes)
    (fun e => Raise (ProcessorError ("Audio preprocessing failed: " ++ str e))).

(** [_apply_peak_safety_normalization] *)
Definition _apply_peak_safety_normalization (audio : list Q) : Result (list Q) :=
  if Nat.eqb (length audio) 0 then Ok audio
  else
    (peak_amplitude <- np_max_abs audio ;;
     let max_safe_amplitude := (95 # 100)%Q in
     if Qgtb peak_amplitude max_safe_amplitude then
       let scale := (max_safe_amplitude / peak_amplitude)%Q in
       Ok (map (fun x => x * scale)%Q audio)
     else Ok audio)%py.

(** [_postprocess_audio]: on any failure the original bytes are returned. *)
Definition _postprocess_audio (audio_data : bytes) : bytes :=
  match (ints <- frombuffer_int16 audio_data ;;
         processed_audio <- _apply_peak_safety_normalization (map to_float ints) ;;
         Ok (tobytes (map (fun x => astype_int16 (x * 32767)%Q) processed_audio)))%py
  with
  | Ok b => b
  | Raise _ => audio_data
  end.

(** *** The request to the engine *)

(** [_parse_seamless_m4t_response] *)
Definition _parse_seamless_m4t_response (lib : Lib) (audio_chunks : option string)
    : Result bytes :=
  try_except
    (match audio_chunks with
     | None => Raise (ProcessorError "No audio in API response")
     | Some audio_base64 => b64decode lib audio_base64
     end)
    (fun e => Raise (ProcessorError ("Failed to parse API response: " ++ str e))).

(** The names bound at module level in translation_processor.py, and the
    constants of the language. *)
Definition module_globals : list string :=
  ["asyncio"; "base64"; "json"; "logging"; "time"; "datetime"; "Optional";
   "Dict"; "Any"; "List"; "asynccontextmanager"; "aiohttp"; "np"; "signal";
   "wavfile"; "TranslationResult"; "ProcessorStatus"; "ProcessorError";
   "ModelLoadError"; "logger"; "SeamlessM4TProcessor"; "LatencyTracker";
   "TranslationProcessor"].
Definition builtin_constants : list string := ["True"; "False"; "None"].

(** Evaluation of a global name: [NameError] when it is bound nowhere. *)
Definition load_name (name : string) : Result unit :=
  if bool_decide (name ∈ (module_globals ++ builtin_constants)%list) then Ok ()
  else Raise (NameError ("name '" ++ name ++ "' is not defined")).

Definition max_retries : Z := 3.

(** The body of the [try] of one iteration of the retry loop. *)
Definition one_attempt (lib : Lib) (w : World) : Result bytes * World :=
  let '(r, w1) := session_post w in
  match r with
  | Failed e => (Raise e, w1)
  | NotOk status error_text =>
      (Raise (ProcessorError
                ("API request failed: " ++ pretty status ++ " - " ++ error_text)), w1)
  | Json result => (_parse_seamless_m4t_response lib result, w1)
  end.

(** [for attempt in range_: ...], lines 344-365.  The result is [None] when
    the loop ends without [return] or [raise]. *)
Fixpoint retry_loop (lib : Lib) (range_ : list Z) (w : World)
    : Result (option bytes) * World :=
  match range_ with
  | [] => (Ok None, w)
  | attempt :: rest =>
      match one_attempt lib w with
      | (Ok audio, w1) => (Ok (Some audio), w1)
      | (Raise e, w1) =>
          if Z.ltb attempt (max_retries - 1) then
            retry_loop lib rest (asyncio_sleep (1 * inject_Z (attempt + 1))%Q w1)
          else
            (Raise (ProcessorError
                      ("Translation failed after " ++ pretty max_retries
                       ++ " attempts: " ++ str e)), w1)
      end
  end.

(** [range(n)] *)
Definition range (n : Z) : list Z := map Z.of_nat (seq 0 (Z.to_nat n)).

(** [_translate_with_seamless_m4t].  The payload literal is evaluated before
    the loop; its entry ["do_sample": false] reads the global name [false]. *)
Definition _translate_with_seamless_m4t (lib : Lib) (self : SeamlessM4TProcessor)
    (audio_data : bytes) (source_language target_language : string) (w : World)
    : Result (option bytes) * World :=
  let audio_base64 := b64encode lib audio_data in
  match load_name "false" with
  | Raise e => (Raise e, w)
  | Ok _ => retry_loop lib (range max_retries) w
  end.

(** [_extract_text_placeholder] *)
Definition _extract_text_placeholder (audio_data : bytes) : string :=
  "Translated speech (" ++ pretty (Z.of_nat (length audio_data)) ++ " bytes)".

(** *** translate_audio *)

(** The body of the [try] of [translate_audio]; [start_time] is the clock on
    entry. *)
Definition translate_audio_body (lib : Lib) (self : SeamlessM4TProcessor)
    (audio_data source_language target_language session_id : string)
    (start_time : Z) (w : World)
    : Result TranslationResult * SeamlessM4TProcessor * World :=
  if negb (is_loaded self) then
    (Raise (ProcessorError "SeamlessM4T processor not initialized"), self, w)
  else if negb (_is_language_supported source_language target_language) then
    (Raise (ProcessorError ("Unsupported language pair: " ++ source_language
                            ++ " -> " ++ target_language)), self, w)
  else
    match b64decode lib audio_data with
    | Raise e => (Raise e, self, w)
    | Ok audio_bytes =>
    match _preprocess_audio lib self audio_bytes with
    | Raise e => (Raise e, self, w)
    | Ok preprocessed_audio =>
    match _translate_with_seamless_m4t lib self preprocessed_audio
            source_language target_language w with
    | (Raise e, w1) => (Raise e, self, w1)
    | (Ok None, w1) =>
        (* [np.frombuffer(None, ...)] raises inside [_postprocess_audio], which
           returns [None]; [len(None)] then raises after the statistics update *)
        let processing_time := ((now w1 - start_time) # 1000)%Q in
        (Raise (TypeError "object of type 'NoneType' has no len()"),
         {| api_key := api_key self; is_loaded := is_loaded self;
            enable_noise_suppression := enable_noise_suppression self;
            enable_agc := enable_agc self;
            enable_bandpass_filter := enable_bandpass_filter self;
            total_processed := total_processed self + 1;
            processing_times := (processing_times self ++ [processing_time])%list |}, w1)
    | (Ok (Some translated_audio), w1) =>
        let final_audio := _postprocess_audio translated_audio in
        let processing_time := ((now w1 - start_time) # 1000)%Q in
        (Ok {| text := _extract_text_placeholder final_audio;
               is_final := true;
               confidence := (85 # 100)%Q;
               source_language := source_language;
               target_language := target_language;
               processing_time_ms := processing_time |},
         {| api_key := api_key self; is_loaded := is_loaded self;
            enable_noise_suppression := enable_noise_suppression self;
            enable_agc := enable_agc self;
            enable_bandpass_filter := enable_bandpass_filter self;
            total_processed := total_processed self + 1;
            processing_times := (processing_times self ++ [processing_time])%list |}, w1)
    end end end.

(** [translate_audio]: a [ProcessorError] of the body is re-raised, any other
    exception is wrapped into one. *)
Definition translate_audio (lib : Lib) (self : SeamlessM4TProcessor)
    (audio_data source_language target_language session_id : string) (w : World)
    : Result TranslationResult * SeamlessM4TProcessor * World :=
  let start_time := now w in
  match translate_audio_body lib self audio_data source_language target_language
          session_id start_time w with
  | (Ok r, self1, w1) => (Ok r, self1, w1)
  | (Raise e, self1, w1) =>
      if is_ProcessorError e then (Raise e, self1, w1)
      else (Raise (ProcessorError ("S2S translation failed: " ++ str e)), self1, w1)
  end.

(** The parameters of [translate_audio] after [self] (lines 153-159). *)
Definition translate_audio_params : list string :=
  ["audio_data"; "source_language"; "target_language"; "session_id"].

(** Binding of the keyword arguments of a call to the parameters of a
    function: a keyword that names no parameter raises [TypeError], and so
    does a parameter that gets no argument. *)
Definition bind_keywords (fname : string) (params keywords : list string) : Result unit :=
  match List.find (fun k => bool_decide (k ∉ params)) keywords with
  | Some k =>
      Raise (TypeError (fname ++ "() got an unexpected keyword argument '" ++ k ++ "'"))
  | None =>
      match List.find (fun p => bool_decide (p ∉ keywords)) params with
      | Some p =>
          Raise (TypeError (fname ++ "() missing 1 required positional argument: '"
                            ++ p ++ "'"))
      | None => Ok ()
      end
  end.

(** A call [self.translate_audio(k1=..., k2=..., ...)] with the keywords
    [keywords]: the arguments are bound first, and the body runs only when
    the binding succeeds. *)
Definition call_translate_audio (lib : Lib) (self : SeamlessM4TProcessor)
    (keywords : list string)
    (audio_data source_language target_language session_id : string) (w : World)
    : Result TranslationResult * SeamlessM4TProcessor * World :=
  match bind_keywords "SeamlessM4TProcessor.translate_audio" translate_audio_params
          keywords with
  | Raise e => (Raise e, self, w)
  | Ok _ => translate_audio lib self audio_data source_language target_language
              session_id w
  end.

(** *** Life cycle of the processor *)

(** [_test_api_connection].  [get] is what the GET request to the API does:
    the status of its response, or the exception it raises. *)
Definition _test_api_connection (get : Result Z) : Result unit :=
  try_except
    (status <- get ;;
     if negb (Z.eqb status 200) then
       Raise (ProcessorError ("API test failed: " ++ pretty status))
     else Ok ())%py
    (fun e => Raise (ProcessorError ("API connection failed: " ++ str e))).

Definition set_api_key (key : option string) (self : SeamlessM4TProcessor)
    : SeamlessM4TProcessor :=
  {| api_key := key; is_loaded := is_loaded self;
     enable_noise_suppression := enable_noise_suppression self;
     enable_agc := enable_agc self;
     enable_bandpass_filter := enable_bandpass_filter self;
     total_processed := total_processed self;
     processing_times := processing_times self |}.

Definition set_is_loaded (b : bool) (self : SeamlessM4TProcessor)
    : SeamlessM4TProcessor :=
  {| api_key := api_key self; is_loaded := b;
     enable_noise_suppression := enable_noise_suppression self;
     enable_agc := enable_agc self;
     enable_bandpass_filter := enable_bandpass_filter self;
     total_processed := total_processed self;
     processing_times := processing_times self |}.

(** [initialize]: the key is stored before the connectivity test, so it
    stays stored when the test fails. *)
Definition initialize (self : SeamlessM4TProcessor) (key : string) (get : Result Z)
    : Result unit * SeamlessM4TProcessor :=
  let self1 := set_api_key (Some key) self in
  match _test_api_connection get with
  | Ok _ => (Ok (), set_is_loaded true self1)
  | Raise e =>
      (Raise (ModelLoadError ("Model initialization failed: " ++ str e)), self1)
  end.

(** [cleanup] *)
Definition cleanup (self : SeamlessM4TProcessor) : SeamlessM4TProcessor :=
  set_api_key None (set_is_loaded false self).

(** What one request makes of the answer of the engine: the value of the
    [try] body of the retry loop. *)
Definition attempt_outcome (lib : Lib) (r : Response) : Result bytes :=
  match r with
  | Failed e => Raise e
  | NotOk status error_text =>
      Raise (ProcessorError
               ("API request failed: " ++ pretty status ++ " - " ++ error_text))
  | Json result => _parse_seamless_m4t_response lib result
  end.

(** The world after one request. *)
Definition posted (w : World) : World := (session_post w).2.

End TranslationProcessor.

(** ** main.py *)

Module Main.

Import Models.

(** *** Data *)

(** A connection object of the transport, known by its identity. *)
Definition WebSocket : Type := nat.

(** The outbound messages: the dicts built in main.py, one constructor per
    value of ["message_type"]. *)
Inductive Message : Type :=
| MConnected (session_id : string) (timestamp : Z)
| MAck (session_id : string) (ack_sequence_id : Z) (timestamp : Z)
| MTranscript (session_id : string) (final : bool) (chunk_index : Z)
    (sequence_id : option Z) (transcript : string) (confidence : Q)
    (processing_time_ms : Q) (timestamp : Z)
| MError (session_id : string) (code : ErrorCode) (message : string)
    (retry : option Z) (timestamp : Z)
| MKeepalive (session_id : string) (timestamp : Z).

(** What the server does that a client or the engine can observe. *)
Inductive Event : Type :=
| Sent (ws : WebSocket) (m : Message)         (* [websocket.send_text] returned *)
| Closed (ws : WebSocket) (code : Z) (reason : string)   (* [websocket.close] *)
| Dispatched (session_id : string) (sequence_id : option Z).
                                              (* [translate_audio] was called *)

(** One entry of [WebSocketManager.session_metadata]. *)
Record Metadata : Type := {
  client_ip : string;
  user_agent : string;
  language_pair : string;
  connected_at : Z;
  last_activity : Z;
  message_count : Z;
  chunks_processed : Z;
  last_acknowledged_seq : Z
}.

(** A parsed inbound unit: a JSON object whose fields, when present, have
    the types of [models.InboundMessage]; [None] is an absent key.  (A JSON
    value without the two required fields, an empty list for one, is treated
    by the code like an object without them.) *)
Record InboundMessage : Type := {
  in_session_id : option string;
  in_audio_chunk : option string;
  in_chunk_index : option Z;
  in_sequence_id : option Z;
  in_language_pair : option (option string * option string);  (* source, target *)
  in_message_type : option string
}.

(** The text received on the socket, as [json.loads] and
    [validate_inbound_message] see it. *)
Inductive Data : Type :=
| BadJson                        (* [json.loads] raises [JSONDecodeError] *)
| Parsed (message : InboundMessage)
| Untyped (e : exn).
    (* JSON on which [validate_inbound_message] raises [e]: a number, [true],
       [false] or [null] ([field not in message] raises [TypeError]), a list
       or string that contains both field names ([message["session_id"]]
       raises [TypeError]), or an object whose ["session_id"] is not a string
       ([uuid.UUID] raises [AttributeError], [TypeError] for [null]) *)

(** What one wait on [websocket.receive_text()] ends with. *)
Inductive Inbound : Type :=
| Recv (data : Data)
| WaitTimeout                 (* asyncio.TimeoutError after 30 s *)
| Disconnect                  (* WebSocketDisconnect *)
| RecvError (e : exn).        (* any other exception *)

(** The object bound to the global [translation_processor], as main.py uses
    it: a call of [translate_audio] by keywords, which may take time, and a
    read of the attribute [backpressure_events]. *)
Class Processor (P : Type) : Type := {
  call_translate_audio :
    P -> list string -> string -> string -> string -> string -> Z
    -> Result TranslationResult * P * Z;
  get_backpressure_events : P -> Result Z
}.

(** The globals of main.py and the transport. *)
Record State (P : Type) : Type := {
  manager_active_connections : gmap string WebSocket;
  manager_session_metadata : gmap string Metadata;
  active_sessions : gmap string SessionInfo;
  connection_stats : ConnectionStats;
  translation_processor : P;
  clock : Z;                       (* microseconds since the epoch *)
  broken : gset WebSocket;         (* sockets on which [send_text] raises *)
  trace : list Event               (* oldest first *)
}.
Arguments manager_active_connections {P} _.
Arguments manager_session_metadata {P} _.
Arguments active_sessions {P} _.
Arguments connection_stats {P} _.
Arguments translation_processor {P} _.
Arguments clock {P} _.
Arguments broken {P} _.
Arguments trace {P} _.

Section Updates.
Context {P : Type}.

Definition set_connections (f : gmap string WebSocket -> gmap string WebSocket)
    (st : State P) : State P :=
  {| manager_active_connections := f (manager_active_connections st);
     manager_session_metadata := manager_session_metadata st;
     active_sessions := active_sessions st;
     connection_stats := connection_stats st;
     translation_processor := translation_processor st;
     clock := clock st; broken := broken st; trace := trace st |}.

Definition set_metadata (f : gmap string Metadata -> gmap string Metadata)
    (st : State P) : State P :=
  {| manager_active_connections := manager_active_connections st;
     manager_session_metadata := f (manager_session_metadata st);
     active_sessions := active_sessions st;
     connection_stats := connection_stats st;
     translation_processor := translation_processor st;
     clock := clock st; broken := broken st; trace := trace st |}.

Definition set_sessions (f : gmap string SessionInfo -> gmap string SessionInfo)
    (st : State P) : State P :=
  {| manager_active_connections := manager_active_connections st;
     manager_session_metadata := manager_session_metadata st;
     active_sessions := f (active_sessions st);
     connection_stats := connection_stats st;
     translation_processor := translation_processor st;
     clock := clock st; broken := broken st; trace := trace st |}.

Definition set_stats (f : ConnectionStats -> ConnectionStats)
    (st : State P) : State P :=
  {| manager_active_connections := manager_active_connections st;
     manager_session_metadata := manager_session_metadata st;
     active_sessions := active_sessions st;
     connection_stats := f (connection_stats st);
     translation_processor := translation_processor st;
     clock := clock st; broken := broken st; trace := trace st |}.

Definition set_processor (p : P) (now : Z) (st : State P) : State P :=
  {| manager_active_connections := manager_active_connections st;
     manager_session_metadata := manager_session_metadata st;
     active_sessions := active_sessions st;
     connection_stats := connection_stats st;
     translation_processor := p;
     clock := now; broken := broken st; trace := trace st |}.

Definition emit (e : Event) (st : State P) : State P :=
  {| manager_active_connections := manager_active_connections st;
     manager_session_metadata := manager_session_metadata st;
     active_sessions := active_sessions st;
     connection_stats := connection_stats st;
     translation_processor := translation_processor st;
     clock := clock st; broken := broken st; trace := (trace st ++ [e])%list |}.

(** Time passes ([dt] microseconds) while every task is suspended. *)
Definition elapse (dt : Z) (st : State P) : State P :=
  {| manager_active_connections := manager_active_connections st;
     manager_session_metadata := manager_session_metadata st;
     active_sessions := active_sessions st;
     connection_stats := connection_stats st;
     translation_processor := translation_processor st;
     clock := clock st + dt; broken := broken st; trace := trace st |}.

(** The peer of [ws] goes away: from now on [send_text] on it raises. *)
Definition break_socket (ws : WebSocket) (st : State P) : State P :=
  {| manager_active_connections := manager_active_connections st;
     manager_session_metadata := manager_session_metadata st;
     active_sessions := active_sessions st;
     connection_stats := connection_stats st;
     translation_processor := translation_processor st;
     clock := clock st; broken := {[ws]} ∪ broken st; trace := trace st |}.

End Updates.

(** [int(time.time() * 1000)] *)
Definition timestamp_ms {P} (st : State P) : Z := clock st / 1000.

(** [timedelta.seconds]: the seconds field of the normalised
    (days, seconds, microseconds) form, always in [0, 86400). *)
Definition timedelta_seconds (delta : Z) : Z := (delta mod 86400000000) / 1000000.

(** [timedelta.total_seconds()], rounded down to whole seconds. *)
Definition timedelta_total_seconds (delta : Z) : Z := delta / 1000000.

(** *** uuid.UUID *)

Definition is_hex_digit (c : ascii) : bool :=
  let n := Z.of_nat (nat_of_ascii c) in
  (Z.leb 48 n && Z.leb n 57) || (Z.leb 65 n && Z.leb n 70)
  || (Z.leb 97 n && Z.leb n 102).

Fixpoint starts_with (pat s : list ascii) : bool :=
  match pat, s with
  | [], _ => true
  | p :: pat', c :: s' => if Ascii.eqb p c then starts_with pat' s' else false
  | _ :: _, [] => false
  end.

(** [s.replace(pat, '')] for a non-empty [pat]; [fuel] bounds the scan. *)
Fixpoint remove_all (fuel : nat) (pat s : list ascii) : list ascii :=
  match fuel with
  | O => s
  | S fuel' =>
      match s with
      | [] => []
      | c :: s' =>
          if starts_with pat s then remove_all fuel' pat (drop (length pat) s)
          else c :: remove_all fuel' pat s'
      end
  end.

Fixpoint lstrip (chars : ascii -> bool) (s : list ascii) : list ascii :=
  match s with
  | c :: s' => if chars c then lstrip chars s' else s
  | [] => []
  end.

Definition strip (chars : ascii -> bool) (s : list ascii) : list ascii :=
  rev (lstrip chars (rev (lstrip chars s))).

(** The characters that [int] skips around a numeral: the ASCII white space
    of C, and the two white-space code points between 128 and 255 (NEL and
    the no-break space), which [int] turns into blanks first. *)
Definition is_int_space (c : ascii) : bool :=
  let n := Z.of_nat (nat_of_ascii c) in
  (Z.leb 9 n && Z.leb n 13) || Z.eqb n 32 || Z.eqb n 133 || Z.eqb n 160.

(** The digits of a numeral in base 16: hexadecimal digits with single
    underscores between them.  The result is the number of digits read and
    what follows them; [None] on a doubled or trailing underscore. *)
Fixpoint scan_digits (after_underscore : bool) (digits : nat) (s : list ascii)
    : option (nat * list ascii) :=
  match s with
  | c :: s' =>
      if Ascii.eqb c "_"%char then
        if after_underscore then None else scan_digits true digits s'
      else if is_hex_digit c then scan_digits false (S digits) s'
      else if after_underscore then None else Some (digits, s)
  | [] => if after_underscore then None else Some (digits, [])
  end.

(** [int(s, 16)] does not raise, for [s] without a hyphen: white space, an
    optional [+], an optional prefix [0x] or [0X] (one underscore may follow
    it), at least one digit, white space. *)
Definition int_base16_ok (s : list ascii) : bool :=
  let s1 := lstrip is_int_space s in
  let s2 := match s1 with
            | c :: rest => if Ascii.eqb c "+"%char then rest else s1
            | [] => []
            end in
  let s3 := match s2 with
            | z :: x :: rest =>
                if Ascii.eqb z "0"%char
                   && (Ascii.eqb x "x"%char || Ascii.eqb x "X"%char)
                then match rest with
                     | u :: rest' => if Ascii.eqb u "_"%char then rest' else rest
                     | [] => []
                     end
                else s2
            | _ => s2
            end in
  match s3 with
  | c :: _ =>
      if Ascii.eqb c "_"%char then false
      else match scan_digits false 0 s3 with
           | Some (S _, rest) => forallb is_int_space rest
           | _ => false
           end
  | [] => false
  end.

(** [uuid.UUID(s)] does not raise [ValueError]: after [urn:], [uuid:], outer
    braces and hyphens are removed, 32 characters remain and [int(hex, 16)]
    accepts them.  Besides 32 hexadecimal digits these are the forms of [int]:
    ["0x"] and 30 digits, a [+] and 31 digits, digits separated by
    underscores, white space around fewer digits.  The value is below
    [2^128] in every case, so the range check of [UUID] passes. *)
Definition uuid_ok (s : string) : bool :=
  let h0 := list_ascii_of_string s in
  let h1 := remove_all (length h0) (list_ascii_of_string "urn:") h0 in
  let h2 := remove_all (length h1) (list_ascii_of_string "uuid:") h1 in
  let h3 := strip (fun c => Ascii.eqb c "{" || Ascii.eqb c "}")%char h2 in
  let h4 := remove_all (length h3) (list_ascii_of_string "-") h3 in
  Nat.eqb (length h4) 32 && int_base16_ok h4.

(** *** class WebSocketManager *)

Section Server.
Context {P : Type} `{Processor P}.

(** [WebSocketManager.connect]; [websocket.accept()] is taken to succeed. *)
Definition connect (websocket : WebSocket) (session_id : string)
    (ip agent lang : string) (st : State P) : State P :=
  let st1 := set_connections (fun m => <[session_id := websocket]> m) st in
  let st2 := set_metadata
               (fun m => <[session_id :=
                             {| client_ip := ip; user_agent := agent;
                                language_pair := lang;
                                connected_at := clock st; last_activity := clock st;
                                message_count := 0; chunks_processed := 0;
                                last_acknowledged_seq := 0 |}]> m) st1 in
  set_stats
    (fun s => {| total_connections := total_connections s + 1;
                 active_connections :=
                   Z.of_nat (size (manager_active_connections st2));
                 total_translations := total_translations s;
                 successful_translations := successful_translations s;
                 failed_translations := failed_translations s;
                 avg_processing_time := avg_processing_time s;
                 backpressure_events := backpressure_events s |}) st2.

(** [WebSocketManager.disconnect] *)
Definition disconnect (session_id : string) (st : State P) : State P :=
  let st1 := set_connections (delete session_id) st in
  let st2 := set_metadata (delete session_id) st1 in
  set_stats
    (fun s => {| total_connections := total_connections s;
                 active_connections :=
                   Z.of_nat (size (manager_active_connections st2));
                 total_translations := total_translations s;
                 successful_translations := successful_translations s;
                 failed_translations := failed_translations s;
                 avg_processing_time := avg_processing_time s;
                 backpressure_events := backpressure_events s |}) st2.

(** The update of the activity fields after a successful send. *)
Definition touch_metadata (now : Z) (md : Metadata) : Metadata :=
  {| client_ip := client_ip md; user_agent := user_agent md;
     language_pair := language_pair md; connected_at := connected_at md;
     last_activity := now; message_count := message_count md + 1;
     chunks_processed := chunks_processed md;
     last_acknowledged_seq := last_acknowledged_seq md |}.

(** [WebSocketManager.send_message]: a no-op for a session that is not
    registered; a failing send unregisters the session. *)
Definition send_message (session_id : string) (message : Message)
    (st : State P) : State P :=
  match manager_active_connections st !! session_id with
  | Some websocket =>
      if bool_decide (websocket ∈ broken st) then disconnect session_id st
      else
        set_metadata (alter (touch_metadata (clock st)) session_id)
          (emit (Sent websocket message) st)
  | None => st
  end.

Definition set_last_acknowledged_seq (sequence_id : Z) (md : Metadata) : Metadata :=
  {| client_ip := client_ip md; user_agent := user_agent md;
     language_pair := language_pair md; connected_at := connected_at md;
     last_activity := last_activity md; message_count := message_count md;
     chunks_processed := chunks_processed md;
     last_acknowledged_seq := sequence_id |}.

(** [WebSocketManager.send_acknowledgment] *)
Definition send_acknowledgment (session_id : string) (sequence_id : Z)
    (st : State P) : State P :=
  let ack_message := MAck session_id sequence_id (timestamp_ms st) in
  let st1 := set_metadata (alter (set_last_acknowledged_seq sequence_id) session_id) st in
  send_message session_id ack_message st1.

(** [send_error_message] *)
Definition send_error_message (session_id : string) (error : ServerError)
    (st : State P) : State P :=
  send_message session_id
    (MError session_id (error_code error) (error_message error)
       (match retry_after error with
        | Some r => if Z.eqb r 0 then None else Some r
        | None => None
        end)
       (timestamp_ms st)) st.

Definition server_error (code : ErrorCode) (msg session_id : string) : ServerError :=
  {| error_code := code; error_message := msg; se_session_id := session_id;
     retry_after := None |}.

(** *** The message handlers *)

(** [validate_inbound_message] *)
Definition validate_inbound_message (message : InboundMessage) : bool :=
  match in_session_id message, in_audio_chunk message with
  | Some session_id, Some audio_chunk =>
      if negb (uuid_ok session_id) then false
      else if Nat.eqb (String.length audio_chunk) 0 then false
      else true
  | _, _ => false
  end.

Definition add_failed_translation (s : ConnectionStats) : ConnectionStats :=
  {| total_connections := total_connections s;
     active_connections := active_connections s;
     total_translations := total_translations s;
     successful_translations := successful_translations s;
     failed_translations := failed_translations s + 1;
     avg_processing_time := avg_processing_time s;
     backpressure_events := backpressure_events s |}.

(** The two [except] clauses of [process_audio_chunk] (lines 409-429). *)
Definition chunk_failed (session_id : string) (e : exn) (st : State P) : State P :=
  let st1 := set_stats add_failed_translation st in
  if is_ProcessorError e then
    send_error_message session_id
      (server_error TRANSLATION_ERROR (str e) session_id) st1
  else
    send_error_message session_id
      (server_error UNEXPECTED_ERROR (str e) session_id) st1.

Definition add_chunk_processed (md : Metadata) : Metadata :=
  {| client_ip := client_ip md; user_agent := user_agent md;
     language_pair := language_pair md; connected_at := connected_at md;
     last_activity := last_activity md; message_count := message_count md;
     chunks_processed := chunks_processed md + 1;
     last_acknowledged_seq := last_acknowledged_seq md |}.

(** The keywords of the call of [translate_audio] at lines 372-378. *)
Definition translate_audio_keywords : list string :=
  ["audio_data"; "source_language"; "target_language"; "session_id"; "sequence_id"].

(** Lines 396-405: the statistics after a transcript was sent. *)
Definition record_success (processing_time : Q) (st : State P) : Result (State P) :=
  let s := connection_stats st in
  let total := total_translations s + 1 in
  if Z.eqb total 0 then Raise (ZeroDivisionError "float division by zero")
  else
    let st1 :=
      set_stats
        (fun s => {| total_connections := total_connections s;
                     active_connections := active_connections s;
                     total_translations := total;
                     successful_translations := successful_translations s + 1;
                     failed_translations := failed_translations s;
                     avg_processing_time :=
                       ((avg_processing_time s * inject_Z (total - 1) + processing_time)
                        / inject_Z total)%Q;
                     backpressure_events := backpressure_events s |}) st in
    (n <- get_backpressure_events (translation_processor st1) ;;
     Ok (set_stats
           (fun s => {| total_connections := total_connections s;
                        active_connections := active_connections s;
                        total_translations := total_translations s;
                        successful_translations := successful_translations s;
                        failed_translations := failed_translations s;
                        avg_processing_time := avg_processing_time s;
                        backpressure_events := n |}) st1))%py.

(** The state in which [record_success] raised: the counters written before
    the failing statement stay written. *)
Definition record_success_partial (processing_time : Q) (st : State P) : State P :=
  let total := total_translations (connection_stats st) + 1 in
  if Z.eqb total 0 then
    set_stats
      (fun s => {| total_connections := total_connections s;
                   active_connections := active_connections s;
                   total_translations := total;
                   successful_translations := successful_translations s + 1;
                   failed_translations := failed_translations s;
                   avg_processing_time := avg_processing_time s;
                   backpressure_events := backpressure_events s |}) st
  else
    set_stats
      (fun s => {| total_connections := total_connections s;
                   active_connections := active_connections s;
                   total_translations := total;
                   successful_translations := successful_translations s + 1;
                   failed_translations := failed_translations s;
                   avg_processing_time :=
                     ((avg_processing_time s * inject_Z (total - 1) + processing_time)
                      / inject_Z total)%Q;
                   backpressure_events := backpressure_events s |}) st.

(** [process_audio_chunk] *)
Definition process_audio_chunk (session_id : string) (message : InboundMessage)
    (st : State P) : State P :=
  let audio_chunk := in_audio_chunk message in
  let chunk_index := default 0 (in_chunk_index message) in
  let sequence_id := in_sequence_id message in
  let language_pair := default (None, None) (in_language_pair message) in
  match audio_chunk with
  | None | Some EmptyString =>
      chunk_failed session_id (ValueError "Audio chunk data is required") st
  | Some audio =>
      (* acknowledgment of the received chunk *)
      let st1 := match sequence_id with
                 | Some n => send_acknowledgment session_id n st
                 | None => st
                 end in
      let st2 := set_metadata (alter add_chunk_processed session_id) st1 in
      (* translation *)
      let start_time := clock st2 in
      let st3 := emit (Dispatched session_id sequence_id) st2 in
      let '(r, p, now) :=
        call_translate_audio (translation_processor st3) translate_audio_keywords
          audio (default "en" (fst language_pair)) (default "hi" (snd language_pair))
          session_id (clock st3) in
      let st4 := set_processor p now st3 in
      match r with
      | Raise e => chunk_failed session_id e st4
      | Ok translation_result =>
          let processing_time := ((clock st4 - start_time) # 1000)%Q in
          let response_message :=
            MTranscript session_id (is_final translation_result) chunk_index
              sequence_id (text translation_result) (confidence translation_result)
              processing_time (timestamp_ms st4) in
          let st5 := send_message session_id response_message st4 in
          match record_success processing_time st5 with
          | Ok st6 => st6
          | Raise e => chunk_failed session_id e (record_success_partial processing_time st5)
          end
      end
  end.

(** [process_audio_chunk] in two parts, to reason about it:
    the state in which [translate_audio] is called (lines 361-370), *)
Definition at_dispatch (session_id : string) (sequence_id : option Z)
    (st : State P) : State P :=
  emit (Dispatched session_id sequence_id)
    (set_metadata (alter add_chunk_processed session_id)
       match sequence_id with
       | Some n => send_acknowledgment session_id n st
       | None => st
       end).

(** and what is done with the outcome of the call (lines 380-429). *)
Definition after_dispatch (session_id : string) (message : InboundMessage)
    (start_time : Z) (r : Result TranslationResult) (st4 : State P) : State P :=
  match r with
  | Raise e => chunk_failed session_id e st4
  | Ok translation_result =>
      let processing_time := ((clock st4 - start_time) # 1000)%Q in
      let st5 :=
        send_message session_id
          (MTranscript session_id (is_final translation_result)
             (default 0 (in_chunk_index message)) (in_sequence_id message)
             (text translation_result) (confidence translation_result)
             processing_time (timestamp_ms st4)) st4 in
      match record_success processing_time st5 with
      | Ok st6 => st6
      | Raise e => chunk_failed session_id e (record_success_partial processing_time st5)
      end
  end.

(** [process_websocket_message].  Its last [except] clause answers the
    exceptions of the validation; [process_audio_chunk] lets none escape. *)
Definition process_websocket_message (session_id : string) (data : Data)
    (st : State P) : State P :=
  match data with
  | BadJson =>
      send_error_message session_id
        (server_error JSON_PARSE_ERROR "Invalid JSON format" session_id) st
  | Parsed message =>
      if negb (validate_inbound_message message) then
        send_error_message session_id
          (server_error INVALID_MESSAGE_FORMAT "Message format is invalid" session_id) st
      else
        let message_type := default "audio_chunk" (in_message_type message) in
        if String.eqb message_type "audio_chunk" then
          process_audio_chunk session_id message st
        else st
  | Untyped e =>
      send_error_message session_id
        (server_error PROCESSING_ERROR (str e) session_id) st
  end.

(** *** websocket_endpoint *)

(** Lines 213-247: the handshake, up to the welcome message.  The result
    tells whether the message loop is entered. *)
Definition endpoint_open (websocket : WebSocket) (session_id : string)
    (ip agent lang : string) (st : State P) : State P * bool :=
  if negb (uuid_ok session_id) then
    (emit (Closed websocket 4000 "Invalid session ID format") st, false)
  else
    let st1 := connect websocket session_id ip agent lang st in
    let st2 :=
      set_sessions
        (fun m => <[session_id :=
                      {| si_session_id := session_id; si_language_pair := lang;
                         si_created_at := clock st1; si_last_activity := clock st1;
                         si_message_count := 0; si_chunks_processed := 0;
                         si_last_acknowledged_seq := 0 |}]> m) st1 in
    (send_message session_id (MConnected session_id (timestamp_ms st2)) st2, true).

Definition touch_session (now : Z) (s : SessionInfo) : SessionInfo :=
  {| si_session_id := si_session_id s; si_language_pair := si_language_pair s;
     si_created_at := si_created_at s; si_last_activity := now;
     si_message_count := si_message_count s;
     si_chunks_processed := si_chunks_processed s;
     si_last_acknowledged_seq := si_last_acknowledged_seq s |}.

(** One iteration of [while True] (lines 250-283); [true] when the loop goes
    on, [false] after [break]. *)
Definition loop_iteration (session_id : string) (inbound : Inbound)
    (st : State P) : State P * bool :=
  match inbound with
  | Recv data =>
      let st1 := set_sessions (alter (touch_session (clock st)) session_id) st in
      (process_websocket_message session_id data st1, true)
  | WaitTimeout =>
      (send_message session_id (MKeepalive session_id (timestamp_ms st)) st, true)
  | Disconnect => (st, false)
  | RecvError e =>
      (send_error_message session_id
         (server_error PROCESSING_ERROR (str e) session_id) st, false)
  end.

(** The [finally] clause (lines 294-298). *)
Definition endpoint_cleanup (session_id : string) (st : State P) : State P :=
  set_sessions (delete session_id) (disconnect session_id st).

(** The message loop on the inbound units that arrive, each after a wait of
    so many microseconds.  The second component tells whether the loop was
    left, in which case the cleanup has run; [units] counts the iterations
    that were executed. *)
Fixpoint message_loop (session_id : string) (arrivals : list (Z * Inbound))
    (st : State P) : State P * bool * nat :=
  match arrivals with
  | [] => (st, false, O)
  | (wait, inbound) :: rest =>
      match loop_iteration session_id inbound (elapse wait st) with
      | (st1, true) =>
          let '(st2, finished, units) := message_loop session_id rest st1 in
          (st2, finished, S units)
      | (st1, false) => (endpoint_cleanup session_id st1, true, 1%nat)
      end
  end.

(** [websocket_endpoint]: handshake, then the loop. *)
Definition websocket_endpoint (websocket : WebSocket) (session_id : string)
    (ip agent lang : string) (arrivals : list (Z * Inbound)) (st : State P)
    : State P :=
  match endpoint_open websocket session_id ip agent lang st with
  | (st1, false) => st1
  | (st1, true) => (message_loop session_id arrivals st1).1.1
  end.

(** *** session_cleanup_task *)

(** The ids collected by the first loop of one pass (lines 481-487). *)
Definition inactive_sessions (st : State P) : list string :=
  let current_time := clock st in
  omap (fun '(session_id, session_info) =>
          if Z.ltb 300 (timedelta_seconds (current_time - si_last_activity session_info))
          then Some session_id else None)
       (map_to_list (active_sessions st)).

(** One pass of [session_cleanup_task] (lines 481-494), between two sleeps
    of 60 seconds. *)
Definition session_cleanup_pass (st : State P) : State P :=
  foldl (fun st session_id =>
           set_sessions (delete session_id) (disconnect session_id st))
        st (inactive_sessions st).

End Server.

(** *** The processor objects *)

(** The processor that main.py creates at start-up: a
    [SeamlessM4TProcessor] together with the libraries and the engine it
    talks to. *)
Record Deployed : Type := {
  lib : TranslationProcessor.Lib;
  processor : TranslationProcessor.SeamlessM4TProcessor;
  world : TranslationProcessor.World
}.

Definition at_time (now : Z) (w : TranslationProcessor.World) : TranslationProcessor.World :=
  {| TranslationProcessor.engine := TranslationProcessor.engine w;
     TranslationProcessor.net_calls := TranslationProcessor.net_calls w;
     TranslationProcessor.sleeps := TranslationProcessor.sleeps w;
     TranslationProcessor.now := now |}.

#[export] Instance Deployed_Processor : Processor Deployed := {
  call_translate_audio d keywords audio_data source target session_id now :=
    let '(r, p, w) :=
      TranslationProcessor.call_translate_audio (lib d) (processor d) keywords
        audio_data source target session_id (at_time now (world d)) in
    (r, {| lib := lib d; processor := p; world := w |}, TranslationProcessor.now w);
  (* [SeamlessM4TProcessor] defines no attribute [backpressure_events] *)
  get_backpressure_events _ :=
    Raise (AttributeError
             "'SeamlessM4TProcessor' object has no attribute 'backpressure_events'")
}.

(** A stand-in processor object, as a test would bind to
    [translation_processor]: its [translate_audio] accepts the keywords of
    main.py, takes [took] microseconds and always has the same outcome. *)
Record Fixed : Type := {
  outcome : Result TranslationResult;
  took : Z;
  backpressure : Z
}.

#[export] Instance Fixed_Processor : Processor Fixed := {
  call_translate_audio d _ _ _ _ _ now := (outcome d, d, now + took d);
  get_backpressure_events d := Ok (backpressure d)
}.

(** The globals of main.py when the first connection arrives. *)
Definition initial_state {P} (p : P) (now : Z) : State P :=
  {| manager_active_connections := ∅;
     manager_session_metadata := ∅;
     active_sessions := ∅;
     connection_stats := ConnectionStats_default;
     translation_processor := p;
     clock := now; broken := ∅; trace := [] |}.

(** The stored last-acknowledged sequence number of a session. *)
Definition last_ack {P} (st : State P) (session_id : string) : option Z :=
  last_acknowledged_seq <$> manager_session_metadata st !! session_id.

(** *** Start-up *)

(** The start-up half of [lifespan] (lines 63-73): [env_key] is
    [os.getenv("HUGGINGFACE_API_KEY")], [get] the outcome of the connectivity
    test.  The result is the processor bound to [translation_processor]. *)
Definition lifespan_startup (env_key : option string) (get : Result Z)
    : Result TranslationProcessor.SeamlessM4TProcessor :=
  let translation_processor := TranslationProcessor.init in
  match env_key with
  | None | Some EmptyString =>
      Raise (ModelLoadError "HUGGINGFACE_API_KEY environment variable not set")
  | Some api_key =>
      match TranslationProcessor.initialize translation_processor api_key get with
      | (Ok _, p) => Ok p
      | (Raise e, _) => Raise e
      end
  end.

(** *** The server as a whole *)

(** What can happen next in the process: a connection is accepted, the
    connection of a session gets through one iteration of its loop (running
    the cleanup when it leaves the loop), the cleanup task makes a pass, time
    passes, or a peer goes away. *)
Inductive Action : Type :=
| Accept (websocket : WebSocket) (session_id : string) (ip agent lang : string)
| Iterate (session_id : string) (inbound : Inbound)
| CleanupPass
| Elapse (dt : Z)
| PeerGone (websocket : WebSocket).

Definition step {P} `{Processor P} (st : State P) (a : Action) : State P :=
  match a with
  | Accept websocket session_id ip agent lang =>
      (endpoint_open websocket session_id ip agent lang st).1
  | Iterate session_id inbound =>
      match loop_iteration session_id inbound st with
      | (st1, true) => st1
      | (st1, false) => endpoint_cleanup session_id st1
      end
  | CleanupPass => session_cleanup_pass st
  | Elapse dt => elapse dt st
  | PeerGone websocket => break_socket websocket st
  end.

Definition run {P} `{Processor P} (actions : list Action) (st : State P) : State P :=
  foldl step st actions.

(** [process_audio_chunk] with its suspension written out.  The call of
    [translate_audio] at line 372 is awaited; until it returns, the loops of
    the other connections, the cleanup task and the transport go on
    ([others]), and the handler resumes in the state they leave, with the
    clock at the time the call returns.  With no other activity this is
    [process_audio_chunk]. *)
Definition process_audio_chunk_awaiting {P} `{Processor P} (session_id : string)
    (message : InboundMessage) (others : list Action) (st : State P) : State P :=
  let language_pair := default (None, None) (in_language_pair message) in
  match in_audio_chunk message with
  | None | Some EmptyString =>
      chunk_failed session_id (ValueError "Audio chunk data is required") st
  | Some audio =>
      let st3 := at_dispatch session_id (in_sequence_id message) st in
      let '(r, p, now) :=
        call_translate_audio (translation_processor st3) translate_audio_keywords
          audio (default "en" (fst language_pair)) (default "hi" (snd language_pair))
          session_id (clock st3) in
      let resumed := run others (set_processor p (clock st3) st3) in
      after_dispatch session_id message (clock st3) r
        (set_processor (translation_processor resumed) now resumed)
  end.

(** A processor object with everything scripted: the outcome of
    [translate_audio], the time it takes, and what reading the attribute
    [backpressure_events] gives. *)
Record Scripted : Type := {
  scripted_outcome : Result TranslationResult;
  scripted_took : Z;
  scripted_backpressure : Result Z
}.

#[export] Instance Scripted_Processor : Processor Scripted := {
  call_translate_audio d _ _ _ _ _ now := (scripted_outcome d, d, now + scripted_took d);
  get_backpressure_events d := scripted_backpressure d
}.

End Main.

(** * Scenarios *)

Module Scenario.

Import Models TranslationProcessor Main.

(** [base64.b64decode]: characters outside the alphabet are discarded, and
    text whose length is not a multiple of four raises [binascii.Error], a
    [ValueError]. *)
Definition b64_value (c : ascii) : option Z :=
  let n := Z.of_nat (nat_of_ascii c) in
  if Z.leb 65 n && Z.leb n 90 then Some (n - 65)
  else if Z.leb 97 n && Z.leb n 122 then Some (n - 71)
  else if Z.leb 48 n && Z.leb n 57 then Some (n + 4)
  else if Z.eqb n 43 then Some 62
  else if Z.eqb n 47 then Some 63
  else None.

Fixpoint b64_groups (fuel : nat) (v : list Z) : bytes :=
  match fuel with
  | O => []
  | S fuel' =>
      match v with
      | a :: b :: c :: d :: rest =>
          let n := a * 262144 + b * 4096 + c * 64 + d in
          byte_of_Z (n / 65536) :: byte_of_Z (n / 256) :: byte_of_Z n
          :: b64_groups fuel' rest
      | [a; b; c] =>
          let n := a * 262144 + b * 4096 + c * 64 in
          [byte_of_Z (n / 65536); byte_of_Z (n / 256)]
      | [a; b] => [byte_of_Z ((a * 262144 + b * 4096) / 65536)]
      | _ => []
      end
  end.

Definition base64_b64decode (s : string) : Result bytes :=
  let cs := list_ascii_of_string s in
  let v := omap b64_value cs in
  let pad := length (List.filter (fun c => Ascii.eqb c "=")%char cs) in
  if Nat.eqb ((length v + pad) mod 4) 0 && negb (Nat.eqb (length v mod 4) 1)
  then Ok (b64_groups (length v) v)
  else Raise (ValueError "Incorrect padding").

(** [scipy.signal.butter] designs a digital filter only when every critical
    frequency, as a fraction of the Nyquist frequency, lies strictly between
    0 and 1; otherwise it raises [ValueError]. *)
Definition butter_accepts (Wn : list Q) : bool :=
  forallb (fun w => Qgtb w 0 && Qgtb 1 w) Wn.

(** The critical frequencies that the processor passes to [butter], from the
    attributes set in [__init__]: [sample_rate] 16000, [bandpass_low_freq]
    80 and [bandpass_high_freq] 8000.  The upper edge of the band is the
    Nyquist frequency itself. *)
Definition nyquist : Q := 16000 / 2.
Definition noise_suppression_Wn : list Q := [80 / nyquist]%Q.
Definition bandpass_Wn : list Q := [80 / nyquist; 8000 / nyquist]%Q.

(** [scipy.signal.filtfilt] on a signal no longer than its padding raises
    [ValueError]; a silent signal is a fixed point of every linear filter.
    This stand-in is exact on these two kinds of input.  On any other signal
    it returns the input where the filter returns a filtered signal of the
    same length; no statement below depends on the values of such a
    result. *)
Definition filtfilt_standin (padlen : nat) (x : list Q) : Result (list Q) :=
  if Nat.leb (length x) padlen then
    Raise (ValueError
             ("The length of the input vector x must be greater than padlen, which is "
              ++ pretty (Z.of_nat padlen) ++ "."))
  else Ok x.

(** [butter(order, Wn, ...)] followed by [filtfilt]; [padlen] is three times
    the number of coefficients of the designed filter. *)
Definition butter_filtfilt (Wn : list Q) (padlen : nat) (x : list Q)
    : Result (list Q) :=
  if butter_accepts Wn then filtfilt_standin padlen x
  else Raise (ValueError "Digital filter critical frequencies must be 0 < Wn < 1").

(** [np.sqrt] of a non-negative number, rounded down to six decimals. *)
Definition sqrt_standin (q : Q) : Q :=
  Z.sqrt (Qnum q * Z.pos (Qden q) * 1000000000000) # (Qden q * 1000000).

(** Stand-ins for the library routines. *)
Definition standin_lib : Lib :=
  {| b64decode := base64_b64decode;
     b64encode := fun b => string_of_list_ascii (map ascii_of_byte b);
     highpass_filtfilt := butter_filtfilt noise_suppression_Wn 6;
     bandpass_filtfilt := butter_filtfilt bandpass_Wn 15;
     np_sqrt := sqrt_standin |}.

(** An engine that fails every request with a transport error. *)
Definition engine_down : nat -> Attempt :=
  fun _ => {| latency := 1000; response := Failed (ClientError "connection refused") |}.

(** An engine that answers every request with translated audio. *)
Definition engine_up : nat -> Attempt :=
  fun _ => {| latency := 1000; response := TranslationProcessor.Json (Some "AAAA") |}.

Definition world0 (e : nat -> Attempt) : World :=
  {| engine := e; net_calls := 0; sleeps := []; now := 0 |}.

(** The processor after a successful [initialize]. *)
Definition loaded : SeamlessM4TProcessor :=
  {| api_key := Some "key"; is_loaded := true;
     enable_noise_suppression := true; enable_agc := true;
     enable_bandpass_filter := true;
     total_processed := 0; processing_times := [] |}.

(** The same processor after a caller switched the band-pass stage off, and
    after it switched off both filters. *)
Definition band_pass_off : SeamlessM4TProcessor :=
  {| api_key := Some "key"; is_loaded := true;
     enable_noise_suppression := true; enable_agc := true;
     enable_bandpass_filter := false;
     total_processed := 0; processing_times := [] |}.

Definition agc_only : SeamlessM4TProcessor :=
  {| api_key := Some "key"; is_loaded := true;
     enable_noise_suppression := false; enable_agc := true;
     enable_bandpass_filter := false;
     total_processed := 0; processing_times := [] |}.

Definition deployed (e : nat -> Attempt) : Deployed :=
  {| lib := standin_lib; processor := loaded; world := world0 e |}.

Definition S1 : string := "123e4567-e89b-12d3-a456-426614174000".

(** 48 bytes of 16-bit PCM silence, base64-encoded. *)
Definition silence : string :=
  "AAAAAAAAAAAAAAAAAAAAAAAAAAAAAAAAAAAAAAAAAAAAAAAAAAAAAAAAAAAAAAAA".

(** An audio chunk of session [S1]. *)
Definition chunk (seq : Z) : InboundMessage :=
  {| in_session_id := Some S1; in_audio_chunk := Some silence;
     in_chunk_index := Some 0; in_sequence_id := Some seq;
     in_language_pair := Some (Some "en", Some "hi");
     in_message_type := None |}.

(** A processor object whose [translate_audio] raises [ProcessorError]. *)
Definition failing : Fixed :=
  {| outcome := Raise (ProcessorError "Translation failed after 3 attempts: connection refused");
     took := 3000000; backpressure := 0 |}.

(** A processor object whose [translate_audio] returns a final result. *)
Definition succeeding : Fixed :=
  {| outcome := Ok {| text := "Translated speech (48 bytes)"; is_final := true;
                      confidence := (85 # 100)%Q; source_language := "en";
                      target_language := "hi"; processing_time_ms := 120%Q |};
     took := 120000; backpressure := 0 |}.

(** An engine that answers every request with HTTP status 400. *)
Definition engine_rejecting : nat -> Attempt :=
  fun _ => {| latency := 1000; response := NotOk 400 "bad request" |}.

(** A processor object that translates but, like [SeamlessM4TProcessor], has
    no attribute [backpressure_events]. *)
Definition without_backpressure : Scripted :=
  {| scripted_outcome :=
       Ok {| text := "Translated speech (48 bytes)"; is_final := true;
             confidence := (85 # 100)%Q; source_language := "en";
             target_language := "hi"; processing_time_ms := 120%Q |};
     scripted_took := 120000;
     scripted_backpressure :=
       Raise (AttributeError
                "'SeamlessM4TProcessor' object has no attribute 'backpressure_events'") |}.

(** 40 bytes of 16-bit PCM: twenty samples, the first two 1000 and -2000. *)
Definition tone : bytes :=
  ([Byte.xe8; Byte.x03; Byte.x30; Byte.xf8] ++ repeat Byte.x00 36)%list.

End Scenario.

(** * Vocabulary of the properties *)

Module Vocabulary.

Import Models TranslationProcessor Main.

(** Every sample has magnitude at most [bound]. *)
Definition magnitude_within (bound : Q) (audio : list Q) : Prop :=
  Forall (fun x => Qabs x <= bound)%Q audio.

(** The exception raised at line 182 of translation_processor.py. *)
Definition unsupported_language_error (source target : string) : exn :=
  ProcessorError ("Unsupported language pair: " ++ source ++ " -> " ++ target).

(** The exception raised at line 178 of translation_processor.py. *)
Definition not_initialized_error : exn :=
  ProcessorError "SeamlessM4T processor not initialized".

(** Every event of [evs] is a message delivered on the socket that [st]
    registers for the session, a working one. *)
Definition delivered_on {P} (session_id : string) (st : State P) (evs : list Event) : Prop :=
  Forall (fun ev => exists ws m, ev = Sent ws m /\
                    manager_active_connections st !! session_id = Some ws /\
                    (ws ∉ broken st)) evs.

(** From [st] to [st'] the server only delivered messages to the session,
    and the session is registered as before unless it is unregistered. *)
Definition sends_from {P} (session_id : string) (st st' : State P) : Prop :=
  broken st' = broken st /\
  (exists evs, trace st' = (trace st ++ evs)%list /\ delivered_on session_id st evs) /\
  (manager_active_connections st' = manager_active_connections st \/
   manager_active_connections st' !! session_id = None).

(** No stored sequence number of [st'] is new with respect to [st]. *)
Definition keeps_acks {P} (st st' : State P) : Prop :=
  forall s v, last_ack st' s = Some v -> last_ack st s = Some v.

(** Reduces the projections of a state built by the update functions. *)
Ltac state_simpl :=
  cbn [manager_active_connections manager_session_metadata active_sessions
       connection_stats translation_processor clock broken trace
       set_connections set_metadata set_sessions set_stats set_processor
       emit elapse timestamp_ms].

(** The tables of the server agree: the manager has a socket exactly for
    the sessions it has metadata for, each of them has a [SessionInfo], and
    the counter of active connections is the number of registered sockets. *)
Definition registry_consistent {P} (st : State P) : Prop :=
  dom (manager_active_connections st) = dom (manager_session_metadata st) /\
  dom (manager_active_connections st) ⊆ dom (active_sessions st) /\
  active_connections (connection_stats st)
  = Z.of_nat (size (manager_active_connections st)).

(** The translation counters: every counted translation is counted as
    successful. *)
Definition counters_consistent {P} (st : State P) : Prop :=
  total_translations (connection_stats st)
  = successful_translations (connection_stats st) /\
  0 <= total_translations (connection_stats st) /\
  0 <= failed_translations (connection_stats st).

(** The samples of a sequence of 16-bit values all have magnitude at most
    [bound]. *)
Definition samples_within (bound : Z) (ks : list Z) : Prop :=
  Forall (fun k => Z.abs k <= bound) ks.

(** The inbound events that end the message loop. *)
Definition is_exit (inbound : Inbound) : bool :=
  match inbound with
  | Disconnect | RecvError _ => true
  | Recv _ | WaitTimeout => false
  end.

(** The error with which an inbound unit is rejected before it is looked at
    as an audio chunk, if it is. *)
Definition rejection (data : Data) : option (ErrorCode * string) :=
  match data with
  | BadJson => Some (JSON_PARSE_ERROR, "Invalid JSON format")
  | Parsed message =>
      if validate_inbound_message message then None
      else Some (INVALID_MESSAGE_FORMAT, "Message format is invalid")
  | Untyped e => Some (PROCESSING_ERROR, str e)
  end.

(** The same inbound unit with another value of ["session_id"]. *)
Definition with_session_id (session_id : string) (message : InboundMessage)
    : InboundMessage :=
  {| in_session_id := Some session_id;
     in_audio_chunk := in_audio_chunk message;
     in_chunk_index := in_chunk_index message;
     in_sequence_id := in_sequence_id message;
     in_language_pair := in_language_pair message;
     in_message_type := in_message_type message |}.

(** The events of [st] are those of [t0] followed by further ones. *)
Definition extends {P} (t0 : list Event) (st : State P) : Prop :=
  exists evs, trace st = (t0 ++ evs)%list.

(** The session has no working socket: it is not registered, or the socket
    it is registered on fails. *)
Definition unreachable {P} (session_id : string) (st : State P) : Prop :=
  forall ws, manager_active_connections st !! session_id = Some ws -> ws ∈ broken st.

(** The code of the error message that answers a failed chunk. *)
Definition failure_code (e : exn) : ErrorCode :=
  if is_ProcessorError e then TRANSLATION_ERROR else UNEXPECTED_ERROR.

(** The event is the delivery of an ack. *)
Definition is_ack (ev : Event) : bool :=
  match ev with
  | Sent _ (MAck _ _ _) => true
  | _ => false
  end.

End Vocabulary.

(** * Properties *)

Import Models TranslationProcessor Main Scenario Vocabulary.

(** ** Aggregate statistics (models.py) *)

(** On a zero divisor, true division raises: the guard of
    [get_success_rate] is what keeps it from doing so. *)
Lemma truediv_by_zero (a : Z) :
  truediv a 0 = Raise (ZeroDivisionError "division by zero").
Proof. reflexivity. Qed.

(** C10.  [get_success_rate] never raises: with no translation counted it
    returns 0.0, and otherwise the ratio of successful to total translations
    times 100. *)
Theorem get_success_rate_total (s : ConnectionStats) :
  get_success_rate s =
    Ok (if Z.eqb (total_translations s) 0 then 0%Q
        else (inject_Z (successful_translations s)
              / inject_Z (total_translations s) * 100)%Q).
Proof.
  unfold get_success_rate, truediv.
  destruct (Z.eqb (total_translations s) 0) eqn:E; reflexivity.
Qed.

Example success_rate_three_of_four :
  get_success_rate
    {| total_connections := 1; active_connections := 1; total_translations := 4;
       successful_translations := 3; failed_translations := 1;
       avg_processing_time := 120%Q; backpressure_events := 0 |}
  = Ok (300 # 4)%Q.
Proof. reflexivity. Qed.

Example success_rate_of_nothing :
  get_success_rate ConnectionStats_default = Ok 0%Q.
Proof. reflexivity. Qed.

(** ** The safety pass on engine output *)

Section PeakSafety.

Local Open Scope Q_scope.

(** The running maximum dominates its start value and every element, and is
    one of them. *)
Lemma running_max_spec (rest : list Q) (m0 : Q) :
  let p := fold_left (fun m y => Qmax m (Qabs y)) rest m0 in
  m0 <= p /\ magnitude_within p rest /\
  (p == m0 \/ Exists (fun y => Qabs y == p) rest).
Proof.
  revert m0. induction rest as [|y rest IH]; intros m0; cbn.
  - split; [apply Qle_refl|]. split; [constructor|]. left. reflexivity.
  - destruct (IH (Qmax m0 (Qabs y))) as (Hle & Hall & Hatt).
    split; [eapply Qle_trans; [apply Q.le_max_l|exact Hle]|].
    split.
    + constructor; [eapply Qle_trans; [apply Q.le_max_r|exact Hle]|exact Hall].
    + destruct Hatt as [Heq|Hex].
      * destruct (Q.max_spec m0 (Qabs y)) as [[_ Hm]|[_ Hm]].
        -- right. constructor. rewrite Heq, Hm. reflexivity.
        -- left. rewrite Heq, Hm. reflexivity.
      * right. apply Exists_cons_tl. exact Hex.
Qed.

Lemma np_max_abs_spec (audio : list Q) (p : Q) :
  np_max_abs audio = Ok p ->
  magnitude_within p audio /\ Exists (fun y => Qabs y == p) audio.
Proof.
  destruct audio as [|x rest]; cbn; [discriminate|].
  intros [= <-].
  destruct (running_max_spec rest (Qabs x)) as (Hle & Hall & Hatt).
  split; [constructor; assumption|].
  destruct Hatt as [Heq|Hex].
  - constructor. symmetry. exact Heq.
  - apply Exists_cons_tl. exact Hex.
Qed.

Lemma np_max_abs_nonempty (audio : list Q) :
  audio <> [] -> exists p, np_max_abs audio = Ok p.
Proof. destruct audio; [congruence|]. intros _. eexists. reflexivity. Qed.

Lemma Qgtb_true (a b : Q) : Qgtb a b = true <-> b < a.
Proof.
  unfold Qgtb. rewrite negb_true_iff. split.
  - intros E. apply Qnot_le_lt. intros Hle.
    apply Qle_bool_iff in Hle. congruence.
  - intros Hlt. destruct (Qle_bool a b) eqn:E; [|reflexivity].
    apply Qle_bool_iff in E. exfalso. eapply Qlt_not_le; eassumption.
Qed.

Lemma Qgtb_false (a b : Q) : Qgtb a b = false <-> a <= b.
Proof.
  unfold Qgtb. rewrite negb_false_iff. apply Qle_bool_iff.
Qed.

(** Scaling by [bound / p] brings every sample of magnitude at most [p]
    within [bound]. *)
Lemma scaled_within (bound p x : Q) :
  0 <= bound -> 0 < p -> Qabs x <= p -> Qabs (x * (bound / p)) <= bound.
Proof.
  intros Hb Hp Hx.
  rewrite Qabs_Qmult.
  rewrite (Qabs_pos (bound / p)).
  2:{ apply Qle_shift_div_l; [exact Hp|]. rewrite Qmult_0_l. exact Hb. }
  unfold Qdiv. rewrite Qmult_assoc.
  apply Qle_shift_div_r; [exact Hp|].
  rewrite (Qmult_comm bound p).
  apply Qmult_le_compat_r; assumption.
Qed.

Lemma magnitude_within_peak (bound : Q) (audio : list Q) (p : Q) :
  np_max_abs audio = Ok p -> magnitude_within bound audio -> p <= bound.
Proof.
  intros Hp Hall. apply np_max_abs_spec in Hp as [_ Hex].
  apply Exists_exists in Hex as (y & Hin & Hy).
  unfold magnitude_within in Hall. rewrite Forall_forall in Hall.
  rewrite <- Hy. apply Hall. exact Hin.
Qed.

(** The pass leaves a buffer that is already within the threshold as it is. *)
Lemma safety_pass_fixes_safe (audio : list Q) :
  magnitude_within (95 # 100) audio ->
  _apply_peak_safety_normalization audio = Ok audio.
Proof.
  intros Hall. unfold _apply_peak_safety_normalization.
  destruct audio as [|x rest]; [reflexivity|].
  change (Nat.eqb (length (x :: rest)) 0) with false. cbv iota.
  destruct (np_max_abs_nonempty (x :: rest)) as [p Hp]; [discriminate|].
  rewrite Hp. cbn [bind].
  pose proof (magnitude_within_peak _ _ _ Hp Hall) as Hle.
  apply Qgtb_false in Hle. rewrite Hle. reflexivity.
Qed.

(** The pass never raises, and its output is within the threshold. *)
Lemma safety_pass_within (audio : list Q) :
  exists out, _apply_peak_safety_normalization audio = Ok out /\
              magnitude_within (95 # 100) out.
Proof.
  unfold _apply_peak_safety_normalization.
  destruct audio as [|x rest]; [exists []; split; [reflexivity|constructor]|].
  change (Nat.eqb (length (x :: rest)) 0) with false. cbv iota.
  destruct (np_max_abs_nonempty (x :: rest)) as [p Hp]; [discriminate|].
  rewrite Hp. cbn [bind].
  apply np_max_abs_spec in Hp as [Hall _].
  destruct (Qgtb p (95 # 100)) eqn:E.
  - apply Qgtb_true in E. eexists. split; [reflexivity|].
    unfold magnitude_within in *. rewrite Forall_forall in *.
    intros y Hy. apply list_elem_of_In, in_map_iff in Hy as (x0 & <- & Hx0).
    apply scaled_within; [discriminate| |apply Hall, list_elem_of_In; exact Hx0].
    eapply Qlt_trans; [|exact E]. reflexivity.
  - apply Qgtb_false in E. eexists. split; [reflexivity|].
    unfold magnitude_within in *. rewrite Forall_forall in *.
    intros y Hy. eapply Qle_trans; [apply Hall; exact Hy|exact E].
Qed.

End PeakSafety.

(** The helper [_apply_peak_safety_normalization] on sample arrays: a buffer
    that peaks at full scale is scaled to peak at 0.95; a quiet one is
    returned as it is. *)
Example safety_pass_scales_loud_buffer :
  _apply_peak_safety_normalization [1; - (1 # 2)]%Q
  = Ok [95 # 100; - (95 # 200)]%Q.
Proof. vm_compute. reflexivity. Qed.

Example safety_pass_keeps_quiet_buffer :
  _apply_peak_safety_normalization [1 # 2; - (3 # 4)]%Q
  = Ok [1 # 2; - (3 # 4)]%Q.
Proof. vm_compute. reflexivity. Qed.

(** The byte-level wrapper [_postprocess_audio] is a different function: it
    converts with [/ 32768] on the way in and [* 32767] on the way out, and
    the truncation of [astype(np.int16)] lowers a quiet sample by one step
    (1000 becomes 999). *)
Lemma postprocess_audio_lowers_quiet_sample :
  frombuffer_int16 [Byte.xe8; Byte.x03] = Ok [1000] /\
  frombuffer_int16 (_postprocess_audio [Byte.xe8; Byte.x03]) = Ok [999].
Proof. vm_compute. split; reflexivity. Qed.

(** C9.  The safety pass on a PCM buffer is [_postprocess_audio] (line 198
    applies it to the engine output).  On the buffer of the single sample
    1000, whose peak 1000/32768 is far below 0.95, the helper returns the
    samples as they are, as its comment says, but the pass returns the
    sample 999, and applied to its own output it returns 998: the buffer is
    not returned unchanged and the pass is not idempotent.  The samples are
    divided by 32768 on the way in and multiplied by 32767 on the way out,
    and [astype(np.int16)] truncates. *)
Theorem postprocess_audio_changes_quiet_buffer :
  let buffer := [Byte.xe8; Byte.x03] in
  frombuffer_int16 buffer = Ok [1000] /\
  _apply_peak_safety_normalization (map to_float [1000]) = Ok (map to_float [1000]) /\
  frombuffer_int16 (_postprocess_audio buffer) = Ok [999] /\
  frombuffer_int16 (_postprocess_audio (_postprocess_audio buffer)) = Ok [998] /\
  _postprocess_audio buffer <> buffer /\
  _postprocess_audio (_postprocess_audio buffer) <> _postprocess_audio buffer.
Proof.
  vm_compute. repeat (split; [reflexivity|]). split; discriminate.
Qed.

(** ** The request to the engine (translation_processor.py) *)

(** C5.  [_translate_with_seamless_m4t] sends no request at all, whatever
    the engine would answer: building the payload reads the unbound name
    [false] and raises [NameError] before the retry loop is entered, so
    there is no attempt and no backoff delay. *)
Theorem translate_with_seamless_m4t_sends_nothing
    (lib : Lib) (self : SeamlessM4TProcessor) (audio : bytes)
    (source target : string) (w : World) :
  _translate_with_seamless_m4t lib self audio source target w
  = (Raise (NameError "name 'false' is not defined"), w).
Proof. reflexivity. Qed.

Lemma range_max_retries : range max_retries = [0; 1; 2].
Proof. reflexivity. Qed.

(** The retry loop of lines 343-365 on its own: when the engine fails every
    request with a transport error, it sends three requests, sleeps 1 and
    then 2 seconds between them, and raises after the third failure. *)
Lemma retry_loop_exhausts (lib : Lib) (w : World) (e : exn) :
  (forall n, response (engine w n) = Failed e) ->
  exists w',
    retry_loop lib (range max_retries) w
    = (Raise (ProcessorError ("Translation failed after 3 attempts: " ++ str e)), w')
    /\ net_calls w' = (net_calls w + 3)%nat
    /\ sleeps w' = (2%Q :: 1%Q :: sleeps w).
Proof.
  intros Hdown.
  rewrite range_max_retries.
  cbn [retry_loop]. unfold one_attempt, session_post.
  rewrite Hdown. change (Z.ltb 0 (max_retries - 1)) with true. cbv iota.
  cbn [asyncio_sleep engine net_calls].
  rewrite Hdown. change (Z.ltb 1 (max_retries - 1)) with true. cbv iota.
  cbn [asyncio_sleep engine net_calls].
  rewrite Hdown. change (Z.ltb 2 (max_retries - 1)) with false. cbv iota.
  eexists. split; [reflexivity|]. cbn. split; [lia|reflexivity].
Qed.

(** With the engine of the scenario that refuses every connection. *)
Lemma retry_loop_on_engine_down :
  let '(r, w) := retry_loop standin_lib (range max_retries) (world0 engine_down) in
  r = Raise (ProcessorError "Translation failed after 3 attempts: connection refused")
  /\ net_calls w = 3%nat /\ sleeps w = [2%Q; 1%Q].
Proof. vm_compute. repeat split; reflexivity. Qed.

(** The loop stops at the first request that succeeds. *)
Lemma retry_loop_first_success (lib : Lib) (w : World) (a : string) (b : bytes) :
  response (engine w (net_calls w)) = TranslationProcessor.Json (Some a) ->
  b64decode lib a = Ok b ->
  exists w',
    retry_loop lib (range max_retries) w = (Ok (Some b), w')
    /\ net_calls w' = S (net_calls w) /\ sleeps w' = sleeps w.
Proof.
  intros Hup Hdec.
  rewrite range_max_retries.
  cbn [retry_loop]. unfold one_attempt, session_post.
  rewrite Hup. unfold _parse_seamless_m4t_response. rewrite Hdec. cbn.
  eexists. split; [reflexivity|]. split; reflexivity.
Qed.

(** ** Language support *)

(** C6, as the code has it.  A request whose source or target code is not in
    [language_mapping] fails before anything is decoded or sent: the
    processor and the world (hence the count of requests to the engine) are
    unchanged.  The exception is a [ProcessorError]: the one of line 182 when
    the processor is initialized, the one of line 178 when it is not. *)
Theorem unsupported_language_rejected
    (lib : Lib) (self : SeamlessM4TProcessor)
    (audio_data source target session_id : string) (w : World) :
  in_language_mapping source = false \/ in_language_mapping target = false ->
  translate_audio lib self audio_data source target session_id w
  = (Raise (if is_loaded self then unsupported_language_error source target
            else not_initialized_error), self, w).
Proof.
  intros Hunsupported.
  assert (_is_language_supported source target = false) as Hno.
  { unfold _is_language_supported.
    destruct Hunsupported as [-> | ->]; [reflexivity|].
    destruct (in_language_mapping source); reflexivity. }
  unfold translate_audio, translate_audio_body.
  destruct (is_loaded self); cbn [negb]; [|reflexivity].
  rewrite Hno. reflexivity.
Qed.

Lemma unsupported_language_rejected_witness :
  translate_audio standin_lib loaded silence "xx" "hi" S1 (world0 engine_up)
  = (Raise (unsupported_language_error "xx" "hi"), loaded, world0 engine_up).
Proof.
  apply (unsupported_language_rejected standin_lib loaded silence "xx" "hi" S1
           (world0 engine_up)).
  left. vm_compute. reflexivity.
Defined.

(** C6 as stated fails on a processor that was not initialized: the request
    for the unsupported source ["xx"] is rejected with the error of line 178,
    not with the unsupported-language error. *)
Lemma unsupported_language_on_uninitialized_processor :
  in_language_mapping "xx" = false /\
  (translate_audio standin_lib init silence "xx" "hi" S1 (world0 engine_up)).1.1
  = Raise not_initialized_error /\
  not_initialized_error <> unsupported_language_error "xx" "hi".
Proof.
  split; [vm_compute; reflexivity|].
  split; [reflexivity|]. vm_compute. discriminate.
Qed.

(** ** The audio conditioner *)

(** C8, as the code has it.  When a stage of the pipeline raises,
    [_preprocess_audio] raises [ProcessorError] and returns no buffer, and
    [translate_audio] fails with that error before any request is sent. *)
Theorem preprocess_failure_is_raised
    (lib : Lib) (self : SeamlessM4TProcessor)
    (audio_data source target session_id : string) (w : World)
    (audio_bytes : bytes) (e : exn) :
  is_loaded self = true ->
  _is_language_supported source target = true ->
  b64decode lib audio_data = Ok audio_bytes ->
  preprocess_pipeline lib self audio_bytes = Raise e ->
  let failure := ProcessorError ("Audio preprocessing failed: " ++ str e) in
  _preprocess_audio lib self audio_bytes = Raise failure /\
  translate_audio lib self audio_data source target session_id w
  = (Raise failure, self, w).
Proof.
  intros Hloaded Hlang Hdec Hfail failure.
  assert (_preprocess_audio lib self audio_bytes = Raise failure) as Hpre.
  { unfold _preprocess_audio. rewrite Hfail. reflexivity. }
  split; [exact Hpre|].
  unfold translate_audio, translate_audio_body.
  rewrite Hloaded, Hlang, Hdec, Hpre. reflexivity.
Qed.

Lemma preprocess_failure_is_raised_witness :
  _preprocess_audio standin_lib loaded [Byte.x00]
  = Raise (ProcessorError
             "Audio preprocessing failed: buffer size must be a multiple of element size")
  /\ translate_audio standin_lib loaded "AA==" "en" "hi" S1 (world0 engine_up)
     = (Raise (ProcessorError
                 "Audio preprocessing failed: buffer size must be a multiple of element size"),
        loaded, world0 engine_up).
Proof.
  apply (preprocess_failure_is_raised standin_lib loaded "AA==" "en" "hi" S1
           (world0 engine_up) [Byte.x00]
           (ValueError "buffer size must be a multiple of element size")).
  - reflexivity.
  - vm_compute. reflexivity.
  - vm_compute. reflexivity.
  - vm_compute. reflexivity.
Defined.

(** C8 as stated fails: on a buffer of odd length the conditioner raises. *)
Lemma preprocess_audio_raises_on_odd_buffer :
  _preprocess_audio standin_lib loaded [Byte.x00]
  = Raise (ProcessorError
             "Audio preprocessing failed: buffer size must be a multiple of element size").
Proof. vm_compute. reflexivity. Qed.

(** The decoding of the buffer precedes every stage, so the failure above
    does not depend on the filters. *)
Lemma preprocess_audio_odd_buffer_any_lib (lib : Lib) (self : SeamlessM4TProcessor) (b : byte) :
  exists msg, _preprocess_audio lib self [b] = Raise (ProcessorError msg).
Proof. eexists. reflexivity. Qed.

(** ** The message loop (main.py) *)

(** C1.  A fresh session [S1] sends one valid chunk with [sequence_id] 1,
    16-bit PCM silence and the pair en->hi.  Whatever the libraries, the
    state of the processor and the engine are, the client receives
    [connected], then [ack] 1, and then an [error] with code
    [UNEXPECTED_ERROR] instead of a transcript: the call of
    [translate_audio] passes the keyword [sequence_id], which the method
    does not have, so the call raises [TypeError] before the method runs. *)
Theorem first_chunk_gets_unexpected_error (d : Deployed) :
  trace (websocket_endpoint 7%nat S1 "10.0.0.1" "client" "en-hi"
           [(1000, Recv (Parsed (chunk 1)))] (initial_state d 1000000))
  = [Sent 7%nat (MConnected S1 1000);
     Sent 7%nat (MAck S1 1 1001);
     Dispatched S1 (Some 1);
     Sent 7%nat
       (MError S1 UNEXPECTED_ERROR
          "SeamlessM4TProcessor.translate_audio() got an unexpected keyword argument 'sequence_id'"
          None 1001)].
Proof. destruct d as [l p w]. vm_compute. reflexivity. Qed.

(** The keyword list of main.py never binds to the parameters of
    [translate_audio]. *)
Lemma translate_audio_keywords_do_not_bind :
  bind_keywords "SeamlessM4TProcessor.translate_audio" translate_audio_params
    translate_audio_keywords
  = Raise (TypeError
      "SeamlessM4TProcessor.translate_audio() got an unexpected keyword argument 'sequence_id'").
Proof. vm_compute. reflexivity. Qed.

(** Called with its own parameters, on an initialized processor and the
    same chunk, [translate_audio] still fails and sends nothing to the
    engine: the band-pass stage asks [butter] for a band that ends at the
    Nyquist frequency, which [butter] refuses. *)
Lemma band_pass_edge_is_refused :
  Forall2 Qeq bandpass_Wn [1 # 100; 1]%Q /\
  butter_accepts bandpass_Wn = false /\
  butter_accepts noise_suppression_Wn = true.
Proof.
  split; [|vm_compute; split; reflexivity].
  repeat constructor.
Qed.

Lemma translate_audio_fails_in_the_band_pass :
  translate_audio standin_lib loaded silence "en" "hi" S1 (world0 engine_up)
  = (Raise (ProcessorError
              "Audio preprocessing failed: Digital filter critical frequencies must be 0 < Wn < 1"),
     loaded, world0 engine_up).
Proof. vm_compute. reflexivity. Qed.

(** With the band-pass stage switched off the conditioner passes the chunk,
    and [translate_audio] fails on the unbound name [false], again without a
    request to the engine. *)
Lemma translate_audio_fails_on_payload :
  translate_audio standin_lib band_pass_off silence "en" "hi" S1 (world0 engine_up)
  = (Raise (ProcessorError "S2S translation failed: name 'false' is not defined"),
     band_pass_off, world0 engine_up).
Proof. vm_compute. reflexivity. Qed.

(** ** Housekeeping *)

(** The state in which session [S1] was opened at time 0 and nothing was
    received since, [idle] microseconds later. *)
Lemma idle_state_last_activity (idle : Z) :
  si_last_activity
    <$> active_sessions
          (elapse idle (endpoint_open 7%nat S1 "10.0.0.1" "client" "en-hi"
                          (initial_state succeeding 0)).1) !! S1
  = Some 0.
Proof. vm_compute. reflexivity. Qed.

(** C7.  A session idle for one day and 100 seconds (86500 s, far more
    than 300) is not evicted by the cleanup pass: [timedelta.seconds] is the
    seconds field, 100 here, not the length of the interval.  The session
    stays registered and the next keepalive is delivered to it. *)
Theorem session_idle_for_a_day_survives_cleanup :
  let opened := (endpoint_open 7%nat S1 "10.0.0.1" "client" "en-hi"
                   (initial_state succeeding 0)).1 in
  let idle := elapse 86500000000 opened in
  let swept := session_cleanup_pass idle in
  timedelta_total_seconds (clock idle - 0) = 86500 /\
  timedelta_seconds (clock idle - 0) = 100 /\
  inactive_sessions idle = [] /\
  manager_active_connections swept !! S1 = Some 7%nat /\
  si_last_activity <$> active_sessions swept !! S1 = Some 0 /\
  trace (loop_iteration S1 WaitTimeout swept).1
  = [Sent 7%nat (MConnected S1 0); Sent 7%nat (MKeepalive S1 86500000)].
Proof. vm_compute. repeat split; reflexivity. Qed.

(** For comparison: after 301 seconds of idleness the pass evicts the
    session, and the keepalive that follows is delivered to nobody. *)
Lemma session_idle_for_301_seconds_is_evicted :
  let opened := (endpoint_open 7%nat S1 "10.0.0.1" "client" "en-hi"
                   (initial_state succeeding 0)).1 in
  let idle := elapse 301000000 opened in
  let swept := session_cleanup_pass idle in
  inactive_sessions idle = [S1] /\
  manager_active_connections swept !! S1 = None /\
  active_sessions swept !! S1 = None /\
  trace (loop_iteration S1 WaitTimeout swept).1 = [Sent 7%nat (MConnected S1 0)].
Proof. vm_compute. repeat split; reflexivity. Qed.

(** ** Failures of the translation *)


(** ** The last acknowledged sequence number *)

(** C2 as stated fails: after the chunk with [sequence_id] 5 the stored
    value is 5, and the chunk with [sequence_id] 3 that follows is
    acknowledged and lowers the stored value to 3. *)
Lemma last_ack_decreases :
  let st0 := (endpoint_open 7%nat S1 "10.0.0.1" "client" "en-hi"
                (initial_state (deployed engine_up) 1000000)).1 in
  let st1 := (loop_iteration S1 (Recv (Parsed (chunk 5))) st0).1 in
  let st2 := (loop_iteration S1 (Recv (Parsed (chunk 3))) st1).1 in
  last_ack st1 S1 = Some 5 /\ last_ack st2 S1 = Some 3 /\
  In (Sent 7%nat (MAck S1 3 1000)) (trace st2).
Proof.
  vm_compute.
  split; [reflexivity|]. split; [reflexivity|]. tauto.
Qed.

(** ** The handlers, for any processor object *)

Section Handlers.
Context {P : Type} `{Processor P}.

Lemma process_audio_chunk_unfold (session_id : string) (message : InboundMessage)
    (st : State P) (c : ascii) (audio : string) :
  in_audio_chunk message = Some (String c audio) ->
  process_audio_chunk session_id message st
  = let st3 := at_dispatch session_id (in_sequence_id message) st in
    let '(r, p, now) :=
      call_translate_audio (translation_processor st3) translate_audio_keywords
        (String c audio)
        (default "en" (default (None, None) (in_language_pair message)).1)
        (default "hi" (default (None, None) (in_language_pair message)).2)
        session_id (clock st3) in
    after_dispatch session_id message (clock st3) r (set_processor p now st3).
Proof.
  intros Haudio. unfold process_audio_chunk. rewrite Haudio.
  cbv zeta. unfold at_dispatch, after_dispatch.
  destruct (call_translate_audio _ _ _ _ _ _ _) as [[r p] now].
  reflexivity.
Qed.

Lemma validated_audio (message : InboundMessage) :
  validate_inbound_message message = true ->
  exists c audio, in_audio_chunk message = Some (String c audio).
Proof.
  unfold validate_inbound_message.
  destruct (in_session_id message); [|discriminate].
  destruct (in_audio_chunk message) as [[|c audio]|]; [| |discriminate].
  - destruct (negb (uuid_ok s)); discriminate.
  - intros _. eauto.
Qed.

(** Every send either delivers the message on the socket registered for the
    session, which is working, and leaves the registry as it is, or delivers
    nothing and leaves the session unregistered. *)
Lemma send_message_cases (session_id : string) (m : Message) (st : State P) :
  let st' := send_message session_id m st in
  broken st' = broken st /\
  translation_processor st' = translation_processor st /\
  clock st' = clock st /\
  ((exists ws, manager_active_connections st !! session_id = Some ws /\
               (ws ∉ broken st) /\
               trace st' = (trace st ++ [Sent ws m])%list /\
               manager_active_connections st' = manager_active_connections st /\
               connection_stats st' = connection_stats st)
   \/ (trace st' = trace st /\
       manager_active_connections st' !! session_id = None /\
       (forall ws, manager_active_connections st !! session_id = Some ws ->
                   ws ∈ broken st))).
Proof.
  unfold send_message.
  destruct (manager_active_connections st !! session_id) as [ws|] eqn:Hreg.
  - destruct (bool_decide (ws ∈ broken st)) eqn:Hbad.
    + apply bool_decide_eq_true in Hbad.
      repeat (split; [reflexivity|]). right. split; [reflexivity|]. split.
      * unfold disconnect. state_simpl. apply lookup_delete_eq.
      * intros ws' [= <-]. exact Hbad.
    + apply bool_decide_eq_false in Hbad.
      repeat (split; [reflexivity|]). left. exists ws.
      repeat (split; [done|]). reflexivity.
  - repeat (split; [reflexivity|]). right. split; [reflexivity|].
    split; [exact Hreg|]. intros ws' [=].
Qed.

Lemma send_message_registered (session_id : string) (m : Message) (st : State P)
    (ws : WebSocket) :
  manager_active_connections st !! session_id = Some ws ->
  ws ∉ broken st ->
  send_message session_id m st
  = set_metadata (alter (touch_metadata (clock st)) session_id) (emit (Sent ws m) st).
Proof.
  intros Hreg Hok. unfold send_message. rewrite Hreg.
  rewrite bool_decide_eq_false_2 by exact Hok. reflexivity.
Qed.

Lemma send_message_unregistered (session_id : string) (m : Message) (st : State P) :
  manager_active_connections st !! session_id = None ->
  send_message session_id m st = st.
Proof. intros Hreg. unfold send_message. rewrite Hreg. reflexivity. Qed.

(** The acknowledgment: when the session is registered on a working socket
    the ack is delivered before the dispatch; otherwise nothing is delivered
    and the session is unregistered when the translation is dispatched. *)
Lemma at_dispatch_cases (session_id : string) (n : Z) (st : State P) :
  let st3 := at_dispatch session_id (Some n) st in
  broken st3 = broken st /\
  translation_processor st3 = translation_processor st /\
  clock st3 = clock st /\
  ((exists ws, manager_active_connections st !! session_id = Some ws /\
               (ws ∉ broken st) /\
               trace st3 = (trace st ++ [Sent ws (MAck session_id n (timestamp_ms st));
                                         Dispatched session_id (Some n)])%list /\
               manager_active_connections st3 = manager_active_connections st /\
               connection_stats st3 = connection_stats st)
   \/ (trace st3 = (trace st ++ [Dispatched session_id (Some n)])%list /\
       manager_active_connections st3 !! session_id = None /\
       (forall ws, manager_active_connections st !! session_id = Some ws ->
                   ws ∈ broken st))).
Proof.
  unfold at_dispatch, send_acknowledgment.
  set (st1 := set_metadata _ st).
  destruct (send_message_cases session_id (MAck session_id n (timestamp_ms st)) st1)
    as (Hb & Hp & Hc & Hcases).
  state_simpl. rewrite Hb, Hp, Hc.
  repeat (split; [reflexivity|]).
  destruct Hcases as [(ws & Hreg & Hok & Htr & Hconn & Hstats)|(Htr & Hunreg & Hbad)].
  - left. exists ws. rewrite Htr, Hconn, Hstats, <- app_assoc.
    repeat (split; [done|]). reflexivity.
  - right. rewrite Htr. split; [reflexivity|]. split; [exact Hunreg|exact Hbad].
Qed.

Lemma sends_from_refl (session_id : string) (st st' : State P) :
  broken st' = broken st -> trace st' = trace st ->
  manager_active_connections st' = manager_active_connections st ->
  sends_from session_id st st'.
Proof.
  intros Hb Ht Hc. split; [exact Hb|]. split; [|left; exact Hc].
  exists []. rewrite app_nil_r. split; [exact Ht|constructor].
Qed.

Lemma sends_from_trans (session_id : string) (st1 st2 st3 : State P) :
  sends_from session_id st1 st2 -> sends_from session_id st2 st3 ->
  sends_from session_id st1 st3.
Proof.
  intros (Hb1 & (evs1 & Ht1 & Hd1) & Hc1) (Hb2 & (evs2 & Ht2 & Hd2) & Hc2).
  split; [congruence|]. split.
  - exists (evs1 ++ evs2)%list. split; [rewrite Ht2, Ht1, app_assoc; reflexivity|].
    apply Forall_app. split; [exact Hd1|].
    eapply Forall_impl; [exact Hd2|].
    intros ev (ws & m & -> & Hreg & Hok). exists ws, m.
    split; [reflexivity|]. rewrite Hb1 in Hok.
    destruct Hc1 as [Hc1|Hc1]; [rewrite Hc1 in Hreg; done|congruence].
  - destruct Hc2 as [Hc2|Hc2]; [|right; exact Hc2].
    rewrite Hc2. exact Hc1.
Qed.

Lemma send_message_sends (session_id : string) (m : Message) (st : State P) :
  sends_from session_id st (send_message session_id m st).
Proof.
  destruct (send_message_cases session_id m st) as (Hb & _ & _ & Hcases).
  split; [exact Hb|].
  destruct Hcases as [(ws & Hreg & Hok & Htr & Hconn & _)|(Htr & Hunreg & _)].
  - split; [|left; exact Hconn].
    exists [Sent ws m]. split; [exact Htr|].
    constructor; [|constructor]. exists ws, m. done.
  - split; [|right; exact Hunreg].
    exists []. rewrite app_nil_r. split; [exact Htr|constructor].
Qed.

Lemma chunk_failed_sends (session_id : string) (e : exn) (st : State P) :
  sends_from session_id st (chunk_failed session_id e st).
Proof.
  unfold chunk_failed, send_error_message.
  eapply sends_from_trans with (st2 := set_stats add_failed_translation st).
  - apply sends_from_refl; reflexivity.
  - destruct (is_ProcessorError e); apply send_message_sends.
Qed.

Lemma record_success_frame (q : Q) (st st' : State P) :
  record_success q st = Ok st' ->
  broken st' = broken st /\ trace st' = trace st /\
  manager_active_connections st' = manager_active_connections st /\
  manager_session_metadata st' = manager_session_metadata st.
Proof.
  unfold record_success.
  destruct (Z.eqb _ 0); [discriminate|].
  destruct (get_backpressure_events _); cbn [bind]; [|discriminate].
  intros [= <-]. repeat split; reflexivity.
Qed.

Lemma record_success_partial_frame (q : Q) (st : State P) :
  let st' := record_success_partial q st in
  broken st' = broken st /\ trace st' = trace st /\
  manager_active_connections st' = manager_active_connections st /\
  manager_session_metadata st' = manager_session_metadata st.
Proof.
  unfold record_success_partial.
  destruct (Z.eqb _ 0); repeat split; reflexivity.
Qed.

(** After the dispatch the server only delivers messages to the session. *)
Lemma after_dispatch_sends (session_id : string) (message : InboundMessage)
    (start_time : Z) (r : Result TranslationResult) (st4 : State P) :
  sends_from session_id st4 (after_dispatch session_id message start_time r st4).
Proof.
  unfold after_dispatch. destruct r as [res|e]; [|apply chunk_failed_sends].
  cbv zeta.
  set (q := ((clock st4 - start_time) # 1000)%Q).
  set (msg := MTranscript _ _ _ _ _ _ _ _).
  pose proof (send_message_sends session_id msg st4) as Hsend.
  destruct (record_success q (send_message session_id msg st4)) as [st6|e] eqn:Hrec.
  - apply record_success_frame in Hrec as (Hb & Ht & Hc & _).
    eapply sends_from_trans; [exact Hsend|].
    apply sends_from_refl; assumption.
  - eapply sends_from_trans; [exact Hsend|].
    destruct (record_success_partial_frame q (send_message session_id msg st4))
      as (Hb & Ht & Hc & _).
    eapply sends_from_trans; [|apply chunk_failed_sends].
    apply sends_from_refl; assumption.
Qed.

End Handlers.

(** On a fresh session and a processor object whose [translate_audio]
    returns a result, the chunk is acknowledged, dispatched and answered with
    a final transcript, in this order. *)
Lemma acknowledged_chunk_trace :
  trace (process_audio_chunk S1 (chunk 1)
           (endpoint_open 7%nat S1 "10.0.0.1" "client" "en-hi"
              (initial_state succeeding 1000000)).1)
  = [Sent 7%nat (MConnected S1 1000);
     Sent 7%nat (MAck S1 1 1000);
     Dispatched S1 (Some 1);
     Sent 7%nat (MTranscript S1 true 0 (Some 1) "Translated speech (48 bytes)"
                   (85 # 100) (120000 # 1000) 1120)].
Proof. vm_compute. reflexivity. Qed.

(** When the socket of the session is broken, the ack cannot be delivered:
    the session is unregistered, the translation is still dispatched, and
    its transcript is delivered to nobody. *)
Lemma chunk_on_broken_socket_trace :
  let st0 := break_socket 7%nat
               (endpoint_open 7%nat S1 "10.0.0.1" "client" "en-hi"
                  (initial_state succeeding 1000000)).1 in
  trace (process_audio_chunk S1 (chunk 1) st0)
  = [Sent 7%nat (MConnected S1 1000); Dispatched S1 (Some 1)] /\
  manager_active_connections (process_audio_chunk S1 (chunk 1) st0) !! S1 = None.
Proof. vm_compute. split; reflexivity. Qed.

Section Failures.
Context {P : Type} `{Processor P}.

(** On a session registered on a working socket, the acknowledgment leaves
    the registry, the processor, the clock and the counters as they are. *)
Lemma at_dispatch_registered (session_id : string) (sequence_id : option Z)
    (st : State P) (ws : WebSocket) :
  manager_active_connections st !! session_id = Some ws ->
  ws ∉ broken st ->
  let st3 := at_dispatch session_id sequence_id st in
  manager_active_connections st3 = manager_active_connections st /\
  broken st3 = broken st /\
  translation_processor st3 = translation_processor st /\
  clock st3 = clock st /\
  connection_stats st3 = connection_stats st.
Proof.
  intros Hreg Hok. unfold at_dispatch.
  destruct sequence_id as [n|]; [|repeat split; reflexivity].
  unfold send_acknowledgment.
  rewrite (send_message_registered _ _ _ ws) by (state_simpl; assumption).
  repeat split; reflexivity.
Qed.

(** The acknowledgment changes neither the processor, the clock nor the
    counter of failures. *)
Lemma at_dispatch_frame (session_id : string) (sequence_id : option Z)
    (st : State P) :
  let st3 := at_dispatch session_id sequence_id st in
  translation_processor st3 = translation_processor st /\
  clock st3 = clock st /\
  failed_translations (connection_stats st3) = failed_translations (connection_stats st).
Proof.
  unfold at_dispatch. destruct sequence_id as [n|]; [|repeat split; reflexivity].
  unfold send_acknowledgment, send_message. state_simpl.
  destruct (manager_active_connections st !! session_id) as [ws|];
    [|repeat split; reflexivity].
  destruct (bool_decide (ws ∈ broken st)); repeat split; reflexivity.
Qed.

(** A send to a session without a working socket delivers nothing and
    leaves the session unregistered. *)
Lemma send_message_unreachable (session_id : string) (m : Message) (st : State P) :
  unreachable session_id st ->
  let st' := send_message session_id m st in
  trace st' = trace st /\
  manager_active_connections st' !! session_id = None /\
  broken st' = broken st.
Proof.
  intros Hun. unfold send_message.
  destruct (manager_active_connections st !! session_id) as [ws|] eqn:Hreg.
  - rewrite bool_decide_eq_true_2 by (apply Hun; exact Hreg).
    unfold disconnect. state_simpl.
    split; [reflexivity|]. split; [apply lookup_delete_eq|reflexivity].
  - split; [reflexivity|]. split; [exact Hreg|reflexivity].
Qed.

Lemma at_dispatch_unreachable (session_id : string) (sequence_id : option Z)
    (st : State P) :
  unreachable session_id st ->
  let st3 := at_dispatch session_id sequence_id st in
  trace st3 = (trace st ++ [Dispatched session_id sequence_id])%list /\
  unreachable session_id st3.
Proof.
  intros Hun. unfold at_dispatch.
  destruct sequence_id as [n|]; [|split; [reflexivity|exact Hun]].
  unfold send_acknowledgment.
  set (st1 := set_metadata _ st).
  destruct (send_message_unreachable session_id
              (MAck session_id n (timestamp_ms st)) st1 Hun) as (Htr & Hreg & Hb).
  state_simpl. rewrite Htr. split; [reflexivity|].
  intros ws. state_simpl. rewrite Hreg. discriminate.
Qed.

Lemma chunk_failed_counts (session_id : string) (e : exn) (st : State P) :
  failed_translations (connection_stats (chunk_failed session_id e st))
  = failed_translations (connection_stats st) + 1.
Proof.
  unfold chunk_failed, send_error_message, send_message. state_simpl.
  destruct (is_ProcessorError e);
    (destruct (manager_active_connections st !! session_id) as [ws|];
     [destruct (bool_decide (ws ∈ broken st))|]; reflexivity).
Qed.


End Failures.

(** The call of main.py on the processor of the repository: the keywords do
    not bind, and the processor is left as it is. *)
Lemma deployed_call_raises (d : Deployed)
    (audio source target session_id : string) (now : Z) :
  call_translate_audio d translate_audio_keywords audio source target session_id now
  = (Raise (TypeError
              "SeamlessM4TProcessor.translate_audio() got an unexpected keyword argument 'sequence_id'"),
     {| lib := lib d; processor := processor d; world := at_time now (world d) |},
     now).
Proof.
  cbn [call_translate_audio Deployed_Processor].
  unfold TranslationProcessor.call_translate_audio.
  rewrite translate_audio_keywords_do_not_bind. reflexivity.
Qed.


(** In that scenario the session is registered on the working socket 7, and
    the error that the client receives has the code [UNEXPECTED_ERROR]. *)
Lemma failed_chunk_on_deployed_processor :
  let st0 := (endpoint_open 7%nat S1 "10.0.0.1" "client" "en-hi"
                (initial_state (deployed engine_up) 1000000)).1 in
  manager_active_connections st0 !! S1 = Some 7%nat /\
  (7%nat ∉ broken st0) /\
  last (trace (loop_iteration S1 (Recv (Parsed (chunk 1))) st0).1)
  = Some (Sent 7%nat
            (MError S1 UNEXPECTED_ERROR
               "SeamlessM4TProcessor.translate_audio() got an unexpected keyword argument 'sequence_id'"
               None 1000)).
Proof.
  vm_compute. split; [reflexivity|]. split; [discriminate|reflexivity].
Qed.

(** ** The last acknowledged sequence number, for any processor object *)

Section LastAck.
Context {P : Type} `{Processor P}.

Lemma last_ack_alter (f : Metadata -> Metadata) (k s : string) (st : State P) :
  (forall md, last_acknowledged_seq (f md) = last_acknowledged_seq md) ->
  last_ack (set_metadata (alter f k) st) s = last_ack st s.
Proof.
  intros Hf. unfold last_ack. state_simpl.
  destruct (decide (k = s)) as [->|Hne].
  - rewrite lookup_alter_eq.
    destruct (manager_session_metadata st !! s); cbn; [rewrite Hf|]; reflexivity.
  - rewrite lookup_alter_ne by exact Hne. reflexivity.
Qed.

Lemma last_ack_set (n : Z) (k s : string) (st : State P) (v : Z) :
  last_ack (set_metadata (alter (set_last_acknowledged_seq n) k) st) s = Some v ->
  (s = k /\ v = n) \/ last_ack st s = Some v.
Proof.
  unfold last_ack. state_simpl.
  destruct (decide (k = s)) as [->|Hne].
  - rewrite lookup_alter_eq.
    destruct (manager_session_metadata st !! s); cbn; [|discriminate].
    intros [= <-]. left. split; reflexivity.
  - rewrite lookup_alter_ne by exact Hne. intros Hv. right. exact Hv.
Qed.

Lemma keeps_acks_trans (st1 st2 st3 : State P) :
  keeps_acks st1 st2 -> keeps_acks st2 st3 -> keeps_acks st1 st3.
Proof. unfold keeps_acks. eauto. Qed.

Lemma keeps_acks_same (st st' : State P) :
  manager_session_metadata st' = manager_session_metadata st -> keeps_acks st st'.
Proof. intros Hm s v. unfold last_ack. rewrite Hm. exact id. Qed.

Lemma disconnect_keeps_acks (session_id : string) (st : State P) :
  keeps_acks st (disconnect session_id st).
Proof.
  intros s v. unfold last_ack, disconnect. state_simpl.
  destruct (decide (session_id = s)) as [->|Hne].
  - rewrite lookup_delete_eq. discriminate.
  - rewrite lookup_delete_ne by exact Hne. exact id.
Qed.

Lemma send_message_keeps_acks (session_id : string) (m : Message) (st : State P) :
  keeps_acks st (send_message session_id m st).
Proof.
  unfold send_message.
  destruct (manager_active_connections st !! session_id) as [ws|];
    [|apply keeps_acks_same; reflexivity].
  destruct (bool_decide (ws ∈ broken st)); [apply disconnect_keeps_acks|].
  intros s v. rewrite last_ack_alter by reflexivity. exact id.
Qed.

Lemma chunk_failed_keeps_acks (session_id : string) (e : exn) (st : State P) :
  keeps_acks st (chunk_failed session_id e st).
Proof.
  unfold chunk_failed, send_error_message.
  destruct (is_ProcessorError e);
    (eapply keeps_acks_trans; [|apply send_message_keeps_acks]);
    apply keeps_acks_same; reflexivity.
Qed.

Lemma after_dispatch_keeps_acks (session_id : string) (message : InboundMessage)
    (start_time : Z) (r : Result TranslationResult) (st4 : State P) :
  keeps_acks st4 (after_dispatch session_id message start_time r st4).
Proof.
  unfold after_dispatch. destruct r as [res|e]; [|apply chunk_failed_keeps_acks].
  cbv zeta.
  set (q := ((clock st4 - start_time) # 1000)%Q).
  set (msg := MTranscript _ _ _ _ _ _ _ _).
  pose proof (send_message_keeps_acks session_id msg st4) as Hsend.
  destruct (record_success q (send_message session_id msg st4)) as [st6|e] eqn:Hrec.
  - apply record_success_frame in Hrec as (_ & _ & _ & Hm).
    eapply keeps_acks_trans; [exact Hsend|]. apply keeps_acks_same. exact Hm.
  - eapply keeps_acks_trans; [exact Hsend|].
    destruct (record_success_partial_frame q (send_message session_id msg st4))
      as (_ & _ & _ & Hm).
    eapply keeps_acks_trans; [|apply chunk_failed_keeps_acks].
    apply keeps_acks_same. exact Hm.
Qed.

(** The stored values at the dispatch are those of before, except that the
    one of the session is the acknowledged sequence number. *)
Lemma at_dispatch_acks (session_id : string) (sequence_id : option Z)
    (st : State P) (s : string) (v : Z) :
  last_ack (at_dispatch session_id sequence_id st) s = Some v ->
  (s = session_id /\ sequence_id = Some v) \/ last_ack st s = Some v.
Proof.
  unfold at_dispatch. intros Hv.
  change (last_ack (emit ?e ?x) s) with (last_ack x s) in Hv.
  rewrite last_ack_alter in Hv by reflexivity.
  destruct sequence_id as [n|]; [|right; exact Hv].
  unfold send_acknowledgment in Hv.
  apply send_message_keeps_acks, last_ack_set in Hv as [[-> ->]|Hv];
    [left; split; reflexivity|right; exact Hv].
Qed.

(** On a session registered on a working socket no send removes or changes
    the stored value. *)
Lemma send_message_registered_ack (session_id : string) (m : Message)
    (st : State P) (ws : WebSocket) (s : string) :
  manager_active_connections st !! session_id = Some ws ->
  ws ∉ broken st ->
  let st' := send_message session_id m st in
  last_ack st' s = last_ack st s /\
  manager_active_connections st' = manager_active_connections st /\
  broken st' = broken st.
Proof.
  intros Hreg Hok. cbv zeta.
  rewrite (send_message_registered _ _ _ ws Hreg Hok).
  rewrite last_ack_alter by reflexivity. repeat split; reflexivity.
Qed.

Lemma chunk_failed_registered_ack (session_id : string) (e : exn)
    (st : State P) (ws : WebSocket) (s : string) :
  manager_active_connections st !! session_id = Some ws ->
  ws ∉ broken st ->
  last_ack (chunk_failed session_id e st) s = last_ack st s.
Proof.
  intros Hreg Hok. unfold chunk_failed, send_error_message.
  destruct (is_ProcessorError e);
    (match goal with
     | |- last_ack (send_message ?k ?m ?x) s = _ =>
         destruct (send_message_registered_ack k m x ws s) as (-> & _ & _);
         [exact Hreg|exact Hok|reflexivity]
     end).
Qed.

Lemma after_dispatch_registered_ack (session_id : string) (message : InboundMessage)
    (start_time : Z) (r : Result TranslationResult) (st4 : State P)
    (ws : WebSocket) (s : string) :
  manager_active_connections st4 !! session_id = Some ws ->
  ws ∉ broken st4 ->
  last_ack (after_dispatch session_id message start_time r st4) s = last_ack st4 s.
Proof.
  intros Hreg Hok. unfold after_dispatch.
  destruct r as [res|e]; [|apply (chunk_failed_registered_ack _ _ _ ws); assumption].
  cbv zeta.
  set (q := ((clock st4 - start_time) # 1000)%Q).
  set (msg := MTranscript _ _ _ _ _ _ _ _).
  destruct (send_message_registered_ack session_id msg st4 ws s Hreg Hok)
    as (Hack & Hconn & Hb).
  destruct (record_success q (send_message session_id msg st4)) as [st6|e] eqn:Hrec.
  - apply record_success_frame in Hrec as (_ & _ & _ & Hm).
    rewrite <- Hack. unfold last_ack. rewrite Hm. reflexivity.
  - destruct (record_success_partial_frame q (send_message session_id msg st4))
      as (Hb' & _ & Hc' & Hm).
    rewrite (chunk_failed_registered_ack _ _ _ ws)
      by (rewrite ?Hc', ?Hb', ?Hconn, ?Hb; assumption).
    rewrite <- Hack. unfold last_ack. rewrite Hm. reflexivity.
Qed.

(** What one inbound unit does to the stored values.  (1) A validated chunk
    that carries a [sequence_id], on a session registered on a working
    socket, is acknowledged and the stored value becomes that [sequence_id],
    whatever the value stored before, smaller ones included.  (2) Processing
    an inbound unit of a session changes no stored value other than by (1):
    every value stored afterwards was stored before, or is the
    [sequence_id] of the validated frame just received on that session. *)
Lemma last_ack_after_inbound_unit
    (session_id : string) (st : State P) :
  (forall (message : InboundMessage) (n : Z) (ws : WebSocket) (md : Metadata),
     validate_inbound_message message = true ->
     default "audio_chunk" (in_message_type message) = "audio_chunk" ->
     in_sequence_id message = Some n ->
     manager_active_connections st !! session_id = Some ws ->
     ws ∉ broken st ->
     manager_session_metadata st !! session_id = Some md ->
     last_ack (process_websocket_message session_id (Parsed message) st) session_id
     = Some n) /\
  (forall (data : Data) (s : string) (v : Z),
     last_ack (process_websocket_message session_id data st) s = Some v ->
     last_ack st s = Some v \/
     (s = session_id /\
      exists message, data = Parsed message /\
                      validate_inbound_message message = true /\
                      in_sequence_id message = Some v)).
Proof.
  split.
  - intros message n ws md Hvalid Htype Hseq Hreg Hok Hmd.
    unfold process_websocket_message. rewrite Hvalid. cbn [negb].
    rewrite Htype. cbn [String.eqb Ascii.eqb Bool.eqb].
    apply validated_audio in Hvalid as (c & audio & Haudio).
    rewrite (process_audio_chunk_unfold _ _ _ c audio Haudio), Hseq. cbv zeta.
    assert (manager_active_connections (at_dispatch session_id (Some n) st)
            = manager_active_connections st
            /\ broken (at_dispatch session_id (Some n) st) = broken st
            /\ last_ack (at_dispatch session_id (Some n) st) session_id = Some n)
      as (Hconn & Hb & Hack).
    { unfold at_dispatch, send_acknowledgment.
      rewrite (send_message_registered _ _ _ ws) by (state_simpl; assumption).
      split; [reflexivity|]. split; [reflexivity|].
      unfold last_ack. state_simpl.
      rewrite !lookup_alter_eq, Hmd. reflexivity. }
    set (st3 := at_dispatch session_id (Some n) st) in *.
    destruct (call_translate_audio _ _ _ _ _ _ _) as [[r p] now].
    rewrite (after_dispatch_registered_ack _ _ _ _ _ ws)
      by (state_simpl; rewrite ?Hconn, ?Hb; assumption).
    exact Hack.
  - intros data s v. unfold process_websocket_message.
    destruct data as [|message|e].
    { intros Hv. left. revert Hv. unfold send_error_message.
      apply send_message_keeps_acks. }
    2:{ intros Hv. left. revert Hv. unfold send_error_message.
        apply send_message_keeps_acks. }
    destruct (validate_inbound_message message) eqn:Hvalid; cbn [negb].
    2:{ intros Hv. left. revert Hv. unfold send_error_message.
        apply send_message_keeps_acks. }
    destruct (String.eqb _ "audio_chunk"); [|intros Hv; left; exact Hv].
    pose proof Hvalid as Hvalid'.
    apply validated_audio in Hvalid' as (c & audio & Haudio).
    rewrite (process_audio_chunk_unfold _ _ _ c audio Haudio). cbv zeta.
    destruct (call_translate_audio _ _ _ _ _ _ _) as [[r p] now].
    intros Hv. apply after_dispatch_keeps_acks in Hv.
    change (last_ack (set_processor ?a ?b ?x) s) with (last_ack x s) in Hv.
    apply at_dispatch_acks in Hv as [[-> Hseq]|Hv]; [|left; exact Hv].
    right. split; [reflexivity|]. exists message. done.
Qed.

End LastAck.

(** ** The cleanup pass, for any processor object *)

Section Cleanup.
Context {P : Type} `{Processor P}.

Lemma elem_of_inactive_sessions (st : State P) (session_id : string) :
  session_id ∈ inactive_sessions st <->
  exists info, active_sessions st !! session_id = Some info /\
               300 < timedelta_seconds (clock st - si_last_activity info).
Proof.
  unfold inactive_sessions. rewrite list_elem_of_omap. split.
  - intros ([k info] & Hin & Hsel).
    apply elem_of_map_to_list in Hin.
    destruct (Z.ltb 300 _) eqn:Hlt; [|discriminate].
    injection Hsel as ->. exists info. split; [exact Hin|].
    apply Z.ltb_lt. exact Hlt.
  - intros (info & Hin & Hlt). exists (session_id, info).
    split; [apply elem_of_map_to_list; exact Hin|].
    apply Z.ltb_lt in Hlt. rewrite Hlt. reflexivity.
Qed.

(** Evicting the sessions of a list removes exactly these from both
    tables. *)
Lemma evict_all_lookup (l : list string) (st : State P) (session_id : string) :
  let st' := foldl (fun st k => set_sessions (delete k) (disconnect k st)) st l in
  active_sessions st' !! session_id
  = (if decide (session_id ∈ l) then None else active_sessions st !! session_id) /\
  manager_active_connections st' !! session_id
  = (if decide (session_id ∈ l) then None
     else manager_active_connections st !! session_id).
Proof.
  revert st. induction l as [|k l IH]; intros st; cbn [foldl].
  - rewrite !decide_False by apply not_elem_of_nil. split; reflexivity.
  - destruct (IH (set_sessions (delete k) (disconnect k st))) as [IHs IHc].
    cbv zeta in *. rewrite IHs, IHc. unfold disconnect. state_simpl.
    destruct (decide (session_id ∈ l)) as [Hin|Hnin].
    + rewrite !decide_True by (rewrite elem_of_cons; tauto). split; reflexivity.
    + destruct (decide (session_id = k)) as [->|Hne].
      * rewrite !decide_True by (rewrite elem_of_cons; tauto).
        rewrite !lookup_delete_eq. split; reflexivity.
      * rewrite !decide_False by (rewrite elem_of_cons; tauto).
        rewrite !lookup_delete_ne by congruence. split; reflexivity.
Qed.

(** What one cleanup pass does to a session: it is evicted exactly when the
    seconds field of its idle time exceeds 300; once evicted, nothing is
    delivered to it. *)
Lemma cleanup_pass_evicts_iff (st : State P) (session_id : string) (info : SessionInfo) :
  active_sessions st !! session_id = Some info ->
  let swept := session_cleanup_pass st in
  (300 < timedelta_seconds (clock st - si_last_activity info) ->
   active_sessions swept !! session_id = None /\
   manager_active_connections swept !! session_id = None /\
   forall m, send_message session_id m swept = swept) /\
  (timedelta_seconds (clock st - si_last_activity info) <= 300 ->
   active_sessions swept !! session_id = Some info /\
   manager_active_connections swept !! session_id
   = manager_active_connections st !! session_id).
Proof.
  intros Hinfo. cbv zeta. unfold session_cleanup_pass.
  destruct (evict_all_lookup (inactive_sessions st) st session_id) as [Hs Hc].
  cbv zeta in *. rewrite Hs, Hc. split.
  - intros Hidle.
    rewrite !decide_True by (apply elem_of_inactive_sessions; eauto).
    split; [reflexivity|]. split; [reflexivity|].
    intros m. apply send_message_unregistered. rewrite Hc.
    rewrite decide_True by (apply elem_of_inactive_sessions; eauto). reflexivity.
  - intros Hfresh.
    assert (session_id ∉ inactive_sessions st) as Hnin.
    { rewrite elem_of_inactive_sessions. intros (info' & Hinfo' & Hlt).
      rewrite Hinfo in Hinfo'. injection Hinfo' as <-. lia. }
    rewrite !decide_False by exact Hnin.
    split; [exact Hinfo|reflexivity].
Qed.

(** The seconds field forgets whole days: an idle time of [d] days and
    [s < 86400] seconds has the seconds field [s]. *)
Lemma timedelta_seconds_forgets_days (d s us : Z) :
  0 <= s < 86400 -> 0 <= us < 1000000 ->
  timedelta_seconds ((d * 86400 + s) * 1000000 + us) = s.
Proof.
  intros Hs Hus. unfold timedelta_seconds.
  replace ((d * 86400 + s) * 1000000 + us)
    with ((s * 1000000 + us) + d * 86400000000) by lia.
  rewrite Z_mod_plus_full, Z.mod_small by lia.
  rewrite Z.div_add_l by lia.
  rewrite Z.div_small by lia. lia.
Qed.

End Cleanup.

(** * Further properties of the code *)

(** ** Audio conditioning *)

Section Conditioning.

Local Open Scope Q_scope.

Lemma Qabs_zero_le (x : Q) : Qabs x <= 0 -> x == 0.
Proof.
  intros Hle. apply Qabs_Qle_condition in Hle as [Hlo Hhi].
  apply Qle_antisym; [exact Hhi|exact Hlo].
Qed.

Lemma peak_positive (audio : list Q) (p : Q) :
  np_max_abs audio = Ok p -> ~ p == 0 -> 0 < p.
Proof.
  intros Hp Hnz. apply np_max_abs_spec in Hp as [_ Hex].
  apply Exists_exists in Hex as (y & _ & Hy).
  destruct (Qlt_le_dec 0 p) as [Hlt|Hle]; [exact Hlt|].
  exfalso. apply Hnz. apply Qle_antisym; [exact Hle|].
  rewrite <- Hy. apply Qabs_nonneg.
Qed.

(** [_normalize_audio] (lines 301-309).  An empty array raises
    [ValueError]; an array of zeros is returned as it is; any other array is
    scaled so that its largest magnitude is 0.8. *)
Theorem normalize_audio_peak (audio : list Q) :
  match audio with
  | [] =>
      _normalize_audio audio
      = Raise (ValueError
                 "zero-size array to reduction operation maximum which has no identity")
  | _ :: _ =>
      exists out,
        _normalize_audio audio = Ok out /\ length out = length audio /\
        ((Forall (fun x => x == 0) audio /\ out = audio) \/
         (Exists (fun x => ~ x == 0) audio /\
          magnitude_within (8 # 10) out /\
          Exists (fun y => Qabs y == 8 # 10) out))
  end.
Proof.
  destruct audio as [|x rest]; [reflexivity|].
  unfold _normalize_audio.
  destruct (np_max_abs_nonempty (x :: rest)) as [p Hp]; [discriminate|].
  rewrite Hp. cbn [bind].
  pose proof (np_max_abs_spec _ _ Hp) as [Hall Hex].
  destruct (Qeq_bool p 0) eqn:Hz.
  - apply Qeq_bool_iff in Hz. eexists. split; [reflexivity|].
    split; [reflexivity|]. left. split; [|reflexivity].
    unfold magnitude_within in Hall.
    eapply Forall_impl; [exact Hall|].
    intros y Hy. cbv beta in Hy. rewrite Hz in Hy. apply Qabs_zero_le. exact Hy.
  - apply Qeq_bool_neq in Hz.
    pose proof (peak_positive _ _ Hp Hz) as Hpos.
    eexists. split; [reflexivity|].
    split; [apply length_map|]. right.
    apply Exists_exists in Hex as (y & Hin & Hy).
    split; [|split].
    + apply Exists_exists. exists y. split; [exact Hin|].
      intros Hy0. apply Hz. rewrite <- Hy, Hy0. reflexivity.
    + unfold magnitude_within in *. rewrite Forall_forall in *.
      intros z Hz'. apply list_elem_of_In, in_map_iff in Hz' as (x0 & <- & Hx0).
      apply scaled_within; [discriminate|exact Hpos|].
      apply Hall, list_elem_of_In. exact Hx0.
    + apply Exists_exists. exists (y * ((8 # 10) / p)).
      split.
      { apply list_elem_of_In.
        apply (in_map (fun x => x * ((8 # 10) / p)) _ y).
        apply list_elem_of_In. exact Hin. }
      rewrite Qabs_Qmult, Hy.
      rewrite (Qabs_pos ((8 # 10) / p)).
      * field. exact Hz.
      * apply Qle_shift_div_l; [exact Hpos|]. rewrite Qmult_0_l. discriminate.
Qed.

(** The gain that the loop of [_apply_agc] applies to a sample is positive
    and at most [agc_max_gain], whatever the local level is. *)
Lemma limited_gain_bounds (rms : Q) :
  let gain := if Qgtb rms 0 then agc_target_level / rms else 1 in
  0 < Qmin gain agc_max_gain /\ Qmin gain agc_max_gain <= 3.
Proof.
  cbv zeta. split; [|apply Q.le_min_r].
  apply Q.min_glb_lt; [|reflexivity].
  destruct (Qgtb rms 0) eqn:E; [|reflexivity].
  apply Qgtb_true in E. apply Qlt_shift_div_l; [exact E|].
  rewrite Qmult_0_l. reflexivity.
Qed.

(** [_apply_agc] (lines 273-291).  The output has the length of the input,
    and every sample is the input sample times a gain that is positive and
    at most 3: the control never flips, silences or amplifies a sample more
    than threefold, for any behaviour of the square root. *)
Theorem apply_agc_gain_bounded (lib : Lib) (audio : list Q) :
  length (_apply_agc lib audio) = length audio /\
  forall (i : nat) (x : Q),
    audio !! i = Some x ->
    exists gain, 0 < gain /\ gain <= 3 /\
                 _apply_agc lib audio !! i = Some (x * gain).
Proof.
  unfold _apply_agc. split; [apply length_imap|].
  intros i x Hx. rewrite list_lookup_imap, Hx. cbn [fmap option_fmap option_map].
  set (rms := np_sqrt lib _).
  destruct (limited_gain_bounds rms) as [Hpos Hle].
  eexists. split; [exact Hpos|]. split; [exact Hle|reflexivity].
Qed.

Lemma apply_agc_gain_bounded_witness :
  exists gain, 0 < gain /\ gain <= 3 /\
    _apply_agc standin_lib [1 # 10; - (2 # 10)] !! 1%nat = Some (- (2 # 10) * gain).
Proof.
  apply (proj2 (apply_agc_gain_bounded standin_lib [1 # 10; - (2 # 10)]) 1%nat).
  reflexivity.
Defined.

End Conditioning.

(** ** 16-bit PCM on the wire *)

Section Pcm.

Lemma byte_of_Z_value (z : Z) :
  Z.of_N (Byte.to_N (byte_of_Z z)) = z mod 256.
Proof.
  unfold byte_of_Z.
  pose proof (Z.mod_pos_bound z 256 ltac:(lia)) as Hb.
  destruct (Byte.of_N (Z.to_N (z mod 256))) as [b|] eqn:E.
  - apply Byte.to_of_N in E. rewrite E. lia.
  - apply Byte.of_N_None_iff in E. lia.
Qed.

Lemma int16_of_bytes_range (lo hi : byte) :
  -32768 <= int16_of_bytes lo hi <= 32767.
Proof.
  unfold int16_of_bytes.
  pose proof (Byte.to_N_bounded lo). pose proof (Byte.to_N_bounded hi).
  destruct (Z.ltb_spec (Z.of_N (Byte.to_N lo) + 256 * Z.of_N (Byte.to_N hi)) 32768); lia.
Qed.

(** Two bytes written for a 16-bit value read back as that value. *)
Lemma int16_bytes_round_trip (k : Z) :
  -32768 <= k <= 32767 ->
  int16_of_bytes (byte_of_Z (k mod 65536)) (byte_of_Z (k mod 65536 / 256)) = k.
Proof.
  intros Hk. unfold int16_of_bytes. rewrite !byte_of_Z_value.
  pose proof (Z.mod_pos_bound k 65536 ltac:(lia)) as Hu.
  set (u := k mod 65536) in *.
  assert ((u / 256) mod 256 = u / 256) as ->.
  { apply Z.mod_small. split; [apply Z.div_pos; lia|].
    apply Z.div_lt_upper_bound; lia. }
  pose proof (Z.div_mod u 256 ltac:(lia)) as Hdm.
  replace (u mod 256 + 256 * (u / 256)) with u by lia.
  assert (u = if Z.ltb k 0 then k + 65536 else k) as Hu'.
  { subst u. destruct (Z.ltb_spec k 0).
    - symmetry. apply Z.mod_unique with (q := -1); lia.
    - apply Z.mod_small. lia. }
  destruct (Z.ltb_spec k 0); destruct (Z.ltb_spec u 32768); lia.
Qed.

Lemma frombuffer_tobytes (ks : list Z) :
  Forall (fun k => -32768 <= k <= 32767) ks ->
  frombuffer_int16 (tobytes ks) = Ok ks.
Proof.
  induction 1 as [|k ks Hk _ IH]; [reflexivity|].
  unfold tobytes in *. cbn [flat_map app frombuffer_int16].
  rewrite IH. cbn [bind]. rewrite int16_bytes_round_trip by exact Hk. reflexivity.
Qed.

Lemma tobytes_length (ks : list Z) : length (tobytes ks) = (2 * length ks)%nat.
Proof.
  induction ks as [|k ks IH]; [reflexivity|].
  unfold tobytes in *. cbn [flat_map app length]. rewrite IH. lia.
Qed.

(** Decoding succeeds exactly on the buffers of even length. *)
Lemma frombuffer_by_length (n : nat) (b : bytes) :
  (length b <= n)%nat ->
  if Nat.even (length b)
  then exists ks, frombuffer_int16 b = Ok ks /\ length b = (2 * length ks)%nat
  else frombuffer_int16 b
       = Raise (ValueError "buffer size must be a multiple of element size").
Proof.
  revert b. induction n as [|n IH]; intros b Hn.
  - destruct b; [|cbn in Hn; lia]. exists []. split; reflexivity.
  - destruct b as [|lo [|hi rest]].
    + exists []. split; reflexivity.
    + reflexivity.
    + specialize (IH rest ltac:(cbn in Hn; lia)).
      change (Nat.even (length (lo :: hi :: rest))) with (Nat.even (length rest)).
      cbn [frombuffer_int16].
      destruct (Nat.even (length rest)).
      * destruct IH as (ks & -> & Hlen). eexists. split; [reflexivity|].
        cbn [length]. lia.
      * rewrite IH. reflexivity.
Qed.

Lemma frombuffer_length (b : bytes) (ks : list Z) :
  frombuffer_int16 b = Ok ks -> length b = (2 * length ks)%nat.
Proof.
  intros Hks. pose proof (frombuffer_by_length (length b) b (le_n _)) as Hb.
  destruct (Nat.even (length b)).
  - destruct Hb as (ks' & Hks' & Hlen). congruence.
  - congruence.
Qed.

(** [astype(np.int16)] of a value of magnitude below [M + 1] is a
    value of magnitude at most [M]: truncation, and no wrap-around. *)
Lemma astype_int16_bound (q : Q) (M : Z) :
  0 <= M <= 32767 ->
  (Qabs q < inject_Z (M + 1))%Q ->
  Z.abs (astype_int16 q) <= M.
Proof.
  intros HM Hq. unfold astype_int16.
  destruct q as [num den]. cbn [Qnum Qden].
  unfold Qlt in Hq. cbn in Hq.
  assert (Z.abs (Z.quot num (Z.pos den)) <= M) as Ht.
  { rewrite <- (Z.quot_abs num (Z.pos den)) by lia.
    rewrite (Z.abs_eq (Z.pos den)) by lia.
    apply Z.lt_succ_r. apply Z.quot_lt_upper_bound; lia. }
  set (t := Z.quot num (Z.pos den)) in *.
  assert (t mod 65536 = if Z.ltb t 0 then t + 65536 else t) as Hu.
  { destruct (Z.ltb_spec t 0).
    - symmetry. apply Z.mod_unique with (q := -1); lia.
    - apply Z.mod_small. lia. }
  rewrite Hu. destruct (Z.ltb_spec t 0);
    match goal with |- context [Z.ltb ?a ?b] => destruct (Z.ltb_spec a b) end; lia.
Qed.

Lemma scaled_sample_bound (x bound : Q) (M : Z) :
  0 <= M <= 32767 ->
  (Qabs x <= bound)%Q ->
  (bound * 32767 < inject_Z (M + 1))%Q ->
  Z.abs (astype_int16 (x * 32767)%Q) <= M.
Proof.
  intros HM Hx Hb. apply astype_int16_bound; [exact HM|].
  eapply Qle_lt_trans; [|exact Hb].
  rewrite Qabs_Qmult. change (Qabs 32767) with 32767%Q.
  apply Qmult_le_compat_r; [exact Hx|discriminate].
Qed.

Lemma scaled_samples_within (audio : list Q) (bound : Q) (M : Z) :
  0 <= M <= 32767 ->
  magnitude_within bound audio ->
  (bound * 32767 < inject_Z (M + 1))%Q ->
  samples_within M (map (fun x => astype_int16 (x * 32767)%Q) audio).
Proof.
  intros HM Hall Hb. unfold samples_within, magnitude_within in *.
  induction Hall as [|x audio Hx _ IH]; [constructor|].
  cbn [map]. constructor; [|exact IH].
  eapply scaled_sample_bound; eassumption.
Qed.

Lemma samples_within_int16 (M : Z) (ks : list Z) :
  M <= 32767 -> samples_within M ks ->
  Forall (fun k => -32768 <= k <= 32767) ks.
Proof.
  intros HM Hall. eapply Forall_impl; [exact Hall|].
  intros k Hk. cbv beta in Hk. lia.
Qed.

Lemma safety_pass_length (audio out : list Q) :
  _apply_peak_safety_normalization audio = Ok out -> length out = length audio.
Proof.
  unfold _apply_peak_safety_normalization.
  destruct (Nat.eqb (length audio) 0); [intros [= <-]; reflexivity|].
  destruct (np_max_abs audio) as [p|e]; cbn [bind]; [|discriminate].
  destruct (Qgtb p (95 # 100)); intros [= <-]; [apply length_map|reflexivity].
Qed.

(** What [_postprocess_audio] returns for a buffer that decodes. *)
Lemma postprocess_audio_decoded (b : bytes) (ks : list Z) :
  frombuffer_int16 b = Ok ks ->
  exists out,
    _apply_peak_safety_normalization (map to_float ks) = Ok out /\
    magnitude_within (95 # 100) out /\
    _postprocess_audio b = tobytes (map (fun x => astype_int16 (x * 32767)%Q) out).
Proof.
  intros Hks.
  destruct (safety_pass_within (map to_float ks)) as (out & Hout & Hin).
  exists out. split; [exact Hout|]. split; [exact Hin|].
  unfold _postprocess_audio. rewrite Hks. cbn [bind]. rewrite Hout. reflexivity.
Qed.

(** [_postprocess_audio] (lines 379-401) keeps the length of the buffer, and
    returns a buffer of odd length, which does not decode, as it is. *)
Theorem postprocess_audio_length_and_fallback (b : bytes) :
  length (_postprocess_audio b) = length b /\
  (Nat.even (length b) = false -> _postprocess_audio b = b).
Proof.
  pose proof (frombuffer_by_length (length b) b (le_n _)) as Hb.
  destruct (Nat.even (length b)).
  - destruct Hb as (ks & Hks & Hlen). split; [|discriminate].
    destruct (postprocess_audio_decoded b ks Hks) as (out & Hout & _ & ->).
    apply safety_pass_length in Hout.
    rewrite tobytes_length, length_map, Hout, length_map. lia.
  - assert (_postprocess_audio b = b) as Hsame.
    { unfold _postprocess_audio. rewrite Hb. reflexivity. }
    split; [rewrite Hsame; reflexivity|intros _; exact Hsame].
Qed.

(** [_postprocess_audio] on a buffer of 16-bit samples: the result has as
    many samples, and none of magnitude above 31128, which is 0.95 of the
    positive full scale 32767, rounded down. *)
Theorem postprocess_audio_within_safe_level (b : bytes) (ks : list Z) :
  frombuffer_int16 b = Ok ks ->
  exists ks',
    frombuffer_int16 (_postprocess_audio b) = Ok ks' /\
    length ks' = length ks /\
    samples_within 31128 ks'.
Proof.
  intros Hks.
  destruct (postprocess_audio_decoded b ks Hks) as (out & Hout & Hin & ->).
  pose proof (scaled_samples_within out (95 # 100) 31128 ltac:(lia) Hin
                ltac:(reflexivity)) as Hbound.
  eexists. split; [|split; [|exact Hbound]].
  - apply frombuffer_tobytes. eapply samples_within_int16; [|exact Hbound]. lia.
  - apply safety_pass_length in Hout. rewrite length_map, Hout, length_map.
    reflexivity.
Qed.

Lemma postprocess_audio_within_safe_level_witness :
  exists ks',
    frombuffer_int16 (_postprocess_audio tone) = Ok ks' /\
    length ks' = length (1000 :: -2000 :: repeat 0 18) /\
    samples_within 31128 ks'.
Proof.
  apply (postprocess_audio_within_safe_level tone (1000 :: -2000 :: repeat 0 18)).
  vm_compute. reflexivity.
Defined.

(** The conversion back to 16 bits of a sample that the pass left alone. *)
Lemma requantized_sample (k : Z) :
  -32768 <= k <= 32767 ->
  astype_int16 (to_float k * 32767)%Q = k - Z.sgn k.
Proof.
  intros Hk. unfold astype_int16, to_float.
  change (Qnum (inject_Z k / 32768 * 32767)%Q) with (k * 1 * 32767).
  change (Qden (inject_Z k / 32768 * 32767)%Q) with 32768%positive.
  assert (Z.quot (k * 1 * 32767) 32768 = k - Z.sgn k) as ->.
  { destruct (Z.lt_trichotomy k 0) as [Hneg|[->|Hpos]]; [|reflexivity|].
    - replace (k * 1 * 32767) with (- ((- k) * 32767)) by lia.
      rewrite Z.quot_opp_l by lia.
      rewrite <- (Z.quot_unique ((- k) * 32767) 32768 (- k - 1) (32768 + k));
        lia.
    - rewrite <- (Z.quot_unique (k * 1 * 32767) 32768 (k - 1) (32768 - k)); lia. }
  set (t := k - Z.sgn k).
  assert (-32768 <= t <= 32767) as Ht by (subst t; lia).
  assert (t mod 65536 = if Z.ltb t 0 then t + 65536 else t) as Hu.
  { destruct (Z.ltb_spec t 0).
    - symmetry. apply Z.mod_unique with (q := -1); lia.
    - apply Z.mod_small. lia. }
  rewrite Hu. destruct (Z.ltb_spec t 0);
    match goal with |- context [Z.ltb ?a ?b] => destruct (Z.ltb_spec a b) end; lia.
Qed.

Lemma quiet_sample_within (k : Z) :
  Z.abs k <= 31129 -> (Qabs (to_float k) <= 95 # 100)%Q.
Proof.
  intros Hk. unfold to_float, Qle. cbn.
  rewrite Z.mul_1_r. lia.
Qed.

Lemma quiet_samples_within (ks : list Z) :
  samples_within 31129 ks -> magnitude_within (95 # 100) (map to_float ks).
Proof.
  unfold magnitude_within, samples_within.
  induction 1 as [|k ks' Hk _ IH]; [constructor|].
  cbn [map]. constructor; [apply quiet_sample_within; exact Hk|exact IH].
Qed.

Lemma requantized_samples (ks : list Z) :
  samples_within 31129 ks ->
  map (fun k => astype_int16 (to_float k * 32767)%Q) ks
  = map (fun k => k - Z.sgn k) ks
  /\ Forall (fun k => -32768 <= k <= 32767) (map (fun k => k - Z.sgn k) ks).
Proof.
  unfold samples_within.
  induction 1 as [|k ks' Hk _ [IH1 IH2]]; [split; [reflexivity|constructor]|].
  cbn [map]. rewrite IH1, requantized_sample by lia.
  split; [reflexivity|]. constructor; [lia|exact IH2].
Qed.

(** [_postprocess_audio] on a buffer whose samples are all within the safe
    level (magnitude at most 31129, so that no scaling happens): the buffer
    does not pass unchanged; every non-zero sample comes back one step closer
    to zero, because the samples are divided by 32768 on the way in and
    multiplied by 32767 and truncated on the way out. *)
Theorem postprocess_audio_lowers_quiet_samples (b : bytes) (ks : list Z) :
  frombuffer_int16 b = Ok ks ->
  samples_within 31129 ks ->
  frombuffer_int16 (_postprocess_audio b) = Ok (map (fun k => k - Z.sgn k) ks).
Proof.
  intros Hks Hquiet.
  destruct (postprocess_audio_decoded b ks Hks) as (out & Hout & _ & ->).
  rewrite (safety_pass_fixes_safe _ (quiet_samples_within ks Hquiet)) in Hout.
  injection Hout as <-.
  destruct (requantized_samples ks Hquiet) as [Heq Hrange].
  rewrite map_map, Heq. apply frombuffer_tobytes. exact Hrange.
Qed.

Lemma postprocess_audio_lowers_quiet_samples_witness :
  frombuffer_int16 (_postprocess_audio tone)
  = Ok (map (fun k => k - Z.sgn k) (1000 :: -2000 :: repeat 0 18)).
Proof.
  apply (postprocess_audio_lowers_quiet_samples tone (1000 :: -2000 :: repeat 0 18)).
  - vm_compute. reflexivity.
  - unfold samples_within. repeat constructor; vm_compute; discriminate.
Defined.

End Pcm.

(** ** The conditioner as a whole *)

Lemma normalize_audio_within (audio out : list Q) :
  _normalize_audio audio = Ok out -> magnitude_within (8 # 10) out.
Proof.
  unfold _normalize_audio.
  destruct (np_max_abs audio) as [p|e] eqn:Hp; cbn [bind]; [|discriminate].
  pose proof (np_max_abs_spec _ _ Hp) as [Hall _].
  destruct (Qeq_bool p 0) eqn:Hz; intros [= <-].
  - apply Qeq_bool_iff in Hz.
    unfold magnitude_within in *. eapply Forall_impl; [exact Hall|].
    intros y Hy. cbv beta in Hy. rewrite Hz in Hy.
    eapply Qle_trans; [exact Hy|discriminate].
  - apply Qeq_bool_neq in Hz. pose proof (peak_positive _ _ Hp Hz) as Hpos.
    unfold magnitude_within in *. rewrite Forall_forall in *.
    intros z Hz'. apply list_elem_of_In, in_map_iff in Hz' as (x0 & <- & Hx0).
    apply scaled_within; [discriminate|exact Hpos|].
    apply Hall, list_elem_of_In. exact Hx0.
Qed.

(** [_preprocess_audio] (lines 228-263), for any behaviour of the filters
    and of the square root: either it raises a [ProcessorError] whose message
    starts with "Audio preprocessing failed: ", or it returns a buffer of
    16-bit samples none of which has a magnitude above 26213, which is 0.8
    of the positive full scale 32767, rounded down. *)
Theorem preprocess_audio_result (lib : Lib) (self : SeamlessM4TProcessor) (b : bytes) :
  match _preprocess_audio lib self b with
  | Ok out => exists ks, frombuffer_int16 out = Ok ks /\ samples_within 26213 ks
  | Raise e => exists cause, e = ProcessorError ("Audio preprocessing failed: " ++ cause)
  end.
Proof.
  unfold _preprocess_audio.
  destruct (preprocess_pipeline lib self b) as [out|e] eqn:Hp; cbn [try_except];
    [|eexists; reflexivity].
  unfold preprocess_pipeline in Hp.
  repeat match type of Hp with
         | bind ?x _ = Ok _ =>
             let r := fresh "r" in
             destruct x as [r|] eqn:?; cbn [bind] in Hp; [|discriminate]
         end.
  injection Hp as <-.
  match goal with
  | Hn : _normalize_audio _ = Ok ?a |- _ =>
      pose proof (scaled_samples_within a (8 # 10) 26213 ltac:(lia)
                    (normalize_audio_within _ _ Hn) ltac:(reflexivity)) as Hbound
  end.
  eexists. split; [|exact Hbound].
  apply frombuffer_tobytes. eapply samples_within_int16; [|exact Hbound]. lia.
Qed.

(** On twenty samples that start with 1000 and -2000, gain control (limited
    to 3) and normalization return a buffer that peaks at -26213; with the
    filters of [__init__] switched on, the same buffer is refused in the
    band-pass stage. *)
Example preprocess_audio_on_tone :
  (b <- _preprocess_audio standin_lib agc_only tone ;; frombuffer_int16 b)%py
  = Ok (13106 :: -26213 :: repeat 0 18) /\
  _preprocess_audio standin_lib loaded tone
  = Raise (ProcessorError
             "Audio preprocessing failed: Digital filter critical frequencies must be 0 < Wn < 1").
Proof. vm_compute. split; reflexivity. Qed.

(** [_apply_bandpass_filter] (lines 293-299) and [_preprocess_audio]: when
    the band-pass stage is switched on and the design of its filter is
    refused, as it is for the band of [__init__], the conditioner fails on
    every buffer, whatever the other stages do. *)
Theorem preprocess_audio_fails_when_band_is_refused
    (lib : Lib) (self : SeamlessM4TProcessor) (b : bytes) :
  enable_bandpass_filter self = true ->
  (forall x, exists e, bandpass_filtfilt lib x = Raise e) ->
  exists cause,
    _preprocess_audio lib self b
    = Raise (ProcessorError ("Audio preprocessing failed: " ++ cause)).
Proof.
  intros Hon Hrefused. unfold _preprocess_audio.
  destruct (preprocess_pipeline lib self b) as [out|e] eqn:Hp; cbn [try_except];
    [|exists (str e); reflexivity].
  exfalso. unfold preprocess_pipeline in Hp. rewrite Hon in Hp.
  destruct (frombuffer_int16 b) as [ints|]; cbn [bind] in Hp; [|discriminate].
  destruct (if enable_noise_suppression self then _ else _) as [a1|];
    cbn [bind] in Hp; [|discriminate].
  destruct (if enable_agc self then _ else _) as [a2|];
    cbn [bind] in Hp; [|discriminate].
  destruct (Hrefused a2) as [e Hband]. rewrite Hband in Hp. discriminate.
Qed.

Lemma preprocess_audio_fails_when_band_is_refused_witness :
  exists cause,
    _preprocess_audio standin_lib loaded tone
    = Raise (ProcessorError ("Audio preprocessing failed: " ++ cause)).
Proof.
  apply (preprocess_audio_fails_when_band_is_refused standin_lib loaded tone).
  - reflexivity.
  - intros x. eexists. reflexivity.
Defined.

(** ** The retry loop, for any engine *)

Lemma one_attempt_outcome (lib : Lib) (w : World) :
  one_attempt lib w
  = (attempt_outcome lib (response (engine w (net_calls w))), posted w).
Proof.
  unfold one_attempt, posted, session_post, attempt_outcome. cbn [snd].
  destruct (response (engine w (net_calls w))); reflexivity.
Qed.

(** The retry loop (lines 343-365) treats every failed request alike: a
    transport error, an HTTP error status and a response that cannot be
    parsed are all retried.  After three failed requests, with sleeps of 1
    and then 2 seconds between them, it raises [ProcessorError] with the
    cause of the third failure. *)
Theorem retry_loop_retries_every_failure (lib : Lib) (w : World) (e0 e1 e2 : exn) :
  attempt_outcome lib (response (engine w (net_calls w))) = Raise e0 ->
  attempt_outcome lib (response (engine w (S (net_calls w)))) = Raise e1 ->
  attempt_outcome lib (response (engine w (S (S (net_calls w))))) = Raise e2 ->
  exists w',
    retry_loop lib (range max_retries) w
    = (Raise (ProcessorError ("Translation failed after 3 attempts: " ++ str e2)), w')
    /\ net_calls w' = (net_calls w + 3)%nat
    /\ sleeps w' = (2%Q :: 1%Q :: sleeps w).
Proof.
  intros H0 H1 H2.
  rewrite range_max_retries. cbn [retry_loop].
  rewrite one_attempt_outcome, H0.
  change (Z.ltb 0 (max_retries - 1)) with true. cbv iota.
  rewrite one_attempt_outcome.
  unfold posted, session_post. cbn [asyncio_sleep engine net_calls snd].
  rewrite H1.
  change (Z.ltb 1 (max_retries - 1)) with true. cbv iota.
  rewrite one_attempt_outcome.
  unfold posted, session_post. cbn [asyncio_sleep engine net_calls snd].
  rewrite H2.
  change (Z.ltb 2 (max_retries - 1)) with false. cbv iota.
  eexists. split; [reflexivity|]. cbn. split; [lia|reflexivity].
Qed.

Lemma retry_loop_retries_every_failure_witness :
  exists w',
    retry_loop standin_lib (range max_retries) (world0 engine_rejecting)
    = (Raise (ProcessorError
                ("Translation failed after 3 attempts: "
                 ++ str (ProcessorError "API request failed: 400 - bad request"))), w')
    /\ net_calls w' = (net_calls (world0 engine_rejecting) + 3)%nat
    /\ sleeps w' = (2%Q :: 1%Q :: sleeps (world0 engine_rejecting)).
Proof.
  apply (retry_loop_retries_every_failure standin_lib (world0 engine_rejecting)
           (ProcessorError "API request failed: 400 - bad request")
           (ProcessorError "API request failed: 400 - bad request")
           (ProcessorError "API request failed: 400 - bad request"));
    vm_compute; reflexivity.
Defined.

(** Whatever the engine answers, the retry loop sends one, two or three
    requests and never a fourth; it sleeps 1 second before the second and 2
    seconds before the third; a result comes from the last request sent, and
    a failure is reported only after three requests, as a [ProcessorError].
    The loop never ends without a result or an exception. *)
Theorem retry_loop_attempts (lib : Lib) (w : World) :
  let '(r, w') := retry_loop lib (range max_retries) w in
  engine w' = engine w /\
  ((exists audio, r = Ok (Some audio) /\
      ((net_calls w' = (net_calls w + 1)%nat /\ sleeps w' = sleeps w) \/
       (net_calls w' = (net_calls w + 2)%nat /\ sleeps w' = 1%Q :: sleeps w) \/
       (net_calls w' = (net_calls w + 3)%nat /\ sleeps w' = 2%Q :: 1%Q :: sleeps w)))
   \/ (exists msg, r = Raise (ProcessorError msg) /\
         net_calls w' = (net_calls w + 3)%nat /\
         sleeps w' = 2%Q :: 1%Q :: sleeps w)).
Proof.
  rewrite range_max_retries. cbn [retry_loop].
  rewrite one_attempt_outcome.
  destruct (attempt_outcome lib (response (engine w (net_calls w)))) as [a0|e0].
  { split; [reflexivity|]. left. exists a0. split; [reflexivity|].
    left. cbn. split; [lia|reflexivity]. }
  change (Z.ltb 0 (max_retries - 1)) with true. cbv iota.
  rewrite one_attempt_outcome.
  unfold posted, session_post. cbn [asyncio_sleep engine net_calls snd].
  destruct (attempt_outcome lib (response (engine w (S (net_calls w))))) as [a1|e1].
  { split; [reflexivity|]. left. exists a1. split; [reflexivity|].
    right. left. cbn. split; [lia|reflexivity]. }
  change (Z.ltb 1 (max_retries - 1)) with true. cbv iota.
  rewrite one_attempt_outcome.
  unfold posted, session_post. cbn [asyncio_sleep engine net_calls snd].
  destruct (attempt_outcome lib (response (engine w (S (S (net_calls w))))))
    as [a2|e2].
  { split; [reflexivity|]. left. exists a2. split; [reflexivity|].
    right. right. cbn. split; [lia|reflexivity]. }
  change (Z.ltb 2 (max_retries - 1)) with false. cbv iota.
  split; [reflexivity|]. right. eexists. split; [reflexivity|].
  cbn. split; [lia|reflexivity].
Qed.

(** ** translate_audio and the life cycle of the processor *)

Lemma preprocess_audio_raises_processor_error (lib : Lib)
    (self : SeamlessM4TProcessor) (b : bytes) (e : exn) :
  _preprocess_audio lib self b = Raise e -> is_ProcessorError e = true.
Proof.
  unfold _preprocess_audio.
  destruct (preprocess_pipeline lib self b); cbn [try_except]; [discriminate|].
  intros [= <-]. reflexivity.
Qed.

(** [translate_audio] (lines 153-226) as it stands never returns a result:
    for every processor, request, library behaviour and engine, it raises an
    exception of class [ProcessorError] (never another class), sends no
    request to the engine, and leaves the statistics of the processor as
    they are. *)
Theorem translate_audio_always_fails
    (lib : Lib) (self : SeamlessM4TProcessor)
    (audio_data source target session_id : string) (w : World) :
  exists e,
    translate_audio lib self audio_data source target session_id w
    = (Raise e, self, w) /\
    is_ProcessorError e = true.
Proof.
  unfold translate_audio, translate_audio_body.
  destruct (is_loaded self); cbn [negb]; [|eexists; split; reflexivity].
  destruct (_is_language_supported source target); cbn [negb];
    [|eexists; split; reflexivity].
  destruct (b64decode lib audio_data) as [audio_bytes|e].
  2:{ destruct (is_ProcessorError e) eqn:He; eexists; split;
        try reflexivity; exact He. }
  destruct (_preprocess_audio lib self audio_bytes) as [pre|e] eqn:Hpre.
  2:{ rewrite (preprocess_audio_raises_processor_error _ _ _ _ Hpre).
      eexists. split; [reflexivity|].
      exact (preprocess_audio_raises_processor_error _ _ _ _ Hpre). }
  eexists. split; reflexivity.
Qed.

(** [initialize] (lines 124-139) with [_test_api_connection] (lines
    141-151).  The key is stored in any case.  When the test request returns
    status 200 the processor becomes loaded; otherwise [initialize] raises
    [ModelLoadError], whatever went wrong (a status other than 200 or an
    exception of the request), and the loaded flag stays as it was. *)
Theorem initialize_outcome (self : SeamlessM4TProcessor) (key : string)
    (get : Result Z) :
  let '(r, p) := initialize self key get in
  api_key p = Some key /\
  total_processed p = total_processed self /\
  match get with
  | Ok 200 => r = Ok () /\ is_loaded p = true
  | Ok status =>
      r = Raise (ModelLoadError
                   ("Model initialization failed: API connection failed: "
                    ++ "API test failed: " ++ pretty status))
      /\ is_loaded p = is_loaded self
  | Raise e =>
      r = Raise (ModelLoadError
                   ("Model initialization failed: API connection failed: " ++ str e))
      /\ is_loaded p = is_loaded self
  end.
Proof.
  unfold initialize, _test_api_connection.
  destruct get as [status|e]; cbn [bind try_except].
  - destruct (Z.eqb_spec status 200) as [->|Hne]; cbn [negb].
    + repeat split; reflexivity.
    + cbn [str]. split; [reflexivity|]. split; [reflexivity|].
      assert (r200 : forall (A : Type) (a b : A),
                 match status with 200 => a | _ => b end = b).
      { intros A a b. destruct status as [|p|p]; try reflexivity.
        do 8 (destruct p as [p|p|]; try reflexivity). congruence. }
      rewrite r200. split; reflexivity.
  - repeat split; reflexivity.
Qed.

(** After [cleanup] (lines 496-500) the key is gone, and every request is
    refused with the error of line 178, also when its languages are
    unsupported or its payload is malformed. *)
Lemma translate_audio_after_cleanup
    (lib : Lib) (self : SeamlessM4TProcessor)
    (audio_data source target session_id : string) (w : World) :
  api_key (cleanup self) = None /\
  translate_audio lib (cleanup self) audio_data source target session_id w
  = (Raise not_initialized_error, cleanup self, w).
Proof. split; reflexivity. Qed.

(** The start-up of the application (main.py, lines 63-73) fails only with
    [ModelLoadError].  Without a key in the environment, or with an empty
    one, it fails whatever the API would answer; it succeeds exactly when
    the key is non-empty and the connectivity test returns status 200, and
    the processor is then loaded and holds the key. *)
Theorem lifespan_startup_outcome (env_key : option string) (get : Result Z) :
  match lifespan_startup env_key get with
  | Ok p =>
      exists key, env_key = Some key /\ key <> "" /\ get = Ok 200 /\
                  is_loaded p = true /\ api_key p = Some key
  | Raise e =>
      exists msg, e = ModelLoadError msg /\
        (env_key = None \/ env_key = Some "" ->
         msg = "HUGGINGFACE_API_KEY environment variable not set") /\
        (get = Ok 200 -> env_key = None \/ env_key = Some "")
  end.
Proof.
  unfold lifespan_startup.
  destruct env_key as [[|c key]|].
  - eexists. split; [reflexivity|]. split; [reflexivity|]. intros _. right. reflexivity.
  - unfold initialize, _test_api_connection.
    destruct get as [status|e]; cbn [bind try_except].
    + destruct (Z.eqb_spec status 200) as [->|Hne]; cbn [negb].
      * exists (String c key). repeat split; try reflexivity. discriminate.
      * eexists. split; [reflexivity|].
        split; [intros [Hk|Hk]; discriminate|]. intros [= ->]. congruence.
    + eexists. split; [reflexivity|].
      split; [intros [Hk|Hk]; discriminate|]. discriminate.
  - eexists. split; [reflexivity|]. split; [reflexivity|]. intros _. left. reflexivity.
Qed.

(** ** What every handler preserves *)

Section Preservation.
Context {P : Type} `{Processor P}.
Variable Inv : State P -> Prop.
Hypothesis Inv_send : forall k m st, Inv st -> Inv (send_message k m st).
Hypothesis Inv_metadata :
  forall f k st, Inv st -> Inv (set_metadata (alter f k) st).
Hypothesis Inv_sessions :
  forall f k st, Inv st -> Inv (set_sessions (alter f k) st).
Hypothesis Inv_emit : forall e st, Inv st -> Inv (emit e st).
Hypothesis Inv_processor : forall p now st, Inv st -> Inv (set_processor p now st).
Hypothesis Inv_failed : forall st, Inv st -> Inv (set_stats add_failed_translation st).
Hypothesis Inv_success :
  forall q st st', Inv st -> record_success q st = Ok st' -> Inv st'.
Hypothesis Inv_partial : forall q st, Inv st -> Inv (record_success_partial q st).

Lemma chunk_failed_preserves (k : string) (e : exn) (st : State P) :
  Inv st -> Inv (chunk_failed k e st).
Proof.
  intros Hst. unfold chunk_failed, send_error_message.
  destruct (is_ProcessorError e); apply Inv_send, Inv_failed, Hst.
Qed.

Lemma at_dispatch_preserves (k : string) (seq : option Z) (st : State P) :
  Inv st -> Inv (at_dispatch k seq st).
Proof.
  intros Hst. unfold at_dispatch. apply Inv_emit, Inv_metadata.
  destruct seq as [n|]; [|exact Hst].
  unfold send_acknowledgment. apply Inv_send, Inv_metadata, Hst.
Qed.

Lemma after_dispatch_preserves (k : string) (message : InboundMessage)
    (start_time : Z) (r : Result TranslationResult) (st : State P) :
  Inv st -> Inv (after_dispatch k message start_time r st).
Proof.
  intros Hst. unfold after_dispatch.
  destruct r as [res|e]; [|apply chunk_failed_preserves, Hst].
  cbv zeta.
  match goal with
  | |- Inv match record_success ?q ?s with _ => _ end =>
      assert (Inv s) as Hs by (apply Inv_send, Hst);
      destruct (record_success q s) as [st6|e] eqn:Hrec
  end.
  - eapply Inv_success; eassumption.
  - apply chunk_failed_preserves, Inv_partial, Hs.
Qed.

Lemma process_audio_chunk_preserves (k : string) (message : InboundMessage)
    (st : State P) :
  Inv st -> Inv (process_audio_chunk k message st).
Proof.
  intros Hst.
  destruct (in_audio_chunk message) as [[|c audio]|] eqn:Haudio.
  - unfold process_audio_chunk. rewrite Haudio. apply chunk_failed_preserves, Hst.
  - rewrite (process_audio_chunk_unfold _ _ _ c audio Haudio). cbv zeta.
    destruct (call_translate_audio _ _ _ _ _ _ _) as [[r p] now].
    apply after_dispatch_preserves, Inv_processor, at_dispatch_preserves, Hst.
  - unfold process_audio_chunk. rewrite Haudio. apply chunk_failed_preserves, Hst.
Qed.

Lemma process_websocket_message_preserves (k : string) (data : Data) (st : State P) :
  Inv st -> Inv (process_websocket_message k data st).
Proof.
  intros Hst. unfold process_websocket_message, send_error_message.
  destruct data as [|message|e]; [apply Inv_send, Hst| |apply Inv_send, Hst].
  destruct (validate_inbound_message message); cbn [negb]; [|apply Inv_send, Hst].
  destruct (String.eqb _ _); [apply process_audio_chunk_preserves, Hst|exact Hst].
Qed.

Lemma loop_iteration_preserves (k : string) (inbound : Inbound) (st : State P) :
  Inv st -> Inv (loop_iteration k inbound st).1.
Proof.
  intros Hst. destruct inbound as [data| | |e]; cbn [loop_iteration fst].
  - apply process_websocket_message_preserves, Inv_sessions, Hst.
  - apply Inv_send, Hst.
  - exact Hst.
  - unfold send_error_message. apply Inv_send, Hst.
Qed.

Hypothesis Inv_open :
  forall ws k ip agent lang st, Inv st -> Inv (endpoint_open ws k ip agent lang st).1.
Hypothesis Inv_cleanup : forall k st, Inv st -> Inv (endpoint_cleanup k st).
Hypothesis Inv_elapse : forall dt st, Inv st -> Inv (elapse dt st).
Hypothesis Inv_break : forall ws st, Inv st -> Inv (break_socket ws st).

Lemma session_cleanup_pass_preserves (st : State P) :
  Inv st -> Inv (session_cleanup_pass st).
Proof.
  unfold session_cleanup_pass. generalize (inactive_sessions st) as l.
  intros l. revert st. induction l as [|k l IH]; intros st Hst; cbn [foldl].
  - exact Hst.
  - apply IH. apply (Inv_cleanup k st Hst).
Qed.

Lemma step_preserves (st : State P) (a : Action) : Inv st -> Inv (step st a).
Proof.
  intros Hst. destruct a as [ws k ip agent lang|k inbound| |dt|ws]; cbn [step].
  - apply Inv_open, Hst.
  - pose proof (loop_iteration_preserves k inbound st Hst) as Hit.
    destruct (loop_iteration k inbound st) as [st1 [|]]; cbn [fst] in Hit.
    + exact Hit.
    + apply Inv_cleanup, Hit.
  - apply session_cleanup_pass_preserves, Hst.
  - apply Inv_elapse, Hst.
  - apply Inv_break, Hst.
Qed.

Lemma run_preserves (actions : list Action) (st : State P) :
  Inv st -> Inv (run actions st).
Proof.
  unfold run. revert st. induction actions as [|a actions IH]; intros st Hst;
    cbn [foldl]; [exact Hst|].
  apply IH, step_preserves, Hst.
Qed.

End Preservation.

(** ** The registry and the counters in every reachable state *)

Section Invariants.
Context {P : Type} `{Processor P}.

Lemma registry_consistent_frame (st st' : State P) :
  manager_active_connections st' = manager_active_connections st ->
  dom (manager_session_metadata st') = dom (manager_session_metadata st) ->
  dom (active_sessions st') = dom (active_sessions st) ->
  active_connections (connection_stats st') = active_connections (connection_stats st) ->
  registry_consistent st -> registry_consistent st'.
Proof.
  unfold registry_consistent. intros -> -> -> ->. exact id.
Qed.

Lemma disconnect_registry (k : string) (st : State P) :
  registry_consistent st -> registry_consistent (disconnect k st).
Proof.
  unfold registry_consistent, disconnect. state_simpl.
  cbn [active_connections]. intros (Hdom & Hsub & _).
  rewrite !dom_delete_L. split; [congruence|]. split; [|reflexivity].
  intros x Hx. apply Hsub. apply elem_of_difference in Hx as [Hx _]. exact Hx.
Qed.

Lemma send_message_registry (k : string) (m : Message) (st : State P) :
  registry_consistent st -> registry_consistent (send_message k m st).
Proof.
  intros Hst. unfold send_message.
  destruct (manager_active_connections st !! k) as [ws|]; [|exact Hst].
  destruct (bool_decide (ws ∈ broken st)); [apply disconnect_registry, Hst|].
  eapply registry_consistent_frame; [..|exact Hst]; state_simpl;
    try reflexivity.
  apply dom_alter_L.
Qed.

Lemma endpoint_cleanup_registry (k : string) (st : State P) :
  registry_consistent st -> registry_consistent (endpoint_cleanup k st).
Proof.
  unfold registry_consistent, endpoint_cleanup, disconnect. state_simpl.
  cbn [active_connections]. intros (Hdom & Hsub & _).
  rewrite !dom_delete_L. split; [congruence|]. split; [|reflexivity].
  intros x Hx. apply elem_of_difference in Hx as [Hx Hne].
  apply elem_of_difference. split; [apply Hsub, Hx|exact Hne].
Qed.

Lemma endpoint_open_registry (ws : WebSocket) (k ip agent lang : string)
    (st : State P) :
  registry_consistent st ->
  registry_consistent (endpoint_open ws k ip agent lang st).1.
Proof.
  intros Hst. unfold endpoint_open.
  destruct (uuid_ok k); cbn [negb fst].
  - apply send_message_registry.
    destruct Hst as (Hdom & Hsub & _).
    unfold registry_consistent, connect. state_simpl. cbn [active_connections].
    rewrite !dom_insert_L. split; [congruence|]. split; [|reflexivity].
    intros x Hx. apply elem_of_union in Hx as [Hx|Hx]; apply elem_of_union;
      [left; exact Hx|right; apply Hsub, Hx].
  - eapply registry_consistent_frame; [..|exact Hst]; reflexivity.
Qed.

Lemma record_success_stats (q : Q) (st st' : State P) :
  record_success q st = Ok st' ->
  total_translations (connection_stats st')
  = total_translations (connection_stats st) + 1 /\
  successful_translations (connection_stats st')
  = successful_translations (connection_stats st) + 1 /\
  failed_translations (connection_stats st') = failed_translations (connection_stats st) /\
  active_connections (connection_stats st') = active_connections (connection_stats st) /\
  active_sessions st' = active_sessions st.
Proof.
  unfold record_success.
  destruct (Z.eqb _ 0); [discriminate|].
  destruct (get_backpressure_events _); cbn [bind]; [|discriminate].
  intros [= <-]. repeat split; reflexivity.
Qed.

(** The tables of the server agree in every state the server can reach,
    whatever connections are accepted, whatever arrives on them, whichever
    sockets break and whenever the cleanup pass runs. *)
Theorem registry_consistent_always (p : P) (now : Z) (actions : list Action) :
  registry_consistent (run actions (initial_state p now)).
Proof.
  apply run_preserves.
  - apply send_message_registry.
  - intros f k st Hst. eapply registry_consistent_frame; [..|exact Hst];
      state_simpl; try reflexivity. apply dom_alter_L.
  - intros f k st Hst. eapply registry_consistent_frame; [..|exact Hst];
      state_simpl; try reflexivity. apply dom_alter_L.
  - intros e st Hst. eapply registry_consistent_frame; [..|exact Hst]; reflexivity.
  - intros p' now' st Hst.
    eapply registry_consistent_frame; [..|exact Hst]; reflexivity.
  - intros st Hst. eapply registry_consistent_frame; [..|exact Hst]; reflexivity.
  - intros q st st' Hst Hrec.
    destruct (record_success_frame q st st' Hrec) as (_ & _ & Hc & Hm).
    destruct (record_success_stats q st st' Hrec) as (_ & _ & _ & Ha & Hs).
    eapply registry_consistent_frame; [..|exact Hst]; congruence.
  - intros q st Hst. unfold record_success_partial.
    destruct (Z.eqb _ 0);
      (eapply registry_consistent_frame; [..|exact Hst]; reflexivity).
  - apply endpoint_open_registry.
  - apply endpoint_cleanup_registry.
  - intros dt st Hst. eapply registry_consistent_frame; [..|exact Hst]; reflexivity.
  - intros ws st Hst. eapply registry_consistent_frame; [..|exact Hst]; reflexivity.
  - unfold registry_consistent, initial_state. state_simpl.
    rewrite !dom_empty_L. split; [reflexivity|]. split; [done|reflexivity].
Qed.

Lemma counters_consistent_frame (st st' : State P) :
  total_translations (connection_stats st') = total_translations (connection_stats st) ->
  successful_translations (connection_stats st')
  = successful_translations (connection_stats st) ->
  failed_translations (connection_stats st') = failed_translations (connection_stats st) ->
  counters_consistent st -> counters_consistent st'.
Proof.
  unfold counters_consistent. intros -> -> ->. exact id.
Qed.

Lemma send_message_counters (k : string) (m : Message) (st : State P) :
  counters_consistent st -> counters_consistent (send_message k m st).
Proof.
  intros Hst. unfold send_message.
  destruct (manager_active_connections st !! k) as [ws|]; [|exact Hst].
  destruct (bool_decide (ws ∈ broken st));
    (eapply counters_consistent_frame; [..|exact Hst]; reflexivity).
Qed.

Lemma counters_consistent_reachable (p : P) (now : Z) (actions : list Action) :
  counters_consistent (run actions (initial_state p now)).
Proof.
  apply run_preserves.
  - apply send_message_counters.
  - intros f k st Hst. eapply counters_consistent_frame; [..|exact Hst]; reflexivity.
  - intros f k st Hst. eapply counters_consistent_frame; [..|exact Hst]; reflexivity.
  - intros e st Hst. eapply counters_consistent_frame; [..|exact Hst]; reflexivity.
  - intros p' now' st Hst.
    eapply counters_consistent_frame; [..|exact Hst]; reflexivity.
  - intros st (Heq & Htot & Hfail). unfold counters_consistent. state_simpl.
    cbn [add_failed_translation total_translations successful_translations
         failed_translations]. lia.
  - intros q st st' (Heq & Htot & Hfail) Hrec.
    destruct (record_success_stats q st st' Hrec) as (Ht & Hs & Hf & _).
    unfold counters_consistent. lia.
  - intros q st (Heq & Htot & Hfail). unfold record_success_partial, counters_consistent.
    destruct (Z.eqb _ 0); state_simpl;
      cbn [total_translations successful_translations failed_translations]; lia.
  - intros ws k ip agent lang st Hst. unfold endpoint_open.
    destruct (uuid_ok k); cbn [negb fst].
    + apply send_message_counters.
      eapply counters_consistent_frame; [..|exact Hst]; reflexivity.
    + eapply counters_consistent_frame; [..|exact Hst]; reflexivity.
  - intros k st Hst. eapply counters_consistent_frame; [..|exact Hst]; reflexivity.
  - intros dt st Hst. eapply counters_consistent_frame; [..|exact Hst]; reflexivity.
  - intros ws st Hst. eapply counters_consistent_frame; [..|exact Hst]; reflexivity.
  - unfold counters_consistent, initial_state. state_simpl. cbn. lia.
Qed.

(** In every state the server can reach, the counter of translations equals
    the counter of successful translations, because a failed translation is
    counted in neither; so the success rate that the statistics report is
    0 when nothing was translated and 100 otherwise, however many
    translations failed. *)
Theorem success_rate_is_zero_or_hundred (p : P) (now : Z) (actions : list Action) :
  let stats := connection_stats (run actions (initial_state p now)) in
  total_translations stats = successful_translations stats /\
  0 <= failed_translations stats /\
  exists q, get_success_rate stats = Ok q /\
            ((total_translations stats = 0 /\ (q == 0)%Q) \/
             (0 < total_translations stats /\ (q == 100)%Q)).
Proof.
  cbv zeta.
  destruct (counters_consistent_reachable p now actions) as (Heq & Htot & Hfail).
  set (stats := connection_stats _) in *.
  split; [exact Heq|]. split; [exact Hfail|].
  unfold get_success_rate, truediv.
  destruct (Z.eqb_spec (total_translations stats) 0) as [Hz|Hnz].
  - eexists. split; [reflexivity|]. left. split; [exact Hz|reflexivity].
  - cbn [bind]. eexists. split; [reflexivity|]. right. split; [lia|].
    rewrite <- Heq. field. unfold Qeq. cbn. lia.
Qed.

End Invariants.

(** ** Inbound units *)

Section Units.
Context {P : Type} `{Processor P}.

(** A unit passes [validate_inbound_message] exactly when it has a
    well-formed ["session_id"] and a non-empty ["audio_chunk"]. *)
Lemma validate_inbound_message_true_iff (message : InboundMessage) :
  validate_inbound_message message = true <->
  exists session_id audio,
    in_session_id message = Some session_id /\ uuid_ok session_id = true /\
    in_audio_chunk message = Some audio /\ audio <> "".
Proof.
  unfold validate_inbound_message. split.
  - destruct (in_session_id message) as [k|]; [|discriminate].
    destruct (in_audio_chunk message) as [audio|]; [|discriminate].
    destruct (uuid_ok k) eqn:Hk; cbn [negb]; [|discriminate].
    destruct audio as [|c audio]; [discriminate|]. intros _.
    exists k, (String c audio).
    split; [reflexivity|]. split; [exact Hk|]. split; [reflexivity|discriminate].
  - intros (k & audio & -> & -> & -> & Hne). cbn [negb].
    destruct audio; [congruence|reflexivity].
Qed.

(** An inbound unit that is rejected before it is looked at as an audio
    chunk is answered with one error message on a session registered on a
    working socket, and that is all: the loop goes on, the session stays
    registered, no sequence number is acknowledged, no translation is
    dispatched or counted.  The code of the message is [JSON_PARSE_ERROR]
    for text that is not JSON, [INVALID_MESSAGE_FORMAT] for an object on
    which [validate_inbound_message] returns [False] (a required field is
    absent, the ["session_id"] is refused by [uuid.UUID], or the
    ["audio_chunk"] is empty), and [PROCESSING_ERROR], with the text of the
    exception, for JSON on which the validation raises. *)
Theorem rejected_unit_is_reported_and_loop_continues
    (session_id : string) (data : Data) (st : State P) (ws : WebSocket)
    (code : ErrorCode) (msg : string) :
  rejection data = Some (code, msg) ->
  manager_active_connections st !! session_id = Some ws ->
  ws ∉ broken st ->
  exists st',
    loop_iteration session_id (Recv data) st = (st', true) /\
    trace st'
    = (trace st ++ [Sent ws (MError session_id code msg None (timestamp_ms st))])%list /\
    manager_active_connections st' = manager_active_connections st /\
    connection_stats st' = connection_stats st /\
    translation_processor st' = translation_processor st /\
    forall s, last_ack st' s = last_ack st s.
Proof.
  intros Hrej Hreg Hok.
  eexists. split; [reflexivity|].
  assert (process_websocket_message session_id data
            (set_sessions (alter (touch_session (clock st)) session_id) st)
          = send_message session_id
              (MError session_id code msg None (timestamp_ms st))
              (set_sessions (alter (touch_session (clock st)) session_id) st))
    as ->.
  { unfold process_websocket_message, rejection in *.
    destruct data as [|message|e].
    - injection Hrej as <- <-. reflexivity.
    - destruct (validate_inbound_message message); [discriminate|].
      injection Hrej as <- <-. reflexivity.
    - injection Hrej as <- <-. reflexivity. }
  rewrite (send_message_registered _ _ _ ws) by (state_simpl; assumption).
  state_simpl. repeat (split; [reflexivity|]).
  intros s. rewrite last_ack_alter by reflexivity. reflexivity.
Qed.

End Units.

Lemma rejected_unit_is_reported_and_loop_continues_witness :
  let st0 := (endpoint_open 7%nat S1 "10.0.0.1" "client" "en-hi"
                (initial_state succeeding 1000000)).1 in
  let data := Parsed {| in_session_id := Some S1; in_audio_chunk := None;
                        in_chunk_index := Some 0; in_sequence_id := Some 1;
                        in_language_pair := None; in_message_type := None |} in
  exists st',
    loop_iteration S1 (Recv data) st0 = (st', true) /\
    trace st'
    = (trace st0 ++ [Sent 7%nat (MError S1 INVALID_MESSAGE_FORMAT
                                   "Message format is invalid" None
                                   (timestamp_ms st0))])%list /\
    manager_active_connections st' = manager_active_connections st0 /\
    connection_stats st' = connection_stats st0 /\
    translation_processor st' = translation_processor st0 /\
    forall s, last_ack st' s = last_ack st0 s.
Proof.
  intros st0 data.
  apply (rejected_unit_is_reported_and_loop_continues S1 data st0 7%nat).
  - reflexivity.
  - vm_compute. reflexivity.
  - vm_compute. discriminate.
Defined.

(** The unit [123] is JSON but no object: the membership test of the
    validation raises, and the client is told [PROCESSING_ERROR].  The same
    holds for an object whose ["session_id"] is the number 5. *)
Example number_as_inbound_unit :
  let st0 := (endpoint_open 7%nat S1 "10.0.0.1" "client" "en-hi"
                (initial_state (deployed engine_up) 1000000)).1 in
  let not_iterable := TypeError "argument of type 'int' is not iterable" in
  let not_a_string := AttributeError "'int' object has no attribute 'replace'" in
  rejection (Untyped not_iterable)
  = Some (PROCESSING_ERROR, "argument of type 'int' is not iterable") /\
  trace (step st0 (Iterate S1 (Recv (Untyped not_iterable))))
  = [Sent 7%nat (MConnected S1 1000);
     Sent 7%nat (MError S1 PROCESSING_ERROR
                   "argument of type 'int' is not iterable" None 1000)] /\
  trace (step st0 (Iterate S1 (Recv (Untyped not_a_string))))
  = [Sent 7%nat (MConnected S1 1000);
     Sent 7%nat (MError S1 PROCESSING_ERROR
                   "'int' object has no attribute 'replace'" None 1000)].
Proof. vm_compute. repeat split; reflexivity. Qed.

(** Session ids in the forms that [int(hex, 16)] accepts pass the check of
    [uuid.UUID]; 32 characters that are not such a numeral, and numerals of
    another length, do not. *)
Example uuid_ok_forms :
  uuid_ok S1 = true /\
  uuid_ok "{123e4567-e89b-12d3-a456-426614174000}" = true /\
  uuid_ok "urn:uuid:123e4567-e89b-12d3-a456-426614174000" = true /\
  uuid_ok "0x3e4567e89b12d3a456426614174000" = true /\
  uuid_ok "+23e4567e89b12d3a456426614174000" = true /\
  uuid_ok "1_3e4567e89b12d3a4564266141740_0" = true /\
  uuid_ok " 23e4567e89b12d3a45642661417400 " = true /\
  uuid_ok "1__e4567e89b12d3a4564266141740_0" = false /\
  uuid_ok "_23e4567e89b12d3a456426614174000" = false /\
  uuid_ok "g23e4567e89b12d3a456426614174000" = false /\
  uuid_ok "123e4567e89b12d3a45642661417400" = false /\
  uuid_ok "not-a-uuid" = false.
Proof. vm_compute. repeat split; reflexivity. Qed.

Section Units2.
Context {P : Type} `{Processor P}.

(** The ["session_id"] of an inbound unit is only checked for its format:
    a unit that names any other well-formed session is processed exactly as
    if it named the session of the connection it arrived on. *)
Theorem frame_session_id_is_not_compared
    (session_id other : string) (message : InboundMessage) (st : State P) :
  validate_inbound_message message = true ->
  uuid_ok other = true ->
  process_websocket_message session_id (Parsed (with_session_id other message)) st
  = process_websocket_message session_id (Parsed message) st.
Proof.
  intros Hvalid Hother.
  assert (validate_inbound_message (with_session_id other message) = true) as Hv.
  { apply validate_inbound_message_true_iff in Hvalid
      as (k & audio & _ & _ & Haudio & Hne).
    apply validate_inbound_message_true_iff. exists other, audio.
    repeat split; try assumption. }
  unfold process_websocket_message. rewrite Hvalid, Hv. reflexivity.
Qed.

End Units2.

Lemma frame_session_id_is_not_compared_witness :
  let st0 := (endpoint_open 7%nat S1 "10.0.0.1" "client" "en-hi"
                (initial_state succeeding 1000000)).1 in
  process_websocket_message S1
    (Parsed (with_session_id "00000000-0000-4000-8000-000000000002" (chunk 1))) st0
  = process_websocket_message S1 (Parsed (chunk 1)) st0.
Proof.
  intros st0.
  apply (frame_session_id_is_not_compared S1 "00000000-0000-4000-8000-000000000002"
           (chunk 1) st0); vm_compute; reflexivity.
Defined.

(** ** Connections *)

Section Connections.
Context {P : Type} `{Processor P}.

(** Accepting a connection for a session id that is already registered
    raises no error and closes nothing: the new socket replaces the old one
    in the registry, the metadata of the session starts again (no sequence
    number acknowledged), the total of connections grows while the number of
    active ones does not, and the welcome goes to the new socket. *)
Theorem second_connection_replaces_first
    (new old : WebSocket) (session_id ip agent lang : string) (st : State P) :
  uuid_ok session_id = true ->
  manager_active_connections st !! session_id = Some old ->
  new ∉ broken st ->
  let '(st', entered) := endpoint_open new session_id ip agent lang st in
  entered = true /\
  manager_active_connections st' !! session_id = Some new /\
  last_ack st' session_id = Some 0 /\
  trace st' = (trace st ++ [Sent new (MConnected session_id (timestamp_ms st))])%list /\
  total_connections (connection_stats st') = total_connections (connection_stats st) + 1 /\
  active_connections (connection_stats st')
  = Z.of_nat (size (manager_active_connections st)).
Proof.
  intros Hid Hreg Hok. unfold endpoint_open. rewrite Hid. cbn [negb].
  split; [reflexivity|].
  rewrite (send_message_registered _ _ _ new).
  2:{ unfold connect. state_simpl. apply lookup_insert_eq. }
  2:{ exact Hok. }
  unfold connect, last_ack. state_simpl.
  cbn [total_connections active_connections].
  rewrite lookup_insert_eq, lookup_alter_eq, lookup_insert_eq.
  repeat (split; [reflexivity|]).
  rewrite map_size_insert_Some by eauto. reflexivity.
Qed.

Lemma send_message_broken (session_id : string) (m : Message) (st : State P)
    (ws : WebSocket) :
  manager_active_connections st !! session_id = Some ws ->
  ws ∈ broken st ->
  send_message session_id m st = disconnect session_id st.
Proof.
  intros Hreg Hbad. unfold send_message. rewrite Hreg.
  rewrite bool_decide_eq_true_2 by exact Hbad. reflexivity.
Qed.

(** A send that fails removes the session from the registry of the manager
    but neither from [active_sessions] nor from its loop: nothing is
    delivered, later sends to the session are dropped without an attempt,
    and the iteration that sent a keepalive ends with the loop going on. *)
Theorem failed_send_unregisters_silently
    (session_id : string) (m : Message) (st : State P) (ws : WebSocket) :
  manager_active_connections st !! session_id = Some ws ->
  ws ∈ broken st ->
  let st' := send_message session_id m st in
  trace st' = trace st /\
  manager_active_connections st' !! session_id = None /\
  manager_session_metadata st' !! session_id = None /\
  active_sessions st' = active_sessions st /\
  (forall m', send_message session_id m' st' = st') /\
  loop_iteration session_id WaitTimeout st
  = (send_message session_id (MKeepalive session_id (timestamp_ms st)) st, true).
Proof.
  intros Hreg Hbad. cbv zeta.
  rewrite (send_message_broken _ _ _ ws Hreg Hbad).
  unfold disconnect. state_simpl. rewrite !lookup_delete_eq.
  repeat (split; [reflexivity|]).
  split; [|reflexivity].
  intros m'. apply send_message_unregistered. state_simpl. apply lookup_delete_eq.
Qed.

Lemma loop_iteration_continues (k : string) (inbound : Inbound) (st : State P) :
  (loop_iteration k inbound st).2 = negb (is_exit inbound).
Proof. destruct inbound; reflexivity. Qed.

(** The message loop (lines 250-298) is left exactly when the transport
    reports a disconnect or an error of the receive, never because of what a
    received unit contains.  When it is left, the session is gone from all
    three tables; when it is not, every arrival was handled. *)
Theorem message_loop_exit (session_id : string) (arrivals : list (Z * Inbound))
    (st : State P) :
  let '(st', finished, units) := message_loop session_id arrivals st in
  finished = existsb is_exit arrivals.*2 /\
  (units <= length arrivals)%nat /\
  (finished = false -> units = length arrivals) /\
  (finished = true ->
   manager_active_connections st' !! session_id = None /\
   manager_session_metadata st' !! session_id = None /\
   active_sessions st' !! session_id = None).
Proof.
  revert st. induction arrivals as [|[wait inbound] arrivals IH]; intros st.
  - cbn. repeat split; try reflexivity; try lia; discriminate.
  - cbn [message_loop fmap list_fmap snd existsb length].
    pose proof (loop_iteration_continues session_id inbound (elapse wait st)) as Hc.
    destruct (loop_iteration session_id inbound (elapse wait st)) as [st1 c].
    cbn [snd] in Hc. subst c.
    destruct (is_exit inbound); cbn [negb orb].
    + split; [reflexivity|]. split; [lia|]. split; [discriminate|].
      intros _. unfold endpoint_cleanup, disconnect. state_simpl.
      rewrite !lookup_delete_eq. repeat split; reflexivity.
    + specialize (IH st1).
      destruct (message_loop session_id arrivals st1) as [[st2 finished] units].
      destruct IH as (Hf & Hle & Hall & Hgone).
      split; [exact Hf|]. split; [lia|]. split; [|exact Hgone].
      intros Hnf. rewrite (Hall Hnf). reflexivity.
Qed.


End Connections.

Lemma second_connection_replaces_first_witness :
  let st0 := (endpoint_open 7%nat S1 "10.0.0.1" "client" "en-hi"
                (initial_state succeeding 1000000)).1 in
  let '(st', entered) := endpoint_open 8%nat S1 "10.0.0.2" "client" "en-hi" st0 in
  entered = true /\
  manager_active_connections st' !! S1 = Some 8%nat /\
  last_ack st' S1 = Some 0 /\
  trace st' = (trace st0 ++ [Sent 8%nat (MConnected S1 (timestamp_ms st0))])%list /\
  total_connections (connection_stats st') = total_connections (connection_stats st0) + 1 /\
  active_connections (connection_stats st')
  = Z.of_nat (size (manager_active_connections st0)).
Proof.
  intros st0.
  apply (second_connection_replaces_first 8%nat 7%nat S1 "10.0.0.2" "client" "en-hi" st0).
  - vm_compute. reflexivity.
  - vm_compute. reflexivity.
  - vm_compute. discriminate.
Defined.

Lemma failed_send_unregisters_silently_witness :
  let st0 := break_socket 7%nat
               (endpoint_open 7%nat S1 "10.0.0.1" "client" "en-hi"
                  (initial_state succeeding 1000000)).1 in
  let st' := send_message S1 (MKeepalive S1 1000) st0 in
  trace st' = trace st0 /\
  manager_active_connections st' !! S1 = None /\
  manager_session_metadata st' !! S1 = None /\
  active_sessions st' = active_sessions st0 /\
  (forall m', send_message S1 m' st' = st') /\
  loop_iteration S1 WaitTimeout st0
  = (send_message S1 (MKeepalive S1 (timestamp_ms st0)) st0, true).
Proof.
  intros st0.
  apply (failed_send_unregisters_silently S1 (MKeepalive S1 1000) st0 7%nat).
  - vm_compute. reflexivity.
  - vm_compute. reflexivity.
Defined.


(** ** The cleanup pass and the clock *)

Lemma cleanup_pass_evicts_iff_witness :
  let st := elapse 301000000
              (endpoint_open 7%nat S1 "10.0.0.1" "client" "en-hi"
                 (initial_state succeeding 0)).1 in
  let info := {| si_session_id := S1; si_language_pair := "en-hi";
                 si_created_at := 0; si_last_activity := 0;
                 si_message_count := 0; si_chunks_processed := 0;
                 si_last_acknowledged_seq := 0 |} in
  let swept := session_cleanup_pass st in
  (300 < timedelta_seconds (clock st - si_last_activity info) ->
   active_sessions swept !! S1 = None /\
   manager_active_connections swept !! S1 = None /\
   forall m, send_message S1 m swept = swept) /\
  (timedelta_seconds (clock st - si_last_activity info) <= 300 ->
   active_sessions swept !! S1 = Some info /\
   manager_active_connections swept !! S1 = manager_active_connections st !! S1).
Proof.
  intros st info.
  apply (cleanup_pass_evicts_iff st S1 info).
  vm_compute. reflexivity.
Defined.

Section Clock.
Context {P : Type} `{Processor P}.

Lemma timedelta_seconds_of_negative (delta : Z) :
  -86099000000 <= delta < 0 -> 300 < timedelta_seconds delta.
Proof.
  intros Hd. unfold timedelta_seconds.
  assert (delta mod 86400000000 = delta + 86400000000) as ->.
  { symmetry. apply Z.mod_unique with (q := -1); lia. }
  apply Z.lt_le_trans with (m := 301); [lia|].
  apply Z.div_le_lower_bound; lia.
Qed.

(** The cleanup pass and a clock that stepped back: a session whose last
    activity lies in the future of the pass, by anything up to 86099
    seconds, is evicted as inactive, because the seconds field of a negative
    [timedelta] counts from the previous midnight of the interval. *)
Theorem session_active_in_the_future_is_evicted
    (st : State P) (session_id : string) (info : SessionInfo) :
  active_sessions st !! session_id = Some info ->
  -86099000000 <= clock st - si_last_activity info < 0 ->
  let swept := session_cleanup_pass st in
  active_sessions swept !! session_id = None /\
  manager_active_connections swept !! session_id = None.
Proof.
  intros Hinfo Hdelta. cbv zeta. unfold session_cleanup_pass.
  destruct (evict_all_lookup (inactive_sessions st) st session_id) as [Hs Hc].
  cbv zeta in *. rewrite Hs, Hc.
  assert (session_id ∈ inactive_sessions st) as Hin.
  { apply elem_of_inactive_sessions. exists info. split; [exact Hinfo|].
    apply timedelta_seconds_of_negative. exact Hdelta. }
  rewrite !decide_True by exact Hin. split; reflexivity.
Qed.

End Clock.

Lemma session_active_in_the_future_is_evicted_witness :
  let st := elapse (-10000000)
              (endpoint_open 7%nat S1 "10.0.0.1" "client" "en-hi"
                 (initial_state succeeding 1000000000)).1 in
  let swept := session_cleanup_pass st in
  active_sessions swept !! S1 = None /\
  manager_active_connections swept !! S1 = None.
Proof.
  intros st.
  apply (session_active_in_the_future_is_evicted st S1
           {| si_session_id := S1; si_language_pair := "en-hi";
              si_created_at := 1000000000; si_last_activity := 1000000000;
              si_message_count := 0; si_chunks_processed := 0;
              si_last_acknowledged_seq := 0 |}).
  - vm_compute. reflexivity.
  - vm_compute. split; [discriminate|reflexivity].
Defined.

(** ** Chunks that are not acknowledged *)

Section Unacknowledged.
Context {P : Type} `{Processor P}.

Lemma send_message_events (k : string) (m : Message) (st : State P) :
  exists evs, trace (send_message k m st) = (trace st ++ evs)%list /\
              (evs = [] \/ exists ws, evs = [Sent ws m]).
Proof.
  destruct (send_message_cases k m st) as (_ & _ & _ & Hcases).
  destruct Hcases as [(ws & _ & _ & Htr & _)|(Htr & _)].
  - exists [Sent ws m]. split; [exact Htr|]. right. eauto.
  - exists []. rewrite app_nil_r. split; [exact Htr|]. left. reflexivity.
Qed.

Lemma chunk_failed_no_ack (k : string) (e : exn) (st : State P) :
  exists evs, trace (chunk_failed k e st) = (trace st ++ evs)%list /\
              Forall (fun ev => is_ack ev = false) evs.
Proof.
  unfold chunk_failed, send_error_message.
  destruct (is_ProcessorError e);
    match goal with
    | |- context [send_message ?k ?m ?s] =>
        destruct (send_message_events k m s) as (evs & Htr & Hevs)
    end;
    (exists evs; split; [exact Htr|]);
    (destruct Hevs as [->|[ws ->]]; repeat constructor).
Qed.

Lemma after_dispatch_no_ack (k : string) (message : InboundMessage)
    (start_time : Z) (r : Result TranslationResult) (st4 : State P) :
  exists evs,
    trace (after_dispatch k message start_time r st4) = (trace st4 ++ evs)%list /\
    Forall (fun ev => is_ack ev = false) evs.
Proof.
  unfold after_dispatch. destruct r as [res|e]; [|apply chunk_failed_no_ack].
  cbv zeta.
  match goal with
  | |- context [record_success ?q (send_message ?k ?m ?s)] =>
      destruct (send_message_events k m s) as (evs & Htr & Hevs);
      assert (Forall (fun ev => is_ack ev = false) evs) as Hno
        by (destruct Hevs as [->|[ws ->]]; repeat constructor);
      destruct (record_success q (send_message k m s)) as [st6|e] eqn:Hrec
  end.
  - apply record_success_frame in Hrec as (_ & Ht & _ & _).
    exists evs. rewrite Ht. split; [exact Htr|exact Hno].
  - match goal with
    | |- context [chunk_failed ?k ?e ?s] =>
        destruct (chunk_failed_no_ack k e s) as (evs' & Htr' & Hno')
    end.
    match type of Htr' with
    | context [record_success_partial ?q ?s] =>
        destruct (record_success_partial_frame q s) as (_ & Ht & _ & _)
    end.
    exists (evs ++ evs')%list. rewrite Htr', Ht, Htr, app_assoc.
    split; [reflexivity|]. apply Forall_app. split; assumption.
Qed.

(** A valid chunk without [sequence_id] is translated but never
    acknowledged: the events of [process_audio_chunk] start with the
    dispatch and contain no ack, and no stored sequence number is new. *)
Theorem chunk_without_sequence_id_is_not_acknowledged
    (session_id : string) (message : InboundMessage) (st : State P) :
  validate_inbound_message message = true ->
  in_sequence_id message = None ->
  exists rest,
    trace (process_audio_chunk session_id message st)
    = (trace st ++ Dispatched session_id None :: rest)%list /\
    Forall (fun ev => is_ack ev = false) rest /\
    keeps_acks st (process_audio_chunk session_id message st).
Proof.
  intros Hvalid Hseq.
  apply validated_audio in Hvalid as (c & audio & Haudio).
  rewrite (process_audio_chunk_unfold _ _ _ c audio Haudio), Hseq. cbv zeta.
  destruct (call_translate_audio _ _ _ _ _ _ _) as [[r p] now].
  match goal with
  | |- context [after_dispatch ?k ?m ?t ?r ?s] =>
      destruct (after_dispatch_no_ack k m t r s) as (rest & Htr & Hno);
      pose proof (after_dispatch_keeps_acks k m t r s) as Hkeep
  end.
  exists rest. rewrite Htr.
  split; [unfold at_dispatch; state_simpl; rewrite <- app_assoc; reflexivity|].
  split; [exact Hno|].
  intros s v Hv. apply Hkeep in Hv.
  change (last_ack (set_processor ?a ?b ?x) s) with (last_ack x s) in Hv.
  apply at_dispatch_acks in Hv as [[_ Hnone]|Hv]; [discriminate|exact Hv].
Qed.

(** A valid chunk that arrives for a session the manager does not have
    registered (after an eviction or a failed send, while the loop of the
    connection is still running) is still handed to [translate_audio]; the
    dispatch is the only event: no ack, no transcript and no error reach
    anybody. *)
Theorem chunk_of_unregistered_session_is_still_translated
    (session_id : string) (message : InboundMessage) (st : State P) :
  validate_inbound_message message = true ->
  manager_active_connections st !! session_id = None ->
  let st' := process_audio_chunk session_id message st in
  trace st' = (trace st ++ [Dispatched session_id (in_sequence_id message)])%list /\
  manager_active_connections st' !! session_id = None.
Proof.
  intros Hvalid Hunreg. cbv zeta.
  apply validated_audio in Hvalid as (c & audio & Haudio).
  rewrite (process_audio_chunk_unfold _ _ _ c audio Haudio). cbv zeta.
  assert (trace (at_dispatch session_id (in_sequence_id message) st)
          = (trace st ++ [Dispatched session_id (in_sequence_id message)])%list
          /\ manager_active_connections
               (at_dispatch session_id (in_sequence_id message) st)
             = manager_active_connections st) as [Htr3 Hc3].
  { unfold at_dispatch, send_acknowledgment.
    destruct (in_sequence_id message) as [n|]; [|split; reflexivity].
    rewrite send_message_unregistered by (state_simpl; exact Hunreg).
    split; reflexivity. }
  set (st3 := at_dispatch session_id (in_sequence_id message) st) in *.
  destruct (call_translate_audio _ _ _ _ _ _ _) as [[r p] now].
  destruct (after_dispatch_sends session_id message (clock st3) r
              (set_processor p now st3)) as (_ & (evs & Htr & Hdel) & Hconn).
  assert (evs = []) as ->.
  { destruct evs as [|ev evs]; [reflexivity|].
    apply Forall_cons in Hdel as [(ws & m & _ & Hreg & _) _].
    revert Hreg. state_simpl. rewrite Hc3, Hunreg. discriminate. }
  rewrite Htr, app_nil_r. state_simpl. split; [exact Htr3|].
  destruct Hconn as [Hconn|Hnone]; [|exact Hnone].
  rewrite Hconn. state_simpl. rewrite Hc3. exact Hunreg.
Qed.

End Unacknowledged.

Lemma chunk_without_sequence_id_is_not_acknowledged_witness :
  let st0 := (endpoint_open 7%nat S1 "10.0.0.1" "client" "en-hi"
                (initial_state succeeding 1000000)).1 in
  let message := {| in_session_id := Some S1; in_audio_chunk := Some silence;
                    in_chunk_index := Some 0; in_sequence_id := None;
                    in_language_pair := None; in_message_type := None |} in
  exists rest,
    trace (process_audio_chunk S1 message st0)
    = (trace st0 ++ Dispatched S1 None :: rest)%list /\
    Forall (fun ev => is_ack ev = false) rest /\
    keeps_acks st0 (process_audio_chunk S1 message st0).
Proof.
  intros st0 message.
  apply (chunk_without_sequence_id_is_not_acknowledged S1 message st0).
  - vm_compute. reflexivity.
  - reflexivity.
Defined.

Lemma chunk_of_unregistered_session_is_still_translated_witness :
  let st0 := session_cleanup_pass
               (elapse 301000000
                  (endpoint_open 7%nat S1 "10.0.0.1" "client" "en-hi"
                     (initial_state succeeding 0)).1) in
  let st' := process_audio_chunk S1 (chunk 1) st0 in
  trace st' = (trace st0 ++ [Dispatched S1 (in_sequence_id (chunk 1))])%list /\
  manager_active_connections st' !! S1 = None.
Proof.
  intros st0.
  apply (chunk_of_unregistered_session_is_still_translated S1 (chunk 1) st0).
  - vm_compute. reflexivity.
  - vm_compute. reflexivity.
Defined.

(** ** The acknowledgment while the translation is awaited *)

Section Awaiting.
Context {P : Type} `{Processor P}.

(** With no other activity during the call, the handler with its suspension
    written out is [process_audio_chunk]. *)
Lemma process_audio_chunk_awaiting_alone (session_id : string)
    (message : InboundMessage) (st : State P) :
  process_audio_chunk_awaiting session_id message [] st
  = process_audio_chunk session_id message st.
Proof.
  unfold process_audio_chunk_awaiting, process_audio_chunk.
  destruct (in_audio_chunk message) as [[|c audio]|]; [reflexivity| |reflexivity].
  cbv zeta. unfold at_dispatch, after_dispatch, run. cbn [foldl].
  destruct (call_translate_audio _ _ _ _ _ _ _) as [[r p] now].
  reflexivity.
Qed.

Lemma process_audio_chunk_awaiting_unfold (session_id : string)
    (message : InboundMessage) (others : list Action) (st : State P)
    (c : ascii) (audio : string) :
  in_audio_chunk message = Some (String c audio) ->
  process_audio_chunk_awaiting session_id message others st
  = let st3 := at_dispatch session_id (in_sequence_id message) st in
    let '(r, p, now) :=
      call_translate_audio (translation_processor st3) translate_audio_keywords
        (String c audio)
        (default "en" (default (None, None) (in_language_pair message)).1)
        (default "hi" (default (None, None) (in_language_pair message)).2)
        session_id (clock st3) in
    let resumed := run others (set_processor p (clock st3) st3) in
    after_dispatch session_id message (clock st3) r
      (set_processor (translation_processor resumed) now resumed).
Proof.
  intros Haudio. unfold process_audio_chunk_awaiting. rewrite Haudio.
  reflexivity.
Qed.

Lemma extends_same (t0 : list Event) (st st' : State P) :
  trace st' = trace st -> extends t0 st -> extends t0 st'.
Proof. intros Ht [evs E]. exists evs. congruence. Qed.

Lemma extends_more (t0 : list Event) (st st' : State P) (more : list Event) :
  trace st' = (trace st ++ more)%list -> extends t0 st -> extends t0 st'.
Proof.
  intros Ht [evs E]. exists (evs ++ more)%list.
  rewrite Ht, E, app_assoc. reflexivity.
Qed.

Lemma send_message_extends (t0 : list Event) (k : string) (m : Message)
    (st : State P) :
  extends t0 st -> extends t0 (send_message k m st).
Proof.
  intros Hst.
  destruct (send_message_cases k m st)
    as (_ & _ & _ & [(ws & _ & _ & Htr & _)|(Htr & _)]).
  - eapply extends_more; eassumption.
  - eapply extends_same; eassumption.
Qed.

(** Whatever happens in the server, the events observed so far stay
    observed, in their order. *)
Lemma run_extends (t0 : list Event) (actions : list Action) (st : State P) :
  extends t0 st -> extends t0 (run actions st).
Proof.
  apply run_preserves.
  - intros k m st0. apply send_message_extends.
  - intros f k st0. apply extends_same. reflexivity.
  - intros f k st0. apply extends_same. reflexivity.
  - intros e st0. apply (extends_more t0 st0 _ [e]). reflexivity.
  - intros p now st0. apply extends_same. reflexivity.
  - intros st0. apply extends_same. reflexivity.
  - intros q st0 st1 Hst Hrec.
    apply record_success_frame in Hrec as (_ & Ht & _).
    eapply extends_same; eassumption.
  - intros q st0.
    destruct (record_success_partial_frame q st0) as (_ & Ht & _).
    apply extends_same. exact Ht.
  - intros ws k ip agent lang st0 Hst. unfold endpoint_open.
    destruct (uuid_ok k); cbn [negb fst].
    + apply send_message_extends. eapply extends_same; [|exact Hst]. reflexivity.
    + eapply extends_more; [|exact Hst]. reflexivity.
  - intros k st0. apply extends_same. reflexivity.
  - intros dt st0. apply extends_same. reflexivity.
  - intros ws st0. apply extends_same. reflexivity.
Qed.

(** The events of the handler with its suspension: those up to the
    dispatch, then whatever the others and the outcome add. *)
Lemma process_audio_chunk_awaiting_events (session_id : string)
    (message : InboundMessage) (others : list Action) (st : State P) :
  validate_inbound_message message = true ->
  extends (trace (at_dispatch session_id (in_sequence_id message) st))
    (process_audio_chunk_awaiting session_id message others st).
Proof.
  intros Hvalid.
  apply validated_audio in Hvalid as (c & audio & Haudio).
  rewrite (process_audio_chunk_awaiting_unfold _ _ _ _ c audio Haudio). cbv zeta.
  set (st3 := at_dispatch session_id (in_sequence_id message) st).
  destruct (call_translate_audio _ _ _ _ _ _ _) as [[r p] now].
  set (resumed := run others (set_processor p (clock st3) st3)).
  assert (extends (trace st3) resumed) as Hres.
  { apply run_extends. exists []. rewrite app_nil_r. reflexivity. }
  destruct (after_dispatch_sends session_id message (clock st3) r
              (set_processor (translation_processor resumed) now resumed))
    as (_ & (evs & Htr & _) & _).
  eapply extends_more; [exact Htr|].
  eapply extends_same; [|exact Hres]. reflexivity.
Qed.

(** C3, as the code has it.  A valid audio chunk that carries a
    [sequence_id] arrives.  When the session is registered on a working
    socket, the ack with that sequence number is delivered on it, next the
    translation is dispatched, and everything else (a transcript in
    particular) comes after both, whatever the other connections, the
    cleanup task and the transport do while the translation is awaited.
    When the session has no working socket, the translation is dispatched
    all the same and no ack precedes it. *)
Theorem ack_is_delivered_before_dispatch
    (session_id : string) (message : InboundMessage) (st : State P) (n : Z)
    (others : list Action) :
  validate_inbound_message message = true ->
  in_sequence_id message = Some n ->
  let st' := process_audio_chunk_awaiting session_id message others st in
  (forall ws, manager_active_connections st !! session_id = Some ws ->
     ws ∉ broken st ->
     exists rest,
       trace st'
       = (trace st ++ Sent ws (MAck session_id n (timestamp_ms st))
                   :: Dispatched session_id (Some n) :: rest)%list) /\
  (unreachable session_id st ->
     exists rest,
       trace st' = (trace st ++ Dispatched session_id (Some n) :: rest)%list).
Proof.
  intros Hvalid Hseq. cbv zeta.
  destruct (process_audio_chunk_awaiting_events session_id message others st Hvalid)
    as [rest Htr].
  rewrite Htr, Hseq.
  destruct (at_dispatch_cases session_id n st) as (_ & _ & _ & Hcases).
  split.
  - intros ws Hreg Hok.
    destruct Hcases as [(ws' & Hreg' & _ & Htr3 & _)|(_ & _ & Hbad)].
    + exists rest. rewrite Htr3, <- app_assoc.
      replace ws' with ws by congruence. reflexivity.
    + exfalso. apply Hok, Hbad, Hreg.
  - intros Hun.
    destruct Hcases as [(ws' & Hreg' & Hok' & _)|(Htr3 & _)].
    + exfalso. apply Hok', Hun, Hreg'.
    + exists rest. rewrite Htr3, <- app_assoc. reflexivity.
Qed.

End Awaiting.

(** A fresh session on the working socket 7, with the processor of the
    repository. *)
Lemma ack_is_delivered_before_dispatch_witness :
  let st0 := (endpoint_open 7%nat S1 "10.0.0.1" "client" "en-hi"
                (initial_state (deployed engine_up) 1000000)).1 in
  exists rest,
    trace (process_audio_chunk_awaiting S1 (chunk 1) [] st0)
    = (trace st0 ++ Sent 7%nat (MAck S1 1 (timestamp_ms st0))
                 :: Dispatched S1 (Some 1) :: rest)%list.
Proof.
  intros st0.
  destruct (ack_is_delivered_before_dispatch S1 (chunk 1) st0 1 [])
    as [Hregistered _].
  - vm_compute. reflexivity.
  - reflexivity.
  - apply (Hregistered 7%nat).
    + vm_compute. reflexivity.
    + vm_compute. discriminate.
Defined.

(** With a processor object that returns a result: while the translation
    is awaited the peer goes away and the client comes back on socket 8.  The
    transcript goes to the new socket, after the ack that went to the old
    one. *)
Lemma reconnection_during_translation_trace :
  let st0 := (endpoint_open 7%nat S1 "10.0.0.1" "client" "en-hi"
                (initial_state succeeding 1000000)).1 in
  let others := [PeerGone 7%nat; Accept 8%nat S1 "10.0.0.1" "client" "en-hi"] in
  trace (process_audio_chunk_awaiting S1 (chunk 1) others st0)
  = [Sent 7%nat (MConnected S1 1000);
     Sent 7%nat (MAck S1 1 1000);
     Dispatched S1 (Some 1);
     Sent 8%nat (MConnected S1 1000);
     Sent 8%nat (MTranscript S1 true 0 (Some 1) "Translated speech (48 bytes)"
                   (85 # 100) (120000 # 1000) 1120)].
Proof. vm_compute. reflexivity. Qed.

(** C3 as stated fails.  Session [S1] is opened on the processor of the
    repository, stays silent for 301 seconds and is evicted by the cleanup
    pass; its connection and its loop remain.  The valid chunk with
    [sequence_id] 1 that arrives next is handed to [translate_audio], and no
    ack is delivered, before the dispatch or after it. *)
Lemma evicted_session_chunk_is_dispatched_without_ack :
  let opened := (endpoint_open 7%nat S1 "10.0.0.1" "client" "en-hi"
                   (initial_state (deployed engine_up) 0)).1 in
  let swept := session_cleanup_pass (elapse 301000000 opened) in
  let '(st, continues) := loop_iteration S1 (Recv (Parsed (chunk 1))) swept in
  validate_inbound_message (chunk 1) = true /\
  in_sequence_id (chunk 1) = Some 1 /\
  continues = true /\
  trace st = [Sent 7%nat (MConnected S1 0); Dispatched S1 (Some 1)] /\
  existsb is_ack (trace st) = false.
Proof. vm_compute. repeat split; reflexivity. Qed.

(** With a processor object that returns a result, a transcript of a chunk
    can be delivered although no ack ever was: the socket fails when the ack
    is sent, and the client is back on another socket when the translation
    returns. *)
Lemma transcript_without_ack_after_reconnection :
  let st0 := break_socket 7%nat
               (endpoint_open 7%nat S1 "10.0.0.1" "client" "en-hi"
                  (initial_state succeeding 1000000)).1 in
  let others := [Accept 8%nat S1 "10.0.0.1" "client" "en-hi"] in
  trace (process_audio_chunk_awaiting S1 (chunk 1) others st0)
  = [Sent 7%nat (MConnected S1 1000);
     Dispatched S1 (Some 1);
     Sent 8%nat (MConnected S1 1000);
     Sent 8%nat (MTranscript S1 true 0 (Some 1) "Translated speech (48 bytes)"
                   (85 # 100) (120000 # 1000) 1120)].
Proof. vm_compute. reflexivity. Qed.

(** ** The stored sequence number in every step of the server *)

Section StoredSequenceNumber.
Context {P : Type} `{Processor P}.

Lemma endpoint_cleanup_keeps_acks (k : string) (st : State P) :
  keeps_acks st (endpoint_cleanup k st).
Proof.
  unfold endpoint_cleanup.
  eapply keeps_acks_trans; [apply disconnect_keeps_acks|].
  apply keeps_acks_same. reflexivity.
Qed.

Lemma session_cleanup_pass_keeps_acks (st : State P) :
  keeps_acks st (session_cleanup_pass st).
Proof.
  unfold session_cleanup_pass. generalize (inactive_sessions st) as l.
  intros l. revert st. induction l as [|k l IH]; intros st; cbn [foldl].
  - apply keeps_acks_same. reflexivity.
  - eapply keeps_acks_trans; [|apply IH].
    apply (endpoint_cleanup_keeps_acks k st).
Qed.

(** The handshake stores 0 for the session it registers and touches no
    other stored value. *)
Lemma endpoint_open_acks (ws : WebSocket) (k ip agent lang : string)
    (st : State P) (s : string) (v : Z) :
  last_ack (endpoint_open ws k ip agent lang st).1 s = Some v ->
  last_ack st s = Some v \/ (s = k /\ v = 0).
Proof.
  unfold endpoint_open.
  destruct (uuid_ok k); cbn [negb fst]; [|intros Hv; left; exact Hv].
  intros Hv. apply send_message_keeps_acks in Hv.
  revert Hv. unfold last_ack, connect. state_simpl.
  destruct (decide (k = s)) as [->|Hne].
  - rewrite lookup_insert_eq. cbn. intros [= <-]. right. split; reflexivity.
  - rewrite lookup_insert_ne by exact Hne. intros Hv. left. exact Hv.
Qed.

(** C2, as the code has it.  (1) A validated chunk that carries a
    [sequence_id], received on the connection of a session registered on a
    working socket, is acknowledged and the stored value becomes that
    [sequence_id], whatever the value stored before, smaller ones included.
    (2) Nothing else that the server does stores a value, but for the
    handshake: after any step, every stored value was stored before the
    step, or is 0 and the step accepted a connection for that session id, or
    is the [sequence_id] of a validated frame that the step received on the
    connection of that session. *)
Theorem last_ack_changes_by_validated_frame_or_handshake (st : State P) :
  (forall (session_id : string) (message : InboundMessage) (n : Z)
          (ws : WebSocket) (md : Metadata),
     validate_inbound_message message = true ->
     default "audio_chunk" (in_message_type message) = "audio_chunk" ->
     in_sequence_id message = Some n ->
     manager_active_connections st !! session_id = Some ws ->
     ws ∉ broken st ->
     manager_session_metadata st !! session_id = Some md ->
     last_ack (step st (Iterate session_id (Recv (Parsed message)))) session_id
     = Some n) /\
  (forall (a : Action) (s : string) (v : Z),
     last_ack (step st a) s = Some v ->
     last_ack st s = Some v \/
     (v = 0 /\ exists ws ip agent lang, a = Accept ws s ip agent lang) \/
     (exists message,
        a = Iterate s (Recv (Parsed message)) /\
        validate_inbound_message message = true /\
        in_sequence_id message = Some v)).
Proof.
  split.
  - intros session_id message n ws md Hvalid Htype Hseq Hreg Hok Hmd.
    cbn [step loop_iteration].
    destruct (last_ack_after_inbound_unit session_id
                (set_sessions (alter (touch_session (clock st)) session_id) st))
      as [Hset _].
    apply (Hset message n ws md); assumption.
  - intros a s v.
    destruct a as [ws k ip agent lang|k inbound| |dt|ws]; cbn [step].
    + intros Hv. apply endpoint_open_acks in Hv as [Hv|[-> ->]];
        [left; exact Hv|].
      right. left. split; [reflexivity|]. eauto.
    + destruct inbound as [data| | |e]; cbn [loop_iteration].
      * destruct (last_ack_after_inbound_unit k
                    (set_sessions (alter (touch_session (clock st)) k) st))
          as [_ Hkeep].
        intros Hv. apply Hkeep in Hv as [Hv|(-> & message & -> & Hvalid & Hseq)];
          [left; exact Hv|].
        right. right. exists message. done.
      * intros Hv. left. revert Hv. apply send_message_keeps_acks.
      * intros Hv. left. revert Hv. apply endpoint_cleanup_keeps_acks.
      * intros Hv. left. apply endpoint_cleanup_keeps_acks in Hv.
        revert Hv. unfold send_error_message. apply send_message_keeps_acks.
    + intros Hv. left. revert Hv. apply session_cleanup_pass_keeps_acks.
    + intros Hv. left. exact Hv.
    + intros Hv. left. exact Hv.
Qed.

End StoredSequenceNumber.

(** On the processor of the repository: after the chunk with [sequence_id]
    5 the value 5 is stored, and the chunk with [sequence_id] 3 replaces it
    by 3. *)
Lemma last_ack_changes_by_validated_frame_or_handshake_witness :
  let st0 := (endpoint_open 7%nat S1 "10.0.0.1" "client" "en-hi"
                (initial_state (deployed engine_up) 1000000)).1 in
  let st5 := step st0 (Iterate S1 (Recv (Parsed (chunk 5)))) in
  last_ack st5 S1 = Some 5 /\
  last_ack (step st5 (Iterate S1 (Recv (Parsed (chunk 3))))) S1 = Some 3.
Proof.
  intros st0 st5. split; [vm_compute; reflexivity|].
  assert (is_Some (manager_session_metadata st5 !! S1)) as [md Hmd]
    by (vm_compute; eexists; reflexivity).
  destruct (last_ack_changes_by_validated_frame_or_handshake st5) as [Hset _].
  apply (Hset S1 (chunk 3) 3 7%nat md).
  - vm_compute. reflexivity.
  - reflexivity.
  - reflexivity.
  - vm_compute. reflexivity.
  - vm_compute. discriminate.
  - exact Hmd.
Defined.

(** The handshake of a client that comes back with the same session id
    resets the stored value, from 5 to 0 here, without any frame. *)
Lemma last_ack_is_reset_by_reconnection :
  let st0 := (endpoint_open 7%nat S1 "10.0.0.1" "client" "en-hi"
                (initial_state (deployed engine_up) 1000000)).1 in
  let st5 := step st0 (Iterate S1 (Recv (Parsed (chunk 5)))) in
  last_ack st5 S1 = Some 5 /\
  last_ack (step st5 (Accept 8%nat S1 "10.0.0.1" "client" "en-hi")) S1 = Some 0.
Proof. vm_compute. split; reflexivity. Qed.
